(** * qBittorrent process lifecycle: a model of [src/app/main.cpp]

    The development embeds the start-up code of the client: the command-line
    interpreter [parseCommandLine], the legal-notice gate
    [userAgreesWithLegalNotice], the two signal handlers and the
    orchestrating [main].  Everything the code obtains from its collaborators
    (preferences, the file system, the terminal, the single-instance lock,
    the upgrade routine, [daemon(3)], the engine) is read from an explicit
    environment; everything it does to them is recorded in a trace. *)

From Stdlib Require Import ZArith List String Ascii Bool Lia Sorted.
From Stdlib Require Import Decimal DecimalString DecimalPos DecimalZ.
Import ListNotations.

Local Open Scope string_scope.
Local Open Scope Z_scope.

(** ** Strings: the [QString] operations the code uses *)

Module QStr.

Definition isEmpty (s : string) : bool :=
  match s with EmptyString => true | String _ _ => false end.

Definition size (s : string) : Z := Z.of_nat (String.length s).

Definition startsWith (s p : string) : bool := String.prefix p s.

(** [endsWith s p]: some suffix of [s] is [p]. *)
Fixpoint endsWith (s p : string) : bool :=
  if String.eqb s p then true
  else match s with
       | EmptyString => false
       | String _ s' => endsWith s' p
       end.

(** [QString::split(sep)] with the default [KeepEmptyParts]. *)
Fixpoint split (sep : ascii) (s : string) : list string :=
  match s with
  | EmptyString => [EmptyString]
  | String c s' =>
      if Ascii.eqb c sep then EmptyString :: split sep s'
      else match split sep s' with
           | [] => [String c EmptyString]
           | p :: ps => String c p :: ps
           end
  end.

Definition contains (c : ascii) (s : string) : bool :=
  existsb (Ascii.eqb c) (list_ascii_of_string s).

(** White space in the sense of [QChar::isSpace], on 8-bit characters:
    U+0009 to U+000D, the space U+0020, the next-line control U+0085 and
    the no-break space U+00A0. *)
Definition isSpace (c : ascii) : bool :=
  let n := N_of_ascii c in
  ((9 <=? n) && (n <=? 13) || (n =? 32) || (n =? 133) || (n =? 160))%N.

Fixpoint trimLeft (s : string) : string :=
  match s with
  | EmptyString => EmptyString
  | String c s' => if isSpace c then trimLeft s' else s
  end.

Fixpoint trimRight (s : string) : string :=
  match s with
  | EmptyString => EmptyString
  | String c s' =>
      let r := trimRight s' in
      if isSpace c && isEmpty r then EmptyString else String c r
  end.

Definition trimmed (s : string) : string := trimRight (trimLeft s).

Definition INT_MIN : Z := - 2 ^ 31.
Definition INT_MAX : Z := 2 ^ 31 - 1.

(** Unsigned decimal digits, at least one. *)
Definition digits (s : string) : option Z :=
  match s with
  | EmptyString => None
  | String _ _ => option_map Z.of_uint (NilEmpty.uint_of_string s)
  end.

(** The integer a string denotes in base 10: optional sign, then digits,
    surrounding white space ignored. *)
Definition stringToLongLong (s : string) : option Z :=
  match trimmed s with
  | EmptyString => None
  | String c d =>
      if Ascii.eqb c "-" then option_map Z.opp (digits d)
      else if Ascii.eqb c "+" then digits d
      else digits (String c d)
  end.

(** [QString::toInt()]: base 10, and 0 when the conversion fails or the
    value does not fit an [int]. *)
Definition toInt (s : string) : Z :=
  match stringToLongLong s with
  | Some n => if (INT_MIN <=? n) && (n <=? INT_MAX) then n else 0
  | None => 0
  end.

(** [QString::number(n)]: the decimal rendering of [n]. *)
Definition number (n : Z) : string := NilZero.string_of_int (Z.to_int n).

(** Every character of [s] satisfies [P]. *)
Fixpoint allChars (P : ascii -> bool) (s : string) : bool :=
  match s with
  | EmptyString => true
  | String c s' => P c && allChars P s'
  end.

(** A decimal digit. *)
Definition isDigit (c : ascii) : bool :=
  let n := N_of_ascii c in ((48 <=? n) && (n <=? 57))%N.

(** The characters [number] produces. *)
Definition numChar (c : ascii) : bool := isDigit c || Ascii.eqb c "-".

End QStr.

(** ** Build configuration: the preprocessor symbols [main.cpp] tests *)

Record Build := {
  DISABLE_GUI : bool;
  Q_OS_WIN : bool;
  Q_OS_MAC : bool;
  Q_OS_UNIX : bool;
  Q_OS_HAIKU : bool;
  STACKTRACE_WIN : bool
}.

(** ** The preferences store, as far as this file reads and writes it *)

Module Preferences.

Record t := {
  webUiPort : Z;
  acceptedLegal : bool;
  splashScreenDisabled : bool
}.

Definition getWebUiPort (p : t) : Z := webUiPort p.
Definition getAcceptedLegal (p : t) : bool := acceptedLegal p.
Definition isSplashScreenDisabled (p : t) : bool := splashScreenDisabled p.

Definition setWebUiPort (n : Z) (p : t) : t :=
  {| webUiPort := n;
     acceptedLegal := acceptedLegal p;
     splashScreenDisabled := splashScreenDisabled p |}.

Definition setAcceptedLegal (b : bool) (p : t) : t :=
  {| webUiPort := webUiPort p;
     acceptedLegal := b;
     splashScreenDisabled := splashScreenDisabled p |}.

End Preferences.

(** ** The command line *)

Record QBtCommandLineParameters := {
  showHelp : bool;
  showVersion : bool;      (* only read when [Q_OS_WIN] is off *)
  noSplash : bool;         (* only read when [DISABLE_GUI] is off *)
  shouldDaemonize : bool;  (* only read when [DISABLE_GUI] is on *)
  webUiPort : Z;
  torrents : list string;
  unknownParameter : string
}.

Definition set_showHelp (r : QBtCommandLineParameters) (b : bool) :=
  {| showHelp := b; showVersion := showVersion r; noSplash := noSplash r;
     shouldDaemonize := shouldDaemonize r; webUiPort := webUiPort r;
     torrents := torrents r; unknownParameter := unknownParameter r |}.

Definition set_showVersion (r : QBtCommandLineParameters) (b : bool) :=
  {| showHelp := showHelp r; showVersion := b; noSplash := noSplash r;
     shouldDaemonize := shouldDaemonize r; webUiPort := webUiPort r;
     torrents := torrents r; unknownParameter := unknownParameter r |}.

Definition set_noSplash (r : QBtCommandLineParameters) (b : bool) :=
  {| showHelp := showHelp r; showVersion := showVersion r; noSplash := b;
     shouldDaemonize := shouldDaemonize r; webUiPort := webUiPort r;
     torrents := torrents r; unknownParameter := unknownParameter r |}.

Definition set_shouldDaemonize (r : QBtCommandLineParameters) (b : bool) :=
  {| showHelp := showHelp r; showVersion := showVersion r; noSplash := noSplash r;
     shouldDaemonize := b; webUiPort := webUiPort r;
     torrents := torrents r; unknownParameter := unknownParameter r |}.

Definition set_webUiPort (r : QBtCommandLineParameters) (n : Z) :=
  {| showHelp := showHelp r; showVersion := showVersion r; noSplash := noSplash r;
     shouldDaemonize := shouldDaemonize r; webUiPort := n;
     torrents := torrents r; unknownParameter := unknownParameter r |}.

Definition add_torrent (r : QBtCommandLineParameters) (t : string) :=
  {| showHelp := showHelp r; showVersion := showVersion r; noSplash := noSplash r;
     shouldDaemonize := shouldDaemonize r; webUiPort := webUiPort r;
     torrents := torrents r ++ [t]; unknownParameter := unknownParameter r |}.

Definition set_unknownParameter (r : QBtCommandLineParameters) (a : string) :=
  {| showHelp := showHelp r; showVersion := showVersion r; noSplash := noSplash r;
     shouldDaemonize := shouldDaemonize r; webUiPort := webUiPort r;
     torrents := torrents r; unknownParameter := a |}.

(** The file system as [QFileInfo] sees it. *)
Record FileSystem := {
  exists_ : string -> bool;
  absoluteFilePath : string -> string
}.

Section CommandLine.

Variable build : Build.
Variable pref : Preferences.t.
Variable fs : FileSystem.

(** The constructor of [QBtCommandLineParameters]. *)
Definition QBtCommandLineParameters_init : QBtCommandLineParameters :=
  {| showHelp := false;
     showVersion := false;
     noSplash := if DISABLE_GUI build then false
                 else Preferences.isSplashScreenDisabled pref;
     shouldDaemonize := false;
     webUiPort := Preferences.getWebUiPort pref;
     torrents := [];
     unknownParameter := "" |}.

(** The test that opens the loop body: is the token an option? *)
Definition looksLikeFlag (arg : string) : bool :=
  (QStr.startsWith arg "--" && negb (QStr.endsWith arg ".torrent"))
  || (QStr.startsWith arg "-" && (QStr.size arg =? 2)).

Definition isHelp (arg : string) : bool :=
  String.eqb arg "-h" || String.eqb arg "--help".

Definition isVersion (arg : string) : bool :=
  negb (Q_OS_WIN build) && (String.eqb arg "-v" || String.eqb arg "--version").

Definition isWebUiPort (arg : string) : bool :=
  QStr.startsWith arg "--webui-port=".

Definition isNoSplash (arg : string) : bool :=
  negb (DISABLE_GUI build) && String.eqb arg "--no-splash".

Definition isDaemon (arg : string) : bool :=
  DISABLE_GUI build && (String.eqb arg "-d" || String.eqb arg "--daemon").

(** The [for] loop of [parseCommandLine], from the token at hand onwards;
    the [break] of the unknown-argument branch ends the recursion. *)
Fixpoint parseLoop (result : QBtCommandLineParameters) (args : list string)
  : QBtCommandLineParameters :=
  match args with
  | [] => result
  | arg :: rest =>
      if looksLikeFlag arg then
        if isHelp arg then parseLoop (set_showHelp result true) rest
        else if isVersion arg then parseLoop (set_showVersion result true) rest
        else if isWebUiPort arg then
          let parts := QStr.split "=" arg in
          if (Z.of_nat (List.length parts) =? 2)
          then parseLoop (set_webUiPort result (QStr.toInt (List.last parts ""))) rest
          else parseLoop result rest
        else if isNoSplash arg then parseLoop (set_noSplash result true) rest
        else if isDaemon arg then parseLoop (set_shouldDaemonize result true) rest
        else set_unknownParameter result arg
      else
        if exists_ fs arg
        then parseLoop (add_torrent result (absoluteFilePath fs arg)) rest
        else parseLoop (add_torrent result arg) rest
  end.

(** [parseCommandLine], given what [qApp->arguments()] holds; the loop
    starts at index 1, after the program name. *)
Definition parseCommandLine (appArguments : list string) : QBtCommandLineParameters :=
  parseLoop QBtCommandLineParameters_init (List.tl appArguments).

End CommandLine.

(** ** Signals *)

Definition SIGINT : Z := 2.
Definition SIGABRT : Z := 6.
Definition SIGSEGV : Z := 11.
Definition SIGTERM : Z := 15.

Definition sysSigName : list string :=
  [ ""; "SIGHUP"; "SIGINT"; "SIGQUIT"; "SIGILL"; "SIGTRAP"; "SIGABRT"; "SIGBUS"; "SIGFPE"; "SIGKILL";
    "SIGUSR1"; "SIGSEGV"; "SIGUSR2"; "SIGPIPE"; "SIGALRM"; "SIGTERM"; "SIGSTKFLT"; "SIGCHLD"; "SIGCONT"; "SIGSTOP";
    "SIGTSTP"; "SIGTTIN"; "SIGTTOU"; "SIGURG"; "SIGXCPU"; "SIGXFSZ"; "SIGVTALRM"; "SIGPROF"; "SIGWINCH"; "SIGIO";
    "SIGPWR"; "SIGUNUSED" ].

Inductive Handler := SigNormal | SigAbnormal.

Inductive Disposition := SIG_DFL | Installed (h : Handler).

(** ** What the process does, as a trace *)

Inductive Message :=
| MsgUnknownParameter (p : string)
| MsgMustBeSingle (flag : string)
| MsgBadPort (flag : string)
| MsgAlreadyRunning (flag : string).

(** The text handed to [displayBadArgMessage]. *)
Definition Message_text (m : Message) : string :=
  match m with
  | MsgUnknownParameter p => p ++ " is an unknown command line parameter."
  | MsgMustBeSingle flag => flag ++ " must be the single command line parameter."
  | MsgBadPort flag => flag ++ " must specify the correct port (1 to 65535)."
  | MsgAlreadyRunning flag =>
      "You cannot use " ++ flag ++ ": qBittorrent is already running for this user."
  end.

Inductive Button := AgreeButton | CancelButton | NoButton.

Inductive Event :=
| EvMacMigratePlists
| EvMigrateRSS
| EvNewApplication (instance : nat) (appId : string)
| EvAppReset
| EvParseCommandLine
| EvDisplayBadArgMessage (m : Message)
| EvDisplayVersion
| EvDisplayUsage (prg_name : string)
| EvSetWebUiPort (n : Z)
| EvPutenv (name value : string)
| EvStderr (text : string)
| EvGetAcceptedLegal (accepted : bool)
| EvLegalNotice
| EvGetchar (c : option ascii)
| EvClickedButton (b : Button)
| EvSetAcceptedLegal (b : bool)
| EvIsRunning (instance : nat) (running : bool)
| EvDebug (text : string)
| EvMsleep (ms : Z)
| EvSendParams (params : list string)
| EvUpgrade (ask : option bool) (ok : bool)
| EvDaemon (result : Z)
| EvCritical (text : string)
| EvShowSplashScreen
| EvSignal (signum : Z) (d : Disposition)
| EvExec (params : list string)
| EvWrite (text : string)
| EvPrintStacktrace
| EvStraceDlg
| EvAppExit
| EvRaise (signum : Z)
| EvDefaultAction (signum : Z).

(** ** The collaborators, as the process observes them *)

Record Env := {
  QBT_VERSION : string;
  userIDString : string;
  arguments : list string -> list string;
  fileSystem : FileSystem;
  qputenv : string -> string -> bool;
  qgetenv : string -> string;
  isatty_stdin : bool;
  isatty_stdout : bool;
  getchar : option ascii;
  clickedButton : Button;
  isRunning : nat -> bool;
  upgrade : option bool -> bool;
  daemon : Z;
  exec : list string -> Z
}.

(** ** The state of the process *)

Record World := {
  prefs : Preferences.t;
  disposition : Z -> Disposition;
  instances : nat;
  trace : list Event
}.

Definition World_init (p : Preferences.t) : World :=
  {| prefs := p; disposition := fun _ => SIG_DFL; instances := 0%nat; trace := [] |}.

Definition EXIT_SUCCESS : Z := 0.
Definition EXIT_FAILURE : Z := 1.

(** Code that runs inside [main]: it either goes on with a value or leaves
    [main] through a [return] with an exit status. *)
Inductive Flow (A : Type) :=
| Next (a : A)
| Return (status : Z).
Arguments Next {A} a.
Arguments Return {A} status.

Definition Proc (A : Type) : Type := World -> Flow A * World.

Definition ret {A} (a : A) : Proc A := fun w => (Next a, w).

Definition bind {A B} (m : Proc A) (k : A -> Proc B) : Proc B :=
  fun w =>
    match m w with
    | (Next a, w') => k a w'
    | (Return st, w') => (Return st, w')
    end.

Definition return_ {A} (status : Z) : Proc A := fun w => (Return status, w).

Declare Scope proc_scope.
Delimit Scope proc_scope with proc.
Notation "x <- m ;; k" := (bind m (fun x => k))
  (at level 61, m at next level, right associativity) : proc_scope.
Notation "m ;; k" := (bind m (fun _ => k))
  (at level 61, right associativity) : proc_scope.

Definition emit (e : Event) : Proc unit :=
  fun w => (Next tt,
            {| prefs := prefs w; disposition := disposition w;
               instances := instances w; trace := trace w ++ [e] |}).

(** [Preferences::instance()]: the store as it is now. *)
Definition getPrefs : Proc Preferences.t := fun w => (Next (prefs w), w).

(** [pref->getAcceptedLegal()] *)
Definition pref_getAcceptedLegal : Proc bool :=
  fun w => (Next (Preferences.getAcceptedLegal (prefs w)),
            {| prefs := prefs w; disposition := disposition w;
               instances := instances w;
               trace := trace w ++ [EvGetAcceptedLegal (Preferences.getAcceptedLegal (prefs w))] |}).

(** [pref->setAcceptedLegal(b)] *)
Definition pref_setAcceptedLegal (b : bool) : Proc unit :=
  fun w => (Next tt,
            {| prefs := Preferences.setAcceptedLegal b (prefs w);
               disposition := disposition w;
               instances := instances w;
               trace := trace w ++ [EvSetAcceptedLegal b] |}).

(** [Preferences::instance()->setWebUiPort(n)] *)
Definition pref_setWebUiPort (n : Z) : Proc unit :=
  fun w => (Next tt,
            {| prefs := Preferences.setWebUiPort n (prefs w);
               disposition := disposition w;
               instances := instances w;
               trace := trace w ++ [EvSetWebUiPort n] |}).

Definition when (b : bool) (m : Proc unit) : Proc unit :=
  if b then m else ret tt.

(** [signal(signum, d)] *)
Definition signal (signum : Z) (d : Disposition) : Proc unit :=
  fun w => (Next tt,
            {| prefs := prefs w;
               disposition := fun s => if s =? signum then d else disposition w s;
               instances := instances w;
               trace := trace w ++ [EvSignal signum d] |}).

Section Program.

Variable build : Build.
Variable env : Env.

Local Open Scope proc_scope.

(** [new Application(appId, argc, argv)]: one more instance exists. *)
Definition newApplication (appId : string) : Proc unit :=
  fun w => (Next tt,
            {| prefs := prefs w; disposition := disposition w;
               instances := S (instances w);
               trace := trace w ++ [EvNewApplication (instances w) appId] |}).

(** [app->isRunning()] on the instance built last. *)
Definition app_isRunning : Proc bool :=
  fun w =>
    let i := Nat.pred (instances w) in
    let r := isRunning env i in
    (Next r,
     {| prefs := prefs w; disposition := disposition w;
        instances := instances w; trace := trace w ++ [EvIsRunning i r] |}).

Definition displayBadArgMessage (m : Message) : Proc unit :=
  emit (EvDisplayBadArgMessage m).

Definition isAffirmative (c : option ascii) : bool :=
  match c with
  | Some a => Ascii.eqb a "y" || Ascii.eqb a "Y"
  | None => false
  end.

Definition isAgree (b : Button) : bool :=
  match b with AgreeButton => true | _ => false end.

Definition userAgreesWithLegalNotice : Proc bool :=
  accepted <- pref_getAcceptedLegal ;;
  if accepted then ret true (* Already accepted once *)
  else
    emit EvLegalNotice ;;
    if DISABLE_GUI build then
      let c := getchar env in
      emit (EvGetchar c) ;;
      if isAffirmative c then
        pref_setAcceptedLegal true ;;
        ret true
      else ret false
    else
      let b := clickedButton env in
      emit (EvClickedButton b) ;;
      if isAgree b then
        pref_setAcceptedLegal true ;;
        ret true
      else ret false.

Definition have_signals : bool := Q_OS_UNIX build || STACKTRACE_WIN build.

Definition is_tty : bool := isatty_stdin env && isatty_stdout env.

(** The body of [main]; [argv] is the full vector, program name first. *)
Definition main_body (argv : list string) : Proc Z :=
  let isOneArg := (Z.of_nat (List.length argv) =? 2) in
  when (Q_OS_MAC build) (emit EvMacMigratePlists) ;;
  when (negb (DISABLE_GUI build)) (emit EvMigrateRSS) ;;
  let appId := "qBittorrent-" ++ userIDString env in
  newApplication appId ;;
  pref <- getPrefs ;;
  emit EvParseCommandLine ;;
  let params := parseCommandLine build pref (fileSystem env) (arguments env argv) in
  (if negb (QStr.isEmpty (unknownParameter params)) then
     displayBadArgMessage (MsgUnknownParameter (unknownParameter params)) ;;
     return_ EXIT_FAILURE
   else ret tt) ;;
  (if negb (Q_OS_WIN build) && showVersion params then
     if isOneArg then emit EvDisplayVersion ;; return_ EXIT_SUCCESS
     else displayBadArgMessage (MsgMustBeSingle "-v (or --version)") ;;
          return_ EXIT_FAILURE
   else ret tt) ;;
  (if showHelp params then
     if isOneArg then emit (EvDisplayUsage (List.hd "" argv)) ;; return_ EXIT_SUCCESS
     else displayBadArgMessage (MsgMustBeSingle "-h (or --help)") ;;
          return_ EXIT_FAILURE
   else ret tt) ;;
  (if (webUiPort params >? 0) && (webUiPort params <=? 65535) then
     pref_setWebUiPort (webUiPort params)
   else
     displayBadArgMessage (MsgBadPort "--webui-port") ;;
     return_ EXIT_FAILURE) ;;
  emit (EvPutenv "QBITTORRENT" (QBT_VERSION env)) ;;
  when (negb (qputenv env "QBITTORRENT" (QBT_VERSION env)))
       (emit (EvStderr "Couldn't set environment variable...
")) ;;
  (if DISABLE_GUI build then
     if negb (shouldDaemonize params) && isatty_stdin env && isatty_stdout env then
       agrees <- userAgreesWithLegalNotice ;;
       if negb agrees then return_ EXIT_SUCCESS else ret tt
     else ret tt
   else
     agrees <- userAgreesWithLegalNotice ;;
     if negb agrees then return_ EXIT_SUCCESS else ret tt) ;;
  running <- app_isRunning ;;
  (if running then
     (if DISABLE_GUI build then
        if shouldDaemonize params then
          displayBadArgMessage (MsgAlreadyRunning "-d (or --daemon)") ;;
          return_ EXIT_FAILURE
        else emit (EvDebug "qBittorrent is already running for this user.")
      else emit (EvDebug "qBittorrent is already running for this user.")) ;;
     emit (EvMsleep 300) ;;
     emit (EvSendParams (torrents params)) ;;
     return_ EXIT_SUCCESS
   else ret tt) ;;
  when (Q_OS_WIN build) (emit (EvPutenv "QT_BEARER_POLL_TIMEOUT" "-1")) ;;
  when (Q_OS_MAC build)
       (emit (EvPutenv "PATH" ("/usr/local/bin:" ++ qgetenv env "PATH"))) ;;
  (if DISABLE_GUI build then
     let ask := negb (shouldDaemonize params) && isatty_stdin env && isatty_stdout env in
     emit (EvUpgrade (Some ask) (upgrade env (Some ask))) ;;
     if negb (upgrade env (Some ask)) then return_ EXIT_FAILURE else ret tt
   else
     emit (EvUpgrade None (upgrade env None)) ;;
     if negb (upgrade env None) then return_ EXIT_FAILURE else ret tt) ;;
  (if DISABLE_GUI build then
     if shouldDaemonize params then
       emit EvAppReset ;;
       emit (EvDaemon (daemon env)) ;;
       if daemon env =? 0 then
         newApplication appId ;;
         running' <- app_isRunning ;;
         if running' then return_ EXIT_FAILURE else ret tt
       else
         emit (EvCritical "Something went wrong while daemonizing, exiting...") ;;
         return_ EXIT_FAILURE
     else ret tt
   else
     when (negb (noSplash params)) (emit EvShowSplashScreen)) ;;
  when have_signals
       (signal SIGINT (Installed SigNormal) ;;
        signal SIGTERM (Installed SigNormal) ;;
        signal SIGABRT (Installed SigAbnormal) ;;
        signal SIGSEGV (Installed SigAbnormal)) ;;
  emit (EvExec (torrents params)) ;;
  ret (exec env (torrents params)).

(** [main]: the exit status and the world the process leaves behind. *)
Definition main (argv : list string) (pref0 : Preferences.t) : Z * World :=
  match main_body argv (World_init pref0) with
  | (Next status, w) => (status, w)
  | (Return status, w) => (status, w)
  end.

(** *** The signal handlers

    [raise] is the delivery of a signal to the process itself; the handlers
    take it as an argument, and [deliver] below ties the knot. *)

Definition writes_notice : bool := negb (Q_OS_WIN build) && negb (Q_OS_HAIKU build).

(** The texts the handlers write, under the names they have there.
    [sysSigName[signum]] is defined for the 32 indices of the table; for any
    other index, where the C++ reads outside the array, [sigName] is the
    empty string, and no statement below relies on that value. *)
Definition sigName (signum : Z) : string := List.nth (Z.to_nat signum) sysSigName "".

Definition sigNormalHandler_str1 : string := "Catching signal: ".
Definition sigNormalHandler_str2 : string := "
Exiting cleanly
".
Definition sigAbnormalHandler_str1 : string := "

*************************************************************
Catching signal: ".
Definition sigAbnormalHandler_str2 : string := "
Please file a bug report at http://bug.qbittorrent.org and provide the following information:

qBittorrent version: " ++ QBT_VERSION env ++ "
".

Definition sigNormalHandler (signum : Z) : Proc unit :=
  when writes_notice
       (emit (EvWrite sigNormalHandler_str1) ;;
        emit (EvWrite (sigName signum)) ;;
        emit (EvWrite sigNormalHandler_str2)) ;;
  signal signum SIG_DFL ;;
  emit EvAppExit.

Definition sigAbnormalHandler (raise : Z -> Proc unit) (signum : Z) : Proc unit :=
  when writes_notice
       (emit (EvWrite sigAbnormalHandler_str1) ;;
        emit (EvWrite (sigName signum)) ;;
        emit (EvWrite sigAbnormalHandler_str2) ;;
        emit EvPrintStacktrace) ;;
  when (STACKTRACE_WIN build) (emit EvStraceDlg) ;;
  signal signum SIG_DFL ;;
  raise signum.

(** Delivery of [signum] to the process: the disposition in force decides.
    [fuel] bounds the nesting of deliveries raised from within handlers;
    [None] is an exhausted bound. *)
Fixpoint deliver (fuel : nat) (signum : Z) (w : World) : option World :=
  match fuel with
  | O => None
  | S fuel' =>
      match disposition w signum with
      | SIG_DFL => Some (snd (emit (EvDefaultAction signum) w))
      | Installed SigNormal => Some (snd (sigNormalHandler signum w))
      | Installed SigAbnormal =>
          let raise := fun s w0 =>
            match deliver fuel' s (snd (emit (EvRaise s) w0)) with
            | Some w1 => (Next tt, w1)
            | None => (Return EXIT_FAILURE, w0)
            end in
          match sigAbnormalHandler raise signum w with
          | (Next _, w1) => Some w1
          | (Return _, _) => None
          end
      end
  end.

End Program.

(** ** The usage text

    [makeUsage] builds the text that [displayUsage] prints.  Two more
    [QString] operations come with it. *)

Module QStrText.

(** [QString::contains(const QString &)]: [p] occurs in [s]. *)
Fixpoint containsStr (s p : string) : bool :=
  String.prefix p s ||
  match s with
  | EmptyString => false
  | String _ s' => containsStr s' p
  end.

(** The value of a decimal digit, as [QChar::digitValue]. *)
Definition digitValue (c : ascii) : option nat :=
  if QStr.isDigit c then Some (nat_of_ascii c - 48)%nat else None.

(** A string cut at its place markers: plain text, and markers [%n],
    [%nn], [%Ln], [%Lnn] with their number and their own text. *)
Inductive Piece :=
| PText (text : string)
| PMarker (number : nat) (text : string).

(** Where the scan for markers stands: in plain text, after a [%] (and
    possibly an [L]), or after the first digit of a marker. *)
Inductive Scan :=
| Plain
| AfterPercent (seenL : bool) (text : string)
| AfterDigit (number : nat) (text : string).

Definition char (c : ascii) : string := String c EmptyString.

Fixpoint pieces (st : Scan) (s : string) : list Piece :=
  match s with
  | EmptyString =>
      match st with
      | Plain => []
      | AfterPercent _ text => [PText text]
      | AfterDigit n text => [PMarker n text]
      end
  | String c s' =>
      let plain :=
        if Ascii.eqb c "%" then pieces (AfterPercent false (char c)) s'
        else PText (char c) :: pieces Plain s' in
      match st with
      | Plain => plain
      | AfterPercent seenL text =>
          match digitValue c with
          | Some d => pieces (AfterDigit d (text ++ char c)) s'
          | None =>
              if negb seenL && Ascii.eqb c "L"
              then pieces (AfterPercent true (text ++ char c)) s'
              else PText text :: plain
          end
      | AfterDigit n text =>
          match digitValue c with
          | Some d => PMarker (10 * n + d) (text ++ char c) :: pieces Plain s'
          | None => PMarker n text :: plain
          end
      end
  end.

(** The lowest marker number, if there is a marker. *)
Fixpoint lowest (ps : list Piece) : option nat :=
  match ps with
  | [] => None
  | PText _ :: ps' => lowest ps'
  | PMarker n _ :: ps' =>
      match lowest ps' with
      | Some m => Some (Nat.min n m)
      | None => Some n
      end
  end.

Fixpoint fill (n : nat) (a : string) (ps : list Piece) : string :=
  match ps with
  | [] => ""
  | PText t :: ps' => t ++ fill n a ps'
  | PMarker m t :: ps' => (if Nat.eqb m n then a else t) ++ fill n a ps'
  end.

(** [QString::arg(const QString &a)]: every occurrence of the marker with
    the lowest number is replaced by [a]; without a marker the string is
    returned as it is. *)
Definition arg (s a : string) : string :=
  match lowest (pieces Plain s) with
  | Some n => fill n a (pieces Plain s)
  | None => s
  end.

End QStrText.

(** [QObject::tr]: the source text, as without a translation. *)
Definition tr (s : string) : string := s.

Definition LF : string := String "010"%char EmptyString.
Definition TAB : string := String "009"%char EmptyString.

Definition makeUsage (build : Build) (pref : Preferences.t) (prg_name : string) : string :=
  let text := "" in
  let text := text ++ tr "Usage:" ++ LF in
  let text := if Q_OS_WIN build then text
              else text ++ TAB ++ prg_name ++ " (-v | --version)" ++ LF in
  let text := text ++ TAB ++ prg_name ++ " (-h | --help)" ++ LF in
  let text := text ++ TAB ++ prg_name
                ++ " [--webui-port=<port>]"
                ++ (if DISABLE_GUI build then " [-d | --daemon]" else " [--no-splash]")
                ++ "[(<filename> | <url>)...]" ++ LF in
  let text := text ++ tr "Options:" ++ LF in
  let text := if Q_OS_WIN build then text
              else text ++ (TAB ++ "-v | --version" ++ TAB ++ TAB)
                     ++ tr "Displays program version" ++ LF in
  let text := text ++ (TAB ++ "-h | --help" ++ TAB ++ TAB)
                ++ tr "Displays this help message" ++ LF in
  let text := text ++ (TAB ++ "--webui-port=<port>" ++ TAB)
                ++ QStrText.arg (tr "Changes the Web UI port (current: %1)")
                                (QStr.number (Preferences.getWebUiPort pref))
                ++ LF in
  let text := if DISABLE_GUI build
              then text ++ (TAB ++ "-d | --daemon" ++ TAB ++ TAB)
                     ++ tr "Run in daemon-mode (background)" ++ LF
              else text ++ (TAB ++ "--no-splash" ++ TAB ++ TAB)
                     ++ tr "Disable splash screen" ++ LF in
  let text := text ++ (TAB ++ "files or urls" ++ TAB ++ TAB)
                ++ tr "Downloads the torrents passed by the user" in
  text.

(** * Notions for the statements

    The definitions below do not model code: they name what the properties
    are about. *)

(** ** Tokens of the command line *)

Inductive TokenKind :=
| KHelp | KVersion | KWebUiPort | KNoSplash | KDaemon | KUnknown | KTorrent.

Section TokenKinds.

Variable build : Build.

(** The branch of the loop body a token takes. *)
Definition classify (arg : string) : TokenKind :=
  if looksLikeFlag arg then
    if isHelp arg then KHelp
    else if isVersion build arg then KVersion
    else if isWebUiPort arg then KWebUiPort
    else if isNoSplash build arg then KNoSplash
    else if isDaemon build arg then KDaemon
    else KUnknown
  else KTorrent.

(** Parsing goes on after the token. *)
Definition passes (arg : string) : bool :=
  match classify arg with KUnknown => false | _ => true end.

(** Parsing goes on, and neither help nor version is requested. *)
Definition ordinary (arg : string) : bool :=
  match classify arg with KUnknown | KHelp | KVersion => false | _ => true end.

(** As [ordinary], and the token is no port option either. *)
Definition neutral (arg : string) : bool :=
  match classify arg with KTorrent | KNoSplash | KDaemon => true | _ => false end.

End TokenKinds.

(** The port option with value [v]. *)
Definition portToken (v : string) : string := "--webui-port=" ++ v.

(** ** The lifecycle as a sequence of steps

    [main] is one function; its trace is cut here into the steps of the
    lifecycle, each with the events it emits and, when it ends the run, the
    exit status.  [main_steps] below shows that running the steps in the
    order of the code is what [main] does. *)

(** What every run does before it looks at the parsed request. *)
Definition prelude (build : Build) (env : Env) : list Event :=
  (if Q_OS_MAC build then [EvMacMigratePlists] else []) ++
  (if negb (DISABLE_GUI build) then [EvMigrateRSS] else []) ++
  [EvNewApplication 0 ("qBittorrent-" ++ userIDString env); EvParseCommandLine].

Inductive Step :=
| ParseArgs
| CheckSingleton
| Consent
| RunMigrations
| Daemonize
| ReacquireSingleton
| InstallSignalHandlers
| StartEngine.

(** The order in which [main] goes through the steps. *)
Definition code_order : list Step :=
  [ParseArgs; Consent; CheckSingleton; RunMigrations; Daemonize;
   ReacquireSingleton; InstallSignalHandlers; StartEngine].

(** The place of a step in the order of the code. *)
Definition code_position (s : Step) : nat :=
  match s with
  | ParseArgs => 0
  | Consent => 1
  | CheckSingleton => 2
  | RunMigrations => 3
  | Daemonize => 4
  | ReacquireSingleton => 5
  | InstallSignalHandlers => 6
  | StartEngine => 7
  end.

(** The place of a step in the order the specification gives:
    the singleton check before the consent step. *)
Definition spec_position (s : Step) : nat :=
  match s with
  | ParseArgs => 0
  | CheckSingleton => 1
  | Consent => 2
  | RunMigrations => 3
  | Daemonize => 4
  | ReacquireSingleton => 5
  | InstallSignalHandlers => 6
  | StartEngine => 7
  end.

(** The step an event belongs to. *)
Definition step_of (e : Event) : Step :=
  match e with
  | EvMacMigratePlists | EvMigrateRSS | EvParseCommandLine
  | EvDisplayVersion | EvDisplayUsage _ | EvSetWebUiPort _ | EvStderr _ => ParseArgs
  | EvNewApplication O _ => ParseArgs
  | EvNewApplication (S _) _ => ReacquireSingleton
  | EvDisplayBadArgMessage (MsgAlreadyRunning _) => CheckSingleton
  | EvDisplayBadArgMessage _ => ParseArgs
  | EvPutenv name _ => if String.eqb name "QBITTORRENT" then ParseArgs else RunMigrations
  | EvGetAcceptedLegal _ | EvLegalNotice | EvGetchar _ | EvClickedButton _
  | EvSetAcceptedLegal _ => Consent
  | EvIsRunning O _ => CheckSingleton
  | EvIsRunning (S _) _ => ReacquireSingleton
  | EvDebug _ | EvMsleep _ | EvSendParams _ => CheckSingleton
  | EvUpgrade _ _ => RunMigrations
  | EvAppReset | EvDaemon _ | EvCritical _ | EvShowSplashScreen => Daemonize
  | EvSignal _ _ => InstallSignalHandlers
  | EvExec _ | EvWrite _ | EvPrintStacktrace | EvStraceDlg | EvAppExit
  | EvRaise _ | EvDefaultAction _ => StartEngine
  end.

(** The event reports that its step did not complete successfully, or that
    the run ends with it. *)
Definition stops (e : Event) : bool :=
  match e with
  | EvDisplayBadArgMessage _ | EvDisplayVersion | EvDisplayUsage _ => true
  | EvGetchar c => negb (isAffirmative c)
  | EvClickedButton b => negb (isAgree b)
  | EvIsRunning _ running => running
  | EvUpgrade _ ok => negb ok
  | EvDaemon result => negb (result =? 0)
  | _ => false
  end.

(** Steps are run in turn until one of them ends the run. *)
Fixpoint play (phases : list (list Event * option Z)) : option Z * list Event :=
  match phases with
  | [] => (None, [])
  | (evs, Some st) :: _ => (Some st, evs)
  | (evs, None) :: rest => let (st, tr) := play rest in (st, evs ++ tr)%list
  end.

Definition Step_eqb (a b : Step) : bool :=
  match a, b with
  | ParseArgs, ParseArgs | CheckSingleton, CheckSingleton | Consent, Consent
  | RunMigrations, RunMigrations | Daemonize, Daemonize
  | ReacquireSingleton, ReacquireSingleton
  | InstallSignalHandlers, InstallSignalHandlers | StartEngine, StartEngine => true
  | _, _ => false
  end.

Definition is_none {A} (o : option A) : bool :=
  match o with None => true | Some _ => false end.

Section Steps.

Variable build : Build.
Variable env : Env.
Variable argv : list string.
Variable pref0 : Preferences.t.

Let params := parseCommandLine build pref0 (fileSystem env) (arguments env argv).

Definition isOneArg : bool := Z.of_nat (List.length argv) =? 2.

Definition daemonizing : bool := DISABLE_GUI build && shouldDaemonize params.

(** Is the legal-notice gate consulted at all? *)
Definition gate_consulted : bool :=
  if DISABLE_GUI build
  then negb (shouldDaemonize params) && isatty_stdin env && isatty_stdout env
  else true.

(** The answer to the notice, and whether it is the affirmative one. *)
Definition answer : Event :=
  if DISABLE_GUI build then EvGetchar (getchar env)
  else EvClickedButton (clickedButton env).

Definition affirmed : bool :=
  if DISABLE_GUI build then isAffirmative (getchar env)
  else isAgree (clickedButton env).

Definition upgrade_ask : option bool :=
  if DISABLE_GUI build
  then Some (negb (shouldDaemonize params) && isatty_stdin env && isatty_stdout env)
  else None.

Definition step_run (s : Step) : list Event * option Z :=
  match s with
  | ParseArgs =>
      if negb (QStr.isEmpty (unknownParameter params)) then
        (prelude build env ++
           [EvDisplayBadArgMessage (MsgUnknownParameter (unknownParameter params))],
         Some EXIT_FAILURE)
      else if negb (Q_OS_WIN build) && showVersion params then
        if isOneArg then (prelude build env ++ [EvDisplayVersion], Some EXIT_SUCCESS)
        else (prelude build env ++
                [EvDisplayBadArgMessage (MsgMustBeSingle "-v (or --version)")],
              Some EXIT_FAILURE)
      else if showHelp params then
        if isOneArg
        then (prelude build env ++ [EvDisplayUsage (List.hd "" argv)], Some EXIT_SUCCESS)
        else (prelude build env ++
                [EvDisplayBadArgMessage (MsgMustBeSingle "-h (or --help)")],
              Some EXIT_FAILURE)
      else if (webUiPort params >? 0) && (webUiPort params <=? 65535) then
        (prelude build env ++
           [EvSetWebUiPort (webUiPort params); EvPutenv "QBITTORRENT" (QBT_VERSION env)] ++
           (if negb (qputenv env "QBITTORRENT" (QBT_VERSION env))
            then [EvStderr "Couldn't set environment variable...
"] else []),
         None)
      else
        (prelude build env ++ [EvDisplayBadArgMessage (MsgBadPort "--webui-port")],
         Some EXIT_FAILURE)
  | Consent =>
      if gate_consulted then
        if Preferences.getAcceptedLegal pref0 then ([EvGetAcceptedLegal true], None)
        else if affirmed
             then ([EvGetAcceptedLegal false; EvLegalNotice; answer; EvSetAcceptedLegal true],
                   None)
             else ([EvGetAcceptedLegal false; EvLegalNotice; answer], Some EXIT_SUCCESS)
      else ([], None)
  | CheckSingleton =>
      if isRunning env 0 then
        if daemonizing
        then ([EvIsRunning 0 true;
               EvDisplayBadArgMessage (MsgAlreadyRunning "-d (or --daemon)")],
              Some EXIT_FAILURE)
        else ([EvIsRunning 0 true;
               EvDebug "qBittorrent is already running for this user.";
               EvMsleep 300; EvSendParams (torrents params)],
              Some EXIT_SUCCESS)
      else ([EvIsRunning 0 false], None)
  | RunMigrations =>
      ((if Q_OS_WIN build then [EvPutenv "QT_BEARER_POLL_TIMEOUT" "-1"] else []) ++
       (if Q_OS_MAC build
        then [EvPutenv "PATH" ("/usr/local/bin:" ++ qgetenv env "PATH")] else []) ++
       [EvUpgrade upgrade_ask (upgrade env upgrade_ask)],
       if upgrade env upgrade_ask then None else Some EXIT_FAILURE)
  | Daemonize =>
      if DISABLE_GUI build then
        if shouldDaemonize params then
          if daemon env =? 0 then ([EvAppReset; EvDaemon (daemon env)], None)
          else ([EvAppReset; EvDaemon (daemon env);
                 EvCritical "Something went wrong while daemonizing, exiting..."],
                Some EXIT_FAILURE)
        else ([], None)
      else ((if negb (noSplash params) then [EvShowSplashScreen] else []), None)
  | ReacquireSingleton =>
      if daemonizing then
        ([EvNewApplication 1 ("qBittorrent-" ++ userIDString env);
          EvIsRunning 1 (isRunning env 1)],
         if isRunning env 1 then Some EXIT_FAILURE else None)
      else ([], None)
  | InstallSignalHandlers =>
      ((if have_signals build
        then [EvSignal SIGINT (Installed SigNormal);
              EvSignal SIGTERM (Installed SigNormal);
              EvSignal SIGABRT (Installed SigAbnormal);
              EvSignal SIGSEGV (Installed SigAbnormal)]
        else []),
       None)
  | StartEngine =>
      ([EvExec (torrents params)], Some (exec env (torrents params)))
  end%list.

End Steps.

Section Reached.

Variable build : Build.
Variable env : Env.
Variable argv : list string.
Variable pref0 : Preferences.t.

Definition events (s : Step) : list Event := fst (step_run build env argv pref0 s).
Definition exit_of (s : Step) : option Z := snd (step_run build env argv pref0 s).

(** The steps of [ss] that come before [s]. *)
Fixpoint before_in (ss : list Step) (s : Step) : list Step :=
  match ss with
  | [] => []
  | x :: rest => if Step_eqb x s then [] else x :: before_in rest s
  end.

(** No step before [s] has ended the run. *)
Definition reached_in (ss : list Step) (s : Step) : bool :=
  forallb (fun x => is_none (exit_of x)) (before_in ss s).

Definition before : Step -> list Step := before_in code_order.
Definition reached : Step -> bool := reached_in code_order.

End Reached.

(** The trace goes through the steps in the order [pos] gives them: no
    event of a later step precedes an event of an earlier one. *)
Definition in_order (pos : Step -> nat) (tr : list Event) : Prop :=
  StronglySorted (fun e1 e2 => (pos (step_of e1) <= pos (step_of e2))%nat) tr.

(** Once an event reports that a step failed or ended the run, no later
    step begins. *)
Definition short_circuits (tr : list Event) : Prop :=
  forall l1 e l2, tr = (l1 ++ e :: l2)%list -> stops e = true ->
                  Forall (fun e' => step_of e' = step_of e) l2.

(** ** The state a trace describes *)

(** The state a trace leaves behind: the preferences written and the
    dispositions installed. *)
Fixpoint replay_prefs (tr : list Event) (p : Preferences.t) : Preferences.t :=
  match tr with
  | [] => p
  | EvSetWebUiPort n :: tr' => replay_prefs tr' (Preferences.setWebUiPort n p)
  | EvSetAcceptedLegal b :: tr' => replay_prefs tr' (Preferences.setAcceptedLegal b p)
  | _ :: tr' => replay_prefs tr' p
  end.

Fixpoint replay_signals (tr : list Event) (d : Z -> Disposition) : Z -> Disposition :=
  match tr with
  | [] => d
  | EvSignal signum h :: tr' =>
      replay_signals tr' (fun s => if s =? signum then h else d s)
  | _ :: tr' => replay_signals tr' d
  end.

(** An event that writes neither a preference nor a disposition. *)
Definition silent (e : Event) : bool :=
  match e with
  | EvSetWebUiPort _ | EvSetAcceptedLegal _ | EvSignal _ _ => false
  | _ => true
  end.

(** The events that write a preference or a disposition. *)
Definition writes (tr : list Event) : list Event :=
  List.filter (fun e => negb (silent e)) tr.


Definition installs : list Event :=
  [EvSignal SIGINT (Installed SigNormal);
   EvSignal SIGTERM (Installed SigNormal);
   EvSignal SIGABRT (Installed SigAbnormal);
   EvSignal SIGSEGV (Installed SigAbnormal)].

Section Explained.

Variable pref0 : Preferences.t.

Definition explained (w : World) : Prop :=
  prefs w = replay_prefs (trace w) pref0 /\
  forall s, disposition w s = replay_signals (trace w) (fun _ => SIG_DFL) s.

Definition keeps {A} (m : Proc A) : Prop :=
  forall w, explained w -> explained (snd (m w)).

End Explained.

Section StepWrites.

Variable build : Build.
Variable env : Env.
Variable argv : list string.
Variable pref0 : Preferences.t.

Let params := parseCommandLine build pref0 (fileSystem env) (arguments env argv).

(** The notice is shown and affirmed. *)
Definition consent_given : bool :=
  gate_consulted build env argv pref0 &&
  negb (Preferences.getAcceptedLegal pref0) &&
  affirmed build env.

Definition step_writes (s : Step) : list Event :=
  match s with
  | ParseArgs =>
      if is_none (exit_of build env argv pref0 ParseArgs) then [EvSetWebUiPort (webUiPort params)] else []
  | Consent => if consent_given then [EvSetAcceptedLegal true] else []
  | InstallSignalHandlers => if have_signals build then installs else []
  | _ => []
  end.

End StepWrites.

(** The run ends at the port check: message, failure, nothing written. *)
Definition bad_port_exit (build : Build) (env : Env) (argv : list string)
           (pref0 : Preferences.t) : Prop :=
  fst (main build env argv pref0) = EXIT_FAILURE /\
  trace (snd (main build env argv pref0)) =
    (prelude build env ++ [EvDisplayBadArgMessage (MsgBadPort "--webui-port")])%list /\
  prefs (snd (main build env argv pref0)) = pref0.

(** ** Signals and handlers *)

(** What a handler writes for the user: notices, the stack trace, the
    crash dialog. *)
Definition diagnostic (e : Event) : bool :=
  match e with
  | EvWrite _ | EvPrintStacktrace | EvStraceDlg => true
  | _ => false
  end.

(** The signals [main] gives to [sigAbnormalHandler]. *)
Definition abnormal (signum : Z) : bool := (signum =? SIGABRT) || (signum =? SIGSEGV).

(** The world after a handler has run: the disposition of [signum] is the
    default one again, and [evs] has been added to the trace. *)
Definition handled (signum : Z) (evs : list Event) (w : World) : World :=
  {| prefs := prefs w;
     disposition := fun s => if s =? signum then SIG_DFL else disposition w s;
     instances := instances w;
     trace := trace w ++ evs |}.

Section Notices.

Variable build : Build.
Variable env : Env.

(** What the normal handler writes before it acts. *)
Definition normal_notice (signum : Z) : list Event :=
  if writes_notice build
  then [EvWrite sigNormalHandler_str1; EvWrite (sigName signum);
        EvWrite sigNormalHandler_str2]
  else [].

(** What the abnormal handler writes and shows before it acts. *)
Definition abnormal_notice (signum : Z) : list Event :=
  (if writes_notice build
   then [EvWrite sigAbnormalHandler_str1; EvWrite (sigName signum);
         EvWrite (sigAbnormalHandler_str2 env); EvPrintStacktrace]
   else []) ++
  (if STACKTRACE_WIN build then [EvStraceDlg] else []).

End Notices.

(** ** The request in closed form *)

(** What [parseCommandLine] adds to [torrents] for a token that is no
    option: the absolute path of an existing file, else the token itself. *)
Definition torrentPath (fs : FileSystem) (arg : string) : string :=
  if exists_ fs arg then absoluteFilePath fs arg else arg.

(** The tokens the loop gets through: all of them up to the first one it
    breaks at. *)
Fixpoint parsed (build : Build) (args : list string) : list string :=
  match args with
  | [] => []
  | a :: rest => if passes build a then a :: parsed build rest else []
  end.

(** The tokens from the one the loop breaks at onwards. *)
Fixpoint unparsed (build : Build) (args : list string) : list string :=
  match args with
  | [] => []
  | a :: rest => if passes build a then unparsed build rest else args
  end.

(** ** How a run ends *)

(** The last event of a run that does not start the engine, and the exit
    status that goes with it. *)
Definition ending (e : Event) (status : Z) : Prop :=
  match e with
  | EvDisplayVersion | EvDisplayUsage _ | EvSendParams _ => status = EXIT_SUCCESS
  | EvGetchar c => isAffirmative c = false /\ status = EXIT_SUCCESS
  | EvClickedButton b => isAgree b = false /\ status = EXIT_SUCCESS
  | EvDisplayBadArgMessage _ | EvCritical _ => status = EXIT_FAILURE
  | EvUpgrade _ ok => ok = false /\ status = EXIT_FAILURE
  | EvIsRunning i running => i = 1%nat /\ running = true /\ status = EXIT_FAILURE
  | _ => False
  end.

(** ** Changing one collaborator *)

(** The environment [env] with [f] for [qputenv]. *)
Definition with_qputenv (f : string -> string -> bool) (env : Env) : Env :=
  {| QBT_VERSION := QBT_VERSION env;
     userIDString := userIDString env;
     arguments := arguments env;
     fileSystem := fileSystem env;
     qputenv := f;
     qgetenv := qgetenv env;
     isatty_stdin := isatty_stdin env;
     isatty_stdout := isatty_stdout env;
     getchar := getchar env;
     clickedButton := clickedButton env;
     isRunning := isRunning env;
     upgrade := upgrade env;
     daemon := daemon env;
     exec := exec env |}.

(** Everything in a trace but what is written to [std::cerr]. *)
Definition without_stderr (tr : list Event) : list Event :=
  List.filter (fun e => match e with EvStderr _ => false | _ => true end) tr.

(** * Sample builds, environments and runs *)

Module Sample.

(** The GUI build for Unix. *)
Definition gui : Build :=
  {| DISABLE_GUI := false; Q_OS_WIN := false; Q_OS_MAC := false;
     Q_OS_UNIX := true; Q_OS_HAIKU := false; STACKTRACE_WIN := false |}.

(** The headless build ([qbittorrent-nox]) for Unix. *)
Definition nox : Build :=
  {| DISABLE_GUI := true; Q_OS_WIN := false; Q_OS_MAC := false;
     Q_OS_UNIX := true; Q_OS_HAIKU := false; STACKTRACE_WIN := false |}.

Definition fs : FileSystem :=
  {| exists_ := fun _ => false; absoluteFilePath := fun s => "/home/user/" ++ s |}.

(** A terminal user who agrees, no other instance, everything succeeds. *)
Definition env : Env :=
  {| QBT_VERSION := "v3.3.11";
     userIDString := "1000";
     arguments := fun argv => argv;
     fileSystem := fs;
     qputenv := fun _ _ => true;
     qgetenv := fun _ => "/usr/bin";
     isatty_stdin := true;
     isatty_stdout := true;
     getchar := Some "y"%char;
     clickedButton := AgreeButton;
     isRunning := fun _ => false;
     upgrade := fun _ => true;
     daemon := 0;
     exec := fun _ => 0 |}.

(** As [env], with everything that can be adjusted as a parameter. *)
Definition env_with (key : option ascii) (button : Button) (running : nat -> bool)
           (upgraded : bool) (detached : Z) : Env :=
  {| QBT_VERSION := "v3.3.11";
     userIDString := "1000";
     arguments := fun argv => argv;
     fileSystem := fs;
     qputenv := fun _ _ => true;
     qgetenv := fun _ => "/usr/bin";
     isatty_stdin := true;
     isatty_stdout := true;
     getchar := key;
     clickedButton := button;
     isRunning := running;
     upgrade := fun _ => upgraded;
     daemon := detached;
     exec := fun _ => 0 |}.

(** Stored preferences: port 8080, notice not yet accepted. *)
Definition fresh : Preferences.t :=
  {| Preferences.webUiPort := 8080;
     Preferences.acceptedLegal := false;
     Preferences.splashScreenDisabled := false |}.

(** Stored preferences: port 8080, notice accepted. *)
Definition accepted : Preferences.t :=
  {| Preferences.webUiPort := 8080;
     Preferences.acceptedLegal := true;
     Preferences.splashScreenDisabled := false |}.

(** Stored preferences with a port out of range. *)
Definition badport : Preferences.t :=
  {| Preferences.webUiPort := 0;
     Preferences.acceptedLegal := true;
     Preferences.splashScreenDisabled := false |}.

End Sample.

(** One more sample build. *)

Module MoreSamples.

(** The GUI build for macOS. *)
Definition mac : Build :=
  {| DISABLE_GUI := false; Q_OS_WIN := false; Q_OS_MAC := true;
     Q_OS_UNIX := true; Q_OS_HAIKU := false; STACKTRACE_WIN := false |}.

End MoreSamples.

(** * Checks of the string model *)

Example toInt_8080 : QStr.toInt "8080" = 8080.
Proof. reflexivity. Qed.
Example toInt_abc : QStr.toInt "abc" = 0.
Proof. reflexivity. Qed.
Example toInt_nbsp : QStr.toInt (String "160"%char "80") = 80.
Proof. reflexivity. Qed.
Example toInt_nel : QStr.toInt (String "133"%char "80" ++ " ") = 80.
Proof. reflexivity. Qed.
Example toInt_empty : QStr.toInt "" = 0.
Proof. reflexivity. Qed.
Example toInt_big : QStr.toInt "99999999999" = 0.
Proof. reflexivity. Qed.
Example toInt_neg : QStr.toInt " -12 " = -12.
Proof. reflexivity. Qed.
Example split_port : QStr.split "=" "--webui-port=80" = ["--webui-port"; "80"].
Proof. reflexivity. Qed.
Example split_port3 : QStr.split "=" "--webui-port=8=0" = ["--webui-port"; "8"; "0"].
Proof. reflexivity. Qed.
Example split_port0 : QStr.split "=" "--webui-port=" = ["--webui-port"; ""].
Proof. reflexivity. Qed.
Example endsWith_torrent : QStr.endsWith "--a.torrent" ".torrent" = true.
Proof. reflexivity. Qed.
Example number_80 : QStr.number 80 = "80".
Proof. reflexivity. Qed.

(** * Facts about the string operations *)

Module QStrFacts.
Import QStr.

Lemma allChars_weaken (P Q : ascii -> bool) s :
  (forall c, P c = true -> Q c = true) ->
  allChars P s = true -> allChars Q s = true.
Proof.
  intros HPQ. induction s as [|c s IH]; simpl; auto.
  intros H. apply andb_true_iff in H as [Hc Hs].
  rewrite (HPQ _ Hc), (IH Hs). reflexivity.
Qed.

Lemma numChar_cases c :
  numChar c = true ->
  isSpace c = false /\ Ascii.eqb "=" c = false /\ Ascii.eqb c "." = false.
Proof.
  destruct c as [[|] [|] [|] [|] [|] [|] [|] [|]]; vm_compute; intuition congruence.
Qed.

Lemma isDigit_not_sign c :
  isDigit c = true -> Ascii.eqb c "-" = false /\ Ascii.eqb c "+" = false.
Proof.
  destruct c as [[|] [|] [|] [|] [|] [|] [|] [|]]; vm_compute; intuition congruence.
Qed.

Lemma string_of_uint_digits d :
  allChars isDigit (NilEmpty.string_of_uint d) = true.
Proof. induction d; simpl; auto. Qed.

Lemma number_numChars n : allChars numChar (number n) = true.
Proof.
  assert (Hd : forall d, allChars numChar (NilEmpty.string_of_uint d) = true).
  { intros d. apply allChars_weaken with (P := isDigit).
    - intros c Hc. unfold numChar. rewrite Hc. reflexivity.
    - apply string_of_uint_digits. }
  assert (Hz : forall d, allChars numChar (NilZero.string_of_uint d) = true).
  { intros d. unfold NilZero.string_of_uint. destruct d; try apply Hd. reflexivity. }
  unfold number, NilZero.string_of_int.
  destruct (Z.to_int n); simpl; auto.
Qed.

(** *** Trimming *)

Lemma trimmed_nospace s :
  allChars (fun c => negb (isSpace c)) s = true -> trimmed s = s.
Proof.
  intros H. unfold trimmed.
  assert (HL : trimLeft s = s).
  { destruct s as [|c s]; simpl in *; auto.
    apply andb_true_iff in H as [Hc _]. apply negb_true_iff in Hc.
    rewrite Hc. reflexivity. }
  rewrite HL. induction s as [|c s IH]; simpl in *; auto.
  apply andb_true_iff in H as [Hc Hs]. apply negb_true_iff in Hc.
  rewrite Hc. simpl. rewrite IH; auto.
  destruct s as [|c' s]; simpl in *; auto.
  apply andb_true_iff in Hs as [Hc' _]. apply negb_true_iff in Hc'.
  rewrite Hc'. reflexivity.
Qed.

Lemma trimmed_numChars s : allChars numChar s = true -> trimmed s = s.
Proof.
  intros H. apply trimmed_nospace.
  apply allChars_weaken with (P := numChar); auto.
  intros c Hc. apply numChar_cases in Hc as [Hc _]. rewrite Hc. reflexivity.
Qed.

(** *** Splitting *)

Lemma split_nonempty sep s : split sep s <> [].
Proof.
  destruct s as [|c s]; simpl; try discriminate.
  destruct (Ascii.eqb c sep); try discriminate.
  destruct (split sep s); discriminate.
Qed.

Lemma split_absent sep s : contains sep s = false -> split sep s = [s].
Proof.
  unfold contains. induction s as [|c s IH]; simpl; auto.
  intros H. apply orb_false_iff in H as [Hc Hs].
  rewrite Ascii.eqb_sym, Hc, (IH Hs). reflexivity.
Qed.

Lemma split_present sep s :
  contains sep s = true -> (2 <= List.length (split sep s))%nat.
Proof.
  unfold contains. induction s as [|c s IH]; simpl; try discriminate.
  intros H. rewrite Ascii.eqb_sym in H.
  destruct (Ascii.eqb c sep); simpl in *.
  - pose proof (split_nonempty sep s). destruct (split sep s); simpl; [congruence | lia].
  - specialize (IH H). destruct (split sep s); simpl in *; lia.
Qed.

Lemma allChars_numChar_no_eq s :
  allChars numChar s = true -> contains "=" s = false.
Proof.
  unfold contains.
  induction s as [|c s IH]; cbn [list_ascii_of_string existsb allChars]; auto.
  intros H. apply andb_true_iff in H as [Hc Hs].
  apply numChar_cases in Hc as (_ & Hc & _). rewrite Hc, (IH Hs). reflexivity.
Qed.

(** *** Suffixes *)

Lemma endsWith_numChars s :
  allChars numChar s = true -> endsWith s ".torrent" = false.
Proof.
  induction s as [|c s IH]; simpl; auto.
  intros H. apply andb_true_iff in H as [Hc Hs].
  apply numChar_cases in Hc as (_ & _ & Hc). rewrite Hc. auto.
Qed.

(** *** Reading back what [number] wrote *)

Lemma digits_string_of_uint d :
  d <> Nil -> digits (NilEmpty.string_of_uint d) = Some (Z.of_uint d).
Proof.
  intros Hd. unfold digits.
  rewrite NilEmpty.usu. destruct d; simpl; congruence.
Qed.

Lemma stringToLongLong_number n : stringToLongLong (number n) = Some n.
Proof.
  unfold stringToLongLong.
  rewrite (trimmed_numChars _ (number_numChars n)).
  unfold number. destruct n as [|p|p]; try reflexivity.
  - simpl Z.to_int. unfold NilZero.string_of_int, NilZero.string_of_uint.
    pose proof (DecimalPos.Unsigned.to_uint_nonnil p) as Hnil.
    pose proof (string_of_uint_digits (Pos.to_uint p)) as Hdig.
    pose proof (digits_string_of_uint _ Hnil) as Hread.
    destruct (Pos.to_uint p) eqn:E; try congruence;
      simpl in Hread |- *; rewrite Hread;
      unfold Z.of_uint; rewrite <- E, DecimalPos.Unsigned.of_to; reflexivity.
  - simpl Z.to_int. unfold NilZero.string_of_int, NilZero.string_of_uint.
    pose proof (DecimalPos.Unsigned.to_uint_nonnil p) as Hnil.
    pose proof (digits_string_of_uint _ Hnil) as Hread.
    change (Ascii.eqb "-" "-") with true. cbv iota.
    destruct (Pos.to_uint p) eqn:E; try congruence;
      simpl; simpl in Hread; rewrite Hread;
      unfold Z.of_uint; rewrite <- E, DecimalPos.Unsigned.of_to; reflexivity.
Qed.

Lemma toInt_number n :
  toInt (number n) = if (INT_MIN <=? n) && (n <=? INT_MAX) then n else 0.
Proof. unfold toInt. rewrite stringToLongLong_number. reflexivity. Qed.

Lemma toInt_port n : 1 <= n <= 65535 -> toInt (number n) = n.
Proof.
  intros H. rewrite toInt_number.
  unfold INT_MIN, INT_MAX.
  destruct (Z.leb_spec (- 2 ^ 31) n), (Z.leb_spec n (2 ^ 31 - 1)); simpl; lia.
Qed.

Lemma toInt_unreadable s : stringToLongLong s = None -> toInt s = 0.
Proof. unfold toInt. intros ->. reflexivity. Qed.

End QStrFacts.

(** * The command-line interpreter *)

Section CommandLineFacts.

Variable build : Build.
Variable pref : Preferences.t.
Variable fs : FileSystem.

Lemma neutral_ordinary a : neutral build a = true -> ordinary build a = true.
Proof. unfold neutral, ordinary. destruct (classify build a); auto. Qed.

Lemma ordinary_passes a : ordinary build a = true -> passes build a = true.
Proof. unfold passes, ordinary. destruct (classify build a); auto. Qed.

Ltac by_branch a :=
  unfold passes, ordinary, neutral, classify in *;
  destruct (looksLikeFlag a), (isHelp a), (isVersion build a), (isWebUiPort a),
           (isNoSplash build a), (isDaemon build a), (exists_ fs a);
  try discriminate; auto.

Lemma parseLoop_unknown r tok post :
  classify build tok = KUnknown ->
  parseLoop build fs r (tok :: post) = set_unknownParameter r tok.
Proof. intros H. simpl. by_branch tok. Qed.

Lemma parseLoop_app r pre post :
  Forall (fun a => passes build a = true) pre ->
  parseLoop build fs r (pre ++ post) = parseLoop build fs (parseLoop build fs r pre) post.
Proof.
  intros H. revert r. induction H as [|a pre Ha _ IH]; intros r; auto.
  simpl. destruct (Z.of_nat (List.length (QStr.split "=" a)) =? 2); by_branch a.
Qed.

Lemma parseLoop_passes r l :
  Forall (fun a => passes build a = true) l ->
  unknownParameter (parseLoop build fs r l) = unknownParameter r.
Proof.
  intros H. revert r. induction H as [|a l Ha _ IH]; intros r; auto.
  simpl. destruct (Z.of_nat (List.length (QStr.split "=" a)) =? 2);
    by_branch a; rewrite IH; reflexivity.
Qed.

Lemma parseLoop_ordinary r l :
  Forall (fun a => ordinary build a = true) l ->
  showHelp (parseLoop build fs r l) = showHelp r /\
  showVersion (parseLoop build fs r l) = showVersion r /\
  unknownParameter (parseLoop build fs r l) = unknownParameter r.
Proof.
  intros H. revert r. induction H as [|a l Ha _ IH]; intros r; auto.
  simpl. destruct (Z.of_nat (List.length (QStr.split "=" a)) =? 2);
    by_branch a;
    match goal with |- context [parseLoop build fs ?r' l] => destruct (IH r') as (-> & -> & ->) end;
    auto.
Qed.

Lemma parseLoop_neutral r l :
  Forall (fun a => neutral build a = true) l ->
  webUiPort (parseLoop build fs r l) = webUiPort r.
Proof.
  intros H. revert r. induction H as [|a l Ha _ IH]; intros r; auto.
  simpl. destruct (Z.of_nat (List.length (QStr.split "=" a)) =? 2);
    by_branch a; rewrite IH; reflexivity.
Qed.

(** *** The port option *)

Lemma portToken_flag v :
  looksLikeFlag (portToken v) = negb (QStr.endsWith v ".torrent").
Proof.
  assert (Hsize : (QStr.size (portToken v) =? 2) = false).
  { apply Z.eqb_neq. unfold QStr.size, portToken.
    cbn [String.append String.length]. lia. }
  unfold looksLikeFlag. rewrite Hsize, andb_false_r, orb_false_r.
  reflexivity.
Qed.

Lemma portToken_classify v :
  QStr.endsWith v ".torrent" = false -> classify build (portToken v) = KWebUiPort.
Proof.
  intros H. unfold classify. rewrite portToken_flag, H.
  assert (Hh : isHelp (portToken v) = false) by reflexivity.
  assert (Hv : isVersion build (portToken v) = false).
  { unfold isVersion. apply andb_false_r. }
  assert (Hp : isWebUiPort (portToken v) = true) by (destruct v; reflexivity).
  rewrite Hh, Hv, Hp. reflexivity.
Qed.

Lemma portToken_split v :
  QStr.split "=" (portToken v) = "--webui-port" :: QStr.split "=" v.
Proof. reflexivity. Qed.

(** A value without a further ['='] is converted and stored. *)
Lemma parseLoop_port r v rest :
  QStr.endsWith v ".torrent" = false ->
  QStr.contains "=" v = false ->
  parseLoop build fs r (portToken v :: rest) = parseLoop build fs (set_webUiPort r (QStr.toInt v)) rest.
Proof.
  intros Hsuf Heq.
  pose proof (portToken_classify v Hsuf) as Hk.
  cbn [parseLoop]. unfold classify in Hk.
  rewrite portToken_split, (QStrFacts.split_absent _ _ Heq).
  destruct (looksLikeFlag (portToken v)), (isHelp (portToken v)),
    (isVersion build (portToken v)), (isWebUiPort (portToken v)),
    (isNoSplash build (portToken v)), (isDaemon build (portToken v));
    try discriminate; reflexivity.
Qed.

(** A value with a further ['='] makes the token a no-op. *)
Lemma parseLoop_port_skipped r v rest :
  QStr.endsWith v ".torrent" = false ->
  QStr.contains "=" v = true ->
  parseLoop build fs r (portToken v :: rest) = parseLoop build fs r rest.
Proof.
  intros Hsuf Heq.
  pose proof (portToken_classify v Hsuf) as Hk.
  pose proof (QStrFacts.split_present _ _ Heq) as Hlen.
  cbn [parseLoop]. unfold classify in Hk.
  rewrite portToken_split. cbn [List.length].
  destruct (Z.eqb_spec (Z.of_nat (S (List.length (QStr.split "=" v)))) 2) as [E|E];
    [lia|].
  destruct (looksLikeFlag (portToken v)), (isHelp (portToken v)),
    (isVersion build (portToken v)), (isWebUiPort (portToken v)),
    (isNoSplash build (portToken v)), (isDaemon build (portToken v));
    try discriminate; reflexivity.
Qed.

(** The request when the option that decides the port is [portToken v]:
    nothing before it stops the parse or asks for help or version, and
    nothing after it does so or touches the port again. *)
Lemma parseCommandLine_port prog pre v post :
  Forall (fun a => ordinary build a = true) pre ->
  Forall (fun a => neutral build a = true) post ->
  QStr.endsWith v ".torrent" = false ->
  QStr.contains "=" v = false ->
  let params := parseCommandLine build pref fs (prog :: pre ++ portToken v :: post) in
  webUiPort params = QStr.toInt v /\
  showHelp params = false /\
  showVersion params = false /\
  unknownParameter params = "".
Proof.
  intros Hpre Hpost Hsuf Heq. unfold parseCommandLine. cbn [List.tl].
  assert (Hpre' : Forall (fun a => passes build a = true) pre).
  { eapply Forall_impl; [|exact Hpre]. apply ordinary_passes. }
  assert (Hpost' : Forall (fun a => ordinary build a = true) post).
  { eapply Forall_impl; [|exact Hpost]. apply neutral_ordinary. }
  rewrite (parseLoop_app _ _ _ Hpre'), (parseLoop_port _ _ _ Hsuf Heq).
  rewrite (parseLoop_neutral _ _ Hpost).
  destruct (parseLoop_ordinary (set_webUiPort
             (parseLoop build fs (QBtCommandLineParameters_init build pref) pre)
             (QStr.toInt v)) post Hpost') as (-> & -> & ->).
  destruct (parseLoop_ordinary (QBtCommandLineParameters_init build pref) pre Hpre)
    as (H1 & H2 & H3).
  cbn. rewrite H1, H2, H3. auto.
Qed.

(** Without any port option the port is the stored one. *)
Lemma parseCommandLine_default prog args :
  Forall (fun a => neutral build a = true) args ->
  let params := parseCommandLine build pref fs (prog :: args) in
  webUiPort params = Preferences.getWebUiPort pref /\
  showHelp params = false /\
  showVersion params = false /\
  unknownParameter params = "".
Proof.
  intros H. unfold parseCommandLine. cbn [List.tl].
  rewrite (parseLoop_neutral _ _ H).
  assert (H' : Forall (fun a => ordinary build a = true) args).
  { eapply Forall_impl; [|exact H]. apply neutral_ordinary. }
  destruct (parseLoop_ordinary (QBtCommandLineParameters_init build pref) args H')
    as (-> & -> & ->).
  auto.
Qed.

End CommandLineFacts.

(** * Symbolic execution of [main]

    [main] is followed statement by statement from an explicit world; each
    lemma below performs one statement. *)

Section Exec.

Context {A B C : Type}.
Variables (p : Preferences.t) (d : Z -> Disposition) (i : nat) (t : list Event).

Let w := {| prefs := p; disposition := d; instances := i; trace := t |}.

Lemma bind_assoc (m : Proc A) (k : A -> Proc B) (h : B -> Proc C) w0 :
  bind (bind m k) h w0 = bind m (fun a => bind (k a) h) w0.
Proof. unfold bind. destruct (m w0) as [[a|st] w']; reflexivity. Qed.

Lemma bind_ret (a : A) (k : A -> Proc B) w0 : bind (ret a) k w0 = k a w0.
Proof. reflexivity. Qed.

Lemma bind_return (st : Z) (k : A -> Proc B) w0 :
  bind (return_ st) k w0 = (Return st, w0).
Proof. reflexivity. Qed.

Lemma bind_emit e (k : unit -> Proc B) :
  bind (emit e) k w =
  k tt {| prefs := p; disposition := d; instances := i; trace := t ++ [e] |}.
Proof. reflexivity. Qed.

Lemma bind_when_emit c e (k : unit -> Proc B) :
  bind (when c (emit e)) k w =
  k tt {| prefs := p; disposition := d; instances := i;
          trace := t ++ (if c then [e] else []) |}.
Proof.
  destruct c; unfold when, bind, ret, emit; simpl; rewrite ?app_nil_r; reflexivity.
Qed.

Lemma bind_when (c : bool) (m : Proc unit) (k : unit -> Proc B) w0 :
  bind (when c m) k w0 = bind (if c then m else ret tt) k w0.
Proof. reflexivity. Qed.

Lemma bind_getPrefs (k : Preferences.t -> Proc B) : bind getPrefs k w = k p w.
Proof. reflexivity. Qed.

Lemma bind_getAcceptedLegal (k : bool -> Proc B) :
  bind pref_getAcceptedLegal k w =
  k (Preferences.acceptedLegal p)
    {| prefs := p; disposition := d; instances := i;
       trace := t ++ [EvGetAcceptedLegal (Preferences.acceptedLegal p)] |}.
Proof. reflexivity. Qed.

Lemma bind_setAcceptedLegal b (k : unit -> Proc B) :
  bind (pref_setAcceptedLegal b) k w =
  k tt {| prefs := Preferences.setAcceptedLegal b p; disposition := d;
          instances := i; trace := t ++ [EvSetAcceptedLegal b] |}.
Proof. reflexivity. Qed.

Lemma bind_setWebUiPort n (k : unit -> Proc B) :
  bind (pref_setWebUiPort n) k w =
  k tt {| prefs := Preferences.setWebUiPort n p; disposition := d;
          instances := i; trace := t ++ [EvSetWebUiPort n] |}.
Proof. reflexivity. Qed.

Lemma bind_newApplication a (k : unit -> Proc B) :
  bind (newApplication a) k w =
  k tt {| prefs := p; disposition := d; instances := S i;
          trace := t ++ [EvNewApplication i a] |}.
Proof. reflexivity. Qed.

Lemma bind_app_isRunning env (k : bool -> Proc B) j :
  bind (app_isRunning env) k
       {| prefs := p; disposition := d; instances := S j; trace := t |} =
  k (isRunning env j)
    {| prefs := p; disposition := d; instances := S j;
       trace := t ++ [EvIsRunning j (isRunning env j)] |}.
Proof. reflexivity. Qed.

Lemma bind_signal s h (k : unit -> Proc B) :
  bind (signal s h) k w =
  k tt {| prefs := p; disposition := fun s' => if s' =? s then h else d s';
          instances := i; trace := t ++ [EvSignal s h] |}.
Proof. reflexivity. Qed.

End Exec.

(** The variable a condition turns on. *)
Ltac atom_of c :=
  lazymatch c with
  | negb ?a => atom_of a
  | andb ?a _ => atom_of a
  | orb ?a _ => atom_of a
  | (if ?a then _ else _) => atom_of a
  | _ => c
  end.

(** One statement of the program at the head of the run. *)
Ltac exec_step :=
  lazymatch goal with
  | |- context [bind (bind ?m ?k) ?h ?w] => rewrite (bind_assoc m k h w)
  | |- context [bind (ret ?a) ?k ?w] => rewrite (bind_ret a k w)
  | |- context [bind (return_ ?st) ?k ?w] => rewrite (bind_return st k w)
  | |- context [bind (emit ?e) ?k
                  {| prefs := ?p; disposition := ?d; instances := ?i; trace := ?t |}] =>
      rewrite (bind_emit p d i t e k)
  | |- context [bind (when ?c (emit ?e)) ?k
                  {| prefs := ?p; disposition := ?d; instances := ?i; trace := ?t |}] =>
      rewrite (bind_when_emit p d i t c e k)
  | |- context [bind (when ?c ?m) ?k ?w] => rewrite (bind_when c m k w)
  | |- context [bind getPrefs ?k
                  {| prefs := ?p; disposition := ?d; instances := ?i; trace := ?t |}] =>
      rewrite (bind_getPrefs p d i t k)
  | |- context [bind pref_getAcceptedLegal ?k
                  {| prefs := ?p; disposition := ?d; instances := ?i; trace := ?t |}] =>
      rewrite (bind_getAcceptedLegal p d i t k)
  | |- context [bind (pref_setAcceptedLegal ?b) ?k
                  {| prefs := ?p; disposition := ?d; instances := ?i; trace := ?t |}] =>
      rewrite (bind_setAcceptedLegal p d i t b k)
  | |- context [bind (pref_setWebUiPort ?n) ?k
                  {| prefs := ?p; disposition := ?d; instances := ?i; trace := ?t |}] =>
      rewrite (bind_setWebUiPort p d i t n k)
  | |- context [bind (newApplication ?a) ?k
                  {| prefs := ?p; disposition := ?d; instances := ?i; trace := ?t |}] =>
      rewrite (bind_newApplication p d i t a k)
  | |- context [bind (app_isRunning ?env) ?k
                  {| prefs := ?p; disposition := ?d; instances := S ?j; trace := ?t |}] =>
      rewrite (bind_app_isRunning p d t env k j)
  | |- context [bind (signal ?s ?h) ?k
                  {| prefs := ?p; disposition := ?d; instances := ?i; trace := ?t |}] =>
      rewrite (bind_signal p d i t s h k)
  | |- context [bind (if ?c then _ else _) ?k ?w] =>
      let c' := eval cbn [negb andb orb Preferences.acceptedLegal Preferences.setWebUiPort
                          Preferences.setAcceptedLegal] in c in
      lazymatch c' with
      | true => change c with true
      | false => change c with false
      | _ => let a := atom_of c' in
             change c with c'; destruct a eqn:?; cbn [negb andb orb]
      end
  end; cbv beta iota.

(** * The orchestrator *)

(** ** [main], step by step

    One symbolic execution of [main_body] over all builds, environments and
    command lines; every later fact about a run is derived from it. *)

Section Steps.

Variable build : Build.
Variable env : Env.
Variable argv : list string.
Variable pref0 : Preferences.t.

Let params := parseCommandLine build pref0 (fileSystem env) (arguments env argv).

(** [main] runs the steps in the order of the code. *)
Lemma main_steps :
  let r := main_body build env argv (World_init pref0) in
  (Some (match fst r with Next st => st | Return st => st end), trace (snd r)) =
  play (List.map (step_run build env argv pref0) code_order).
Proof.
  cbv zeta.
  unfold code_order, step_run, prelude, gate_consulted, answer, affirmed,
    upgrade_ask, daemonizing, isOneArg, Preferences.getAcceptedLegal.
  subst params.
  unfold main_body, displayBadArgMessage, userAgreesWithLegalNotice, World_init.
  cbn [List.map play]. cbv zeta.
  repeat exec_step.
  all: unfold ret; cbn [fst snd trace]; rewrite <- ?app_assoc; cbn [Datatypes.app].
  all: reflexivity.
Qed.

End Steps.

(** ** The state a run leaves behind

    Every statement of [main] keeps the preferences and the dispositions in
    step with the trace, so the final state can be read off the trace. *)

Section Explained.

Variable pref0 : Preferences.t.

Lemma replay_prefs_app l1 l2 p :
  replay_prefs (l1 ++ l2) p = replay_prefs l2 (replay_prefs l1 p).
Proof.
  revert p. induction l1 as [|e l1 IH]; intros p; auto.
  destruct e; simpl; auto.
Qed.

Lemma replay_signals_app l1 l2 d :
  replay_signals (l1 ++ l2) d = replay_signals l2 (replay_signals l1 d).
Proof.
  revert d. induction l1 as [|e l1 IH]; intros d; auto.
  destruct e; simpl; auto.
Qed.

Lemma keeps_ret {A} (a : A) : keeps pref0 (ret a).
Proof. intros w H. exact H. Qed.

Lemma keeps_return {A} st : keeps pref0 (@return_ A st).
Proof. intros w H. exact H. Qed.

Lemma keeps_bind {A B} (m : Proc A) (k : A -> Proc B) :
  keeps pref0 m -> (forall a, keeps pref0 (k a)) -> keeps pref0 (bind m k).
Proof.
  intros Hm Hk w H. unfold bind. specialize (Hm w H).
  destruct (m w) as [[a|st] w']; simpl in *; auto. apply (Hk a w' Hm).
Qed.

Lemma keeps_if {A} (c : bool) (m1 m2 : Proc A) :
  keeps pref0 m1 -> keeps pref0 m2 -> keeps pref0 (if c then m1 else m2).
Proof. destruct c; auto. Qed.

Lemma keeps_when c m : keeps pref0 m -> keeps pref0 (when c m).
Proof. intros H. apply keeps_if; [exact H | apply keeps_ret]. Qed.

Lemma explained_silent w e :
  silent e = true -> explained pref0 w ->
  explained pref0 {| prefs := prefs w; disposition := disposition w;
               instances := instances w; trace := trace w ++ [e] |}.
Proof.
  intros He [Hp Hd]. split; cbn [prefs disposition trace].
  - rewrite replay_prefs_app, <- Hp. destruct e; try discriminate; reflexivity.
  - intros s. rewrite replay_signals_app.
    destruct e; try discriminate; cbn [replay_signals]; apply Hd.
Qed.

Lemma keeps_emit e : silent e = true -> keeps pref0 (emit e).
Proof. intros He w H. apply explained_silent; assumption. Qed.

Lemma keeps_getPrefs : keeps pref0 getPrefs.
Proof. intros w H. exact H. Qed.

Lemma keeps_getAcceptedLegal : keeps pref0 pref_getAcceptedLegal.
Proof. intros w H. apply (explained_silent w (EvGetAcceptedLegal _)); auto. Qed.

Lemma keeps_newApplication a : keeps pref0 (newApplication a).
Proof.
  intros w H.
  destruct (explained_silent w (EvNewApplication (instances w) a) eq_refl H) as [Hp Hd].
  split; assumption.
Qed.

Lemma keeps_app_isRunning env : keeps pref0 (app_isRunning env).
Proof. intros w H. apply (explained_silent w (EvIsRunning _ _)); auto. Qed.

Lemma keeps_setWebUiPort n : keeps pref0 (pref_setWebUiPort n).
Proof.
  intros w [Hp Hd]. split; cbn [snd pref_setWebUiPort prefs disposition trace].
  - rewrite replay_prefs_app, <- Hp. reflexivity.
  - intros s. rewrite replay_signals_app. apply Hd.
Qed.

Lemma keeps_setAcceptedLegal b : keeps pref0 (pref_setAcceptedLegal b).
Proof.
  intros w [Hp Hd]. split; cbn [snd pref_setAcceptedLegal prefs disposition trace].
  - rewrite replay_prefs_app, <- Hp. reflexivity.
  - intros s. rewrite replay_signals_app. apply Hd.
Qed.

Lemma keeps_signal signum h : keeps pref0 (signal signum h).
Proof.
  intros w [Hp Hd]. split; cbn [snd signal prefs disposition trace].
  - rewrite replay_prefs_app, <- Hp. reflexivity.
  - intros s. rewrite replay_signals_app. cbn [replay_signals].
    rewrite <- Hd. reflexivity.
Qed.

Lemma explained_init : explained pref0 (World_init pref0).
Proof. split; reflexivity. Qed.

End Explained.

Ltac keeps_step :=
  first
    [ apply keeps_bind; [|intros ?]
    | apply keeps_when
    | apply keeps_if
    | apply keeps_ret
    | apply keeps_return
    | apply keeps_emit; reflexivity
    | apply keeps_getPrefs
    | apply keeps_getAcceptedLegal
    | apply keeps_setAcceptedLegal
    | apply keeps_setWebUiPort
    | apply keeps_newApplication
    | apply keeps_app_isRunning
    | apply keeps_signal ].

Lemma keeps_userAgreesWithLegalNotice build env pref0 :
  keeps pref0 (userAgreesWithLegalNotice build env).
Proof. unfold userAgreesWithLegalNotice. repeat keeps_step. Qed.

Lemma keeps_main_body build env argv pref0 :
  keeps pref0 (main_body build env argv).
Proof.
  unfold main_body, displayBadArgMessage. cbv zeta.
  repeat first [ apply keeps_userAgreesWithLegalNotice | keeps_step ].
Qed.

(** The final preferences and dispositions of [main] are those its trace
    records. *)
Lemma main_explained build env argv pref0 :
  explained pref0 (snd (main build env argv pref0)).
Proof.
  unfold main.
  pose proof (keeps_main_body build env argv pref0 _ (explained_init pref0)) as H.
  destruct (main_body build env argv (World_init pref0)) as [[st|st] w]; exact H.
Qed.

(** ** How the steps make up a run *)

Lemma Step_eqb_spec a b : reflect (a = b) (Step_eqb a b).
Proof. destruct a, b; constructor; congruence. Qed.

Lemma StronglySorted_app {A} (R : A -> A -> Prop) l1 l2 :
  StronglySorted R l1 -> StronglySorted R l2 ->
  (forall a b, In a l1 -> In b l2 -> R a b) ->
  StronglySorted R (l1 ++ l2).
Proof.
  intros H1 H2 H. induction H1 as [|a l1 Hs IH Ha]; simpl; auto.
  constructor.
  - apply IH. intros x y Hx Hy. apply H; simpl; auto.
  - apply Forall_app. split; auto.
    apply Forall_forall. intros y Hy. apply H; simpl; auto.
Qed.

Section StepFacts.

Variable build : Build.
Variable env : Env.
Variable argv : list string.
Variable pref0 : Preferences.t.

Let params := parseCommandLine build pref0 (fileSystem env) (arguments env argv).
Let run := step_run build env argv pref0.

(** *** Each step on its own *)

Ltac by_cases :=
  repeat (cbn [negb andb orb fst snd Datatypes.app existsb forallb stops step_of Step_eqb is_none String.eqb Ascii.eqb Bool.eqb] in *;
          match goal with
          | |- context [if ?c then _ else _] =>
              let a := atom_of c in
              lazymatch a with true => fail | false => fail | _ => destruct a eqn:? end
          end);
  cbn [negb andb orb fst snd Datatypes.app existsb forallb stops step_of Step_eqb is_none String.eqb Ascii.eqb Bool.eqb] in *.

Lemma events_stepb s :
  forallb (fun e => Step_eqb (step_of e) s) (events build env argv pref0 s) = true.
Proof.
  unfold events.
  destruct s; cbn [step_run]; unfold prelude, gate_consulted, answer, affirmed,
    daemonizing, upgrade_ask; by_cases; reflexivity.
Qed.

Lemma events_step s e : In e (events build env argv pref0 s) -> step_of e = s.
Proof.
  intros H. pose proof (events_stepb s) as Hb.
  rewrite forallb_forall in Hb. specialize (Hb e H).
  destruct (Step_eqb_spec (step_of e) s); congruence.
Qed.

Lemma stops_exitb s :
  existsb stops (events build env argv pref0 s) && is_none (exit_of build env argv pref0 s) = false.
Proof.
  unfold events, exit_of.
  destruct s; cbn [step_run]; unfold prelude, gate_consulted, answer, affirmed,
    daemonizing, upgrade_ask; by_cases;
    repeat match goal with H : ?a = _ |- context [?a] => rewrite H end;
    reflexivity.
Qed.

Lemma stops_exit s e : In e (events build env argv pref0 s) -> stops e = true -> exit_of build env argv pref0 s <> None.
Proof.
  intros H Hs Hn. pose proof (stops_exitb s) as Hb.
  rewrite Hn in Hb. cbn [is_none] in Hb. rewrite andb_true_r in Hb.
  assert (existsb stops (events build env argv pref0 s) = true) by (apply existsb_exists; eauto).
  congruence.
Qed.

(** *** The steps in sequence *)

Lemma play_stops_at ss s c :
  In s ss -> reached_in build env argv pref0 ss s = true -> exit_of build env argv pref0 s = Some c ->
  play (List.map (step_run build env argv pref0) ss) =
    (Some c, List.concat (List.map (events build env argv pref0) (before_in ss s)) ++ events build env argv pref0 s)%list.
Proof.
  unfold reached_in, exit_of, events.
  induction ss as [|x ss IH]; intros Hin Hr Hc; [contradiction|].
  cbn [List.map play before_in] in *.
  destruct (Step_eqb_spec x s) as [->|Hne].
  - destruct (step_run build env argv pref0 s) as [evs ex]; cbn [fst snd] in *.
    subst ex. reflexivity.
  - cbn [forallb] in Hr. apply andb_true_iff in Hr as [Hx Hr].
    destruct Hin as [?|Hin]; [congruence|].
    rewrite (IH Hin Hr Hc). cbn [List.map List.concat].
    destruct (step_run build env argv pref0 x) as [evs ex]; cbn [fst snd] in *.
    destruct ex; [discriminate|]. rewrite app_assoc. reflexivity.
Qed.

Lemma play_In ss e :
  In e (snd (play (List.map (step_run build env argv pref0) ss))) <->
  In (step_of e) ss /\ reached_in build env argv pref0 ss (step_of e) = true /\ In e (events build env argv pref0 (step_of e)).
Proof.
  unfold reached_in.
  induction ss as [|x ss IH]; cbn [List.map play before_in].
  - simpl. tauto.
  - pose proof (events_step x e) as Hx. unfold events, exit_of in *.
    destruct (step_run build env argv pref0 x) as [evs ex] eqn:Ex; cbn [fst snd] in *.
    destruct (Step_eqb_spec x (step_of e)) as [Heq|Hne].
    + destruct ex as [c|].
      * cbn [snd]. split; [intros H|intros (_ & _ & H)].
        -- split; [left; exact Heq|]. split; [reflexivity|].
           rewrite <- Heq, Ex. exact H.
        -- rewrite <- Heq, Ex in H. exact H.
      * destruct (play (List.map (step_run build env argv pref0) ss)) as [st tr].
        cbn [snd] in *. rewrite in_app_iff. split; [intros H|intros (_ & _ & H)].
        -- split; [left; exact Heq|]. split; [reflexivity|].
           rewrite <- Heq, Ex. cbn [fst]. destruct H as [H|H]; [exact H|].
           apply IH in H as (_ & _ & H). rewrite <- Heq, Ex in H. exact H.
        -- left. rewrite <- Heq, Ex in H. exact H.
    + cbn [forallb]. rewrite Ex. cbn [snd]. destruct ex as [c|].
      * cbn [snd is_none andb]. split; [intros H|intros (_ & H & _); discriminate].
        elim Hne. symmetry. auto.
      * destruct (play (List.map (step_run build env argv pref0) ss)) as [st tr].
        cbn [snd is_none andb] in *. rewrite in_app_iff, IH. split.
        -- intros [H|H]; [elim Hne; symmetry; auto|].
           destruct H as (H1 & H2 & H3). split; [right; exact H1|]. split; assumption.
        -- intros ([H1|H1] & H2 & H3); [congruence|]. right. auto.
Qed.

Lemma homogeneous_sorted (pos : Step -> nat) x evs :
  (forall e, In e evs -> step_of e = x) ->
  StronglySorted (fun e1 e2 => (pos (step_of e1) <= pos (step_of e2))%nat) evs.
Proof.
  induction evs as [|e evs IH]; intros H; constructor.
  - apply IH. intros e' He'. apply H. right. exact He'.
  - apply Forall_forall. intros e' He'.
    rewrite (H e), (H e'); simpl; auto.
Qed.

(** Steps taken in an order that [pos] respects leave a trace in that
    order. *)
Lemma play_ordered (pos : Step -> nat) ss :
  StronglySorted (fun a b => (pos a <= pos b)%nat) ss ->
  StronglySorted (fun e1 e2 => (pos (step_of e1) <= pos (step_of e2))%nat)
                 (snd (play (List.map (step_run build env argv pref0) ss))).
Proof.
  induction 1 as [|x ss Hss IH Hx]; cbn [List.map play]; [constructor|].
  pose proof (events_step x) as Hev. unfold events in Hev.
  pose proof (fun e => proj1 (play_In ss e)) as Hin.
  destruct (step_run build env argv pref0 x) as [evs [c|]]; cbn [fst snd] in *.
  - apply homogeneous_sorted with (x := x). exact Hev.
  - destruct (play (List.map (step_run build env argv pref0) ss)) as [st tr].
    cbn [snd] in *. apply StronglySorted_app; auto.
    + apply homogeneous_sorted with (x := x). exact Hev.
    + intros a b Ha Hb. rewrite (Hev a Ha).
      destruct (Hin b Hb) as (Hb' & _).
      rewrite Forall_forall in Hx. apply Hx. exact Hb'.
Qed.

(** An event that [stops] is followed by events of its own step only. *)
Lemma play_short_circuit ss l1 e l2 :
  snd (play (List.map (step_run build env argv pref0) ss)) = (l1 ++ e :: l2)%list ->
  stops e = true ->
  Forall (fun e' => step_of e' = step_of e) l2.
Proof.
  revert l1. induction ss as [|x ss IH]; intros l1; cbn [List.map play].
  - intros H. destruct l1; discriminate.
  - pose proof (events_step x) as Hev. pose proof (stops_exit x) as Hst.
    unfold events, exit_of in *.
    destruct (step_run build env argv pref0 x) as [evs [c|]]; cbn [fst snd] in *.
    + intros H Hs. subst evs. apply Forall_forall. intros e' He'.
      rewrite (Hev e), (Hev e'); auto; apply in_or_app; right; simpl; auto.
    + destruct (play (List.map (step_run build env argv pref0) ss)) as [st tr].
      cbn [snd] in *. intros H Hs.
      apply app_eq_app in H as [l [[H1 H2]|[H1 H2]]].
      * destruct l as [|e' l].
        -- rewrite app_nil_r in H1. subst l1. simpl in H2.
           apply (IH [] (eq_sym H2) Hs).
        -- injection H2 as <- H2. elim (Hst e); auto.
           rewrite H1. apply in_or_app. right. left. reflexivity.
      * apply (IH l H2 Hs).
Qed.

End StepFacts.

Section MainFacts.

Variable build : Build.
Variable env : Env.
Variable argv : list string.
Variable pref0 : Preferences.t.

Let params := parseCommandLine build pref0 (fileSystem env) (arguments env argv).
Let status := fst (main build env argv pref0).
Let final := snd (main build env argv pref0).

Lemma main_play :
  play (List.map (step_run build env argv pref0) code_order) = (Some status, trace final).
Proof.
  subst status final. pose proof (main_steps build env argv pref0) as H.
  cbv zeta in H. unfold main.
  destruct (main_body build env argv (World_init pref0)) as [[st|st] w];
    cbn [fst snd] in *; auto.
Qed.

Lemma all_steps s : In s code_order.
Proof. destruct s; simpl; tauto. Qed.

(** An event is in the trace exactly when its step was reached and
    emits it. *)
Lemma trace_In e :
  In e (trace final) <->
  reached build env argv pref0 (step_of e) = true /\
  In e (events build env argv pref0 (step_of e)).
Proof.
  pose proof (play_In build env argv pref0 code_order e) as H.
  rewrite main_play in H. cbn [snd] in H. rewrite H.
  pose proof (all_steps (step_of e)). unfold reached. tauto.
Qed.

(** The step that ends the run decides the status and closes the trace. *)
Lemma stops_at s c :
  reached build env argv pref0 s = true ->
  exit_of build env argv pref0 s = Some c ->
  status = c /\
  trace final =
    (List.concat (List.map (events build env argv pref0) (before s)) ++
     events build env argv pref0 s)%list.
Proof.
  intros Hr Hc.
  pose proof (play_stops_at build env argv pref0 code_order s c (all_steps s) Hr Hc) as H.
  rewrite main_play in H. injection H as H1 H2. auto.
Qed.

Lemma reached_passed s s' :
  reached build env argv pref0 s' = true -> In s (before s') ->
  exit_of build env argv pref0 s = None.
Proof.
  unfold reached, reached_in, before. intros H Hin.
  rewrite forallb_forall in H. specialize (H s Hin).
  destruct (exit_of build env argv pref0 s); [discriminate|reflexivity].
Qed.

(** Some step ends every run. *)
Lemma last_step :
  exists s c, reached build env argv pref0 s = true /\
              exit_of build env argv pref0 s = Some c.
Proof.
  unfold reached, reached_in, code_order.
  destruct (exit_of build env argv pref0 ParseArgs) as [c|] eqn:E1;
    [exists ParseArgs, c; auto|].
  destruct (exit_of build env argv pref0 Consent) as [c|] eqn:E2;
    [exists Consent, c; cbn [before_in Step_eqb forallb]; rewrite E1; auto|].
  destruct (exit_of build env argv pref0 CheckSingleton) as [c|] eqn:E3;
    [exists CheckSingleton, c; cbn [before_in Step_eqb forallb]; rewrite E1, E2; auto|].
  destruct (exit_of build env argv pref0 RunMigrations) as [c|] eqn:E4;
    [exists RunMigrations, c; cbn [before_in Step_eqb forallb]; rewrite E1, E2, E3; auto|].
  destruct (exit_of build env argv pref0 Daemonize) as [c|] eqn:E5;
    [exists Daemonize, c; cbn [before_in Step_eqb forallb]; rewrite E1, E2, E3, E4; auto|].
  destruct (exit_of build env argv pref0 ReacquireSingleton) as [c|] eqn:E6;
    [exists ReacquireSingleton, c; cbn [before_in Step_eqb forallb]; rewrite E1, E2, E3, E4, E5; auto|].
  destruct (exit_of build env argv pref0 InstallSignalHandlers) as [c|] eqn:E7;
    [exists InstallSignalHandlers, c; cbn [before_in Step_eqb forallb]; rewrite E1, E2, E3, E4, E5, E6; auto|].
  exists StartEngine, (exec env (torrents params)).
  cbn [before_in Step_eqb forallb]. rewrite E1, E2, E3, E4, E5, E6, E7. auto.
Qed.

Lemma main_in_order : in_order code_position (trace final).
Proof.
  pose proof (play_ordered build env argv pref0 code_position code_order) as H.
  rewrite main_play in H. apply H.
  unfold code_order. repeat (constructor; [|repeat constructor]). constructor.
Qed.

Lemma main_short_circuits : short_circuits (trace final).
Proof.
  intros l1 e l2 H Hs.
  apply (play_short_circuit build env argv pref0 code_order l1 e l2); auto.
  rewrite main_play. exact H.
Qed.

End MainFacts.

(** * The claims *)

Section Validation.

Variable build : Build.
Variable env : Env.
Variable argv : list string.
Variable pref0 : Preferences.t.

Let params := parseCommandLine build pref0 (fileSystem env) (arguments env argv).
Let status := fst (main build env argv pref0).
Let final := snd (main build env argv pref0).

Lemma replay_prefs_prelude p : replay_prefs (prelude build env) p = p.
Proof. unfold prelude. destruct (Q_OS_MAC build), (DISABLE_GUI build); reflexivity. Qed.

Lemma reached_ParseArgs : reached build env argv pref0 ParseArgs = true.
Proof. reflexivity. Qed.

(** An unknown parameter ends the run at once. *)
Lemma main_unknownParameter :
  QStr.isEmpty (unknownParameter params) = false ->
  status = EXIT_FAILURE /\
  trace final =
    (prelude build env ++
       [EvDisplayBadArgMessage (MsgUnknownParameter (unknownParameter params))])%list /\
  prefs final = pref0.
Proof.
  intros H.
  assert (Hx : step_run build env argv pref0 ParseArgs =
               ((prelude build env ++
                  [EvDisplayBadArgMessage (MsgUnknownParameter (unknownParameter params))])%list,
                Some EXIT_FAILURE)).
  { cbn [step_run]. fold params. rewrite H. reflexivity. }
  destruct (stops_at build env argv pref0 ParseArgs EXIT_FAILURE reached_ParseArgs)
    as [Hs Ht].
  { unfold exit_of. rewrite Hx. reflexivity. }
  fold status final in Hs, Ht. unfold events in Ht. rewrite Hx in Ht.
  cbn [before before_in code_order Step_eqb List.map List.concat fst Datatypes.app] in Ht.
  repeat split; auto.
  destruct (main_explained build env argv pref0) as [Hp _]. fold final in Hp.
  rewrite Hp, Ht, replay_prefs_app, replay_prefs_prelude. reflexivity.
Qed.

(** A port outside 1..65535 ends a run that got past help and version. *)
Lemma main_bad_port :
  QStr.isEmpty (unknownParameter params) = true ->
  negb (Q_OS_WIN build) && showVersion params = false ->
  showHelp params = false ->
  (webUiPort params >? 0) && (webUiPort params <=? 65535) = false ->
  status = EXIT_FAILURE /\
  trace final =
    (prelude build env ++ [EvDisplayBadArgMessage (MsgBadPort "--webui-port")])%list /\
  prefs final = pref0.
Proof.
  intros Hu Hv Hh Hp.
  assert (Hx : step_run build env argv pref0 ParseArgs =
               ((prelude build env ++
                  [EvDisplayBadArgMessage (MsgBadPort "--webui-port")])%list,
                Some EXIT_FAILURE)).
  { cbn [step_run]. fold params. rewrite Hu, Hv, Hh, Hp. reflexivity. }
  destruct (stops_at build env argv pref0 ParseArgs EXIT_FAILURE reached_ParseArgs)
    as [Hs Ht].
  { unfold exit_of. rewrite Hx. reflexivity. }
  fold status final in Hs, Ht. unfold events in Ht. rewrite Hx in Ht.
  cbn [before before_in code_order Step_eqb List.map List.concat fst Datatypes.app] in Ht.
  repeat split; auto.
  destruct (main_explained build env argv pref0) as [Hp' _]. fold final in Hp'.
  rewrite Hp', Ht, replay_prefs_app, replay_prefs_prelude. reflexivity.
Qed.

End Validation.

(** ** What a run writes *)

Lemma writes_app l1 l2 : writes (l1 ++ l2) = (writes l1 ++ writes l2)%list.
Proof. apply filter_app. Qed.

Lemma replay_prefs_writes tr p : replay_prefs tr p = replay_prefs (writes tr) p.
Proof.
  revert p. induction tr as [|e tr IH]; intros p; auto.
  destruct e; cbn [writes List.filter silent negb replay_prefs]; apply IH.
Qed.

Lemma replay_signals_writes tr d : replay_signals tr d = replay_signals (writes tr) d.
Proof.
  revert d. induction tr as [|e tr IH]; intros d; auto.
  destruct e; cbn [writes List.filter silent negb replay_signals]; apply IH.
Qed.

Section Writes.

Variable build : Build.
Variable env : Env.
Variable argv : list string.
Variable pref0 : Preferences.t.

Let params := parseCommandLine build pref0 (fileSystem env) (arguments env argv).
Let status := fst (main build env argv pref0).
Let final := snd (main build env argv pref0).

Ltac by_cases :=
  repeat (cbn [negb andb orb fst snd Datatypes.app List.filter silent writes is_none] in *;
          match goal with
          | |- context [if ?c then _ else _] =>
              let a := atom_of c in
              lazymatch a with true => fail | false => fail | _ => destruct a eqn:? end
          end);
  cbn [negb andb orb fst snd Datatypes.app List.filter silent writes is_none] in *.

Lemma writes_events s : writes (events build env argv pref0 s) = step_writes build env argv pref0 s.
Proof.
  unfold step_writes, consent_given. unfold events, exit_of.
  destruct s; cbn [step_run]; unfold prelude, gate_consulted, answer, affirmed,
    daemonizing, upgrade_ask, installs; by_cases; reflexivity.
Qed.

(** When the consent step ends the run, the notice was not affirmed. *)
Lemma consent_exit c :
  exit_of build env argv pref0 Consent = Some c ->
  consent_given build env argv pref0 = false /\ c = EXIT_SUCCESS.
Proof.
  unfold consent_given, exit_of. cbn [step_run].
  destruct (gate_consulted build env argv pref0),
    (Preferences.getAcceptedLegal pref0), (affirmed build env);
    cbn [snd negb andb]; intros [= <-]; auto.
Qed.

Lemma writes_concat l :
  writes (List.concat (List.map (events build env argv pref0) l)) = List.concat (List.map (step_writes build env argv pref0) l).
Proof.
  induction l as [|s l IH]; cbn [List.map List.concat]; auto.
  rewrite writes_app, writes_events, IH. reflexivity.
Qed.

(** What the whole run writes, in order. *)
Lemma writes_trace :
  writes (trace final) =
    ((if reached build env argv pref0 Consent then [EvSetWebUiPort (webUiPort params)] else []) ++
     (if reached build env argv pref0 CheckSingleton && consent_given build env argv pref0 then [EvSetAcceptedLegal true] else []) ++
     (if reached build env argv pref0 StartEngine && have_signals build then installs else []))%list.
Proof.
  destruct (last_step build env argv pref0) as (s & c & Hr & Hc).
  destruct (stops_at build env argv pref0 s c Hr Hc) as [_ Ht].
  fold final in Ht. rewrite Ht, writes_app, writes_concat.
  rewrite writes_events.
  unfold reached, reached_in in *.
  destruct s; cbn [before before_in code_order Step_eqb List.map List.concat forallb
                   step_writes Datatypes.app] in *;
    repeat match goal with
           | H : _ && _ = true |- _ => apply andb_true_iff in H as [? ?]
           end;
    repeat match goal with
           | H : is_none ?x = true |- _ =>
               destruct x eqn:?; [discriminate H|]; clear H
           end;
    rewrite ?Hc; cbn [is_none andb Datatypes.app]; rewrite ?app_nil_r;
    try (destruct (consent_exit _ Hc) as [-> _]);
    try reflexivity;
    discriminate Hc.
Qed.

End Writes.

Section FinalState.

Variable build : Build.
Variable env : Env.
Variable argv : list string.
Variable pref0 : Preferences.t.

Let params := parseCommandLine build pref0 (fileSystem env) (arguments env argv).
Let final := snd (main build env argv pref0).

(** The preferences at the end of the run. *)
Lemma main_prefs :
  prefs final =
    let p1 := if reached build env argv pref0 Consent
              then Preferences.setWebUiPort (webUiPort params) pref0 else pref0 in
    if reached build env argv pref0 CheckSingleton && consent_given build env argv pref0
    then Preferences.setAcceptedLegal true p1 else p1.
Proof.
  destruct (main_explained build env argv pref0) as [Hp _]. fold final in Hp.
  rewrite Hp, replay_prefs_writes. subst final params. rewrite writes_trace.
  destruct (reached build env argv pref0 Consent),
    (reached build env argv pref0 CheckSingleton && consent_given build env argv pref0),
    (reached build env argv pref0 StartEngine && have_signals build); reflexivity.
Qed.

(** The dispositions at the end of the run. *)
Lemma main_disposition s :
  disposition final s =
    if reached build env argv pref0 StartEngine && have_signals build
    then replay_signals installs (fun _ => SIG_DFL) s
    else SIG_DFL.
Proof.
  destruct (main_explained build env argv pref0) as [_ Hd]. fold final in Hd.
  rewrite Hd, replay_signals_writes. subst final params. rewrite writes_trace.
  destruct (reached build env argv pref0 Consent),
    (reached build env argv pref0 CheckSingleton && consent_given build env argv pref0),
    (reached build env argv pref0 StartEngine && have_signals build); reflexivity.
Qed.

(** A port inside 1..65535 is written to the preferences and stays. *)
Lemma main_port_applied :
  QStr.isEmpty (unknownParameter params) = true ->
  negb (Q_OS_WIN build) && showVersion params = false ->
  showHelp params = false ->
  (webUiPort params >? 0) && (webUiPort params <=? 65535) = true ->
  In (EvSetWebUiPort (webUiPort params)) (trace final) /\
  Preferences.getWebUiPort (prefs final) = webUiPort params.
Proof.
  intros Hu Hv Hh Hp.
  assert (Hx : step_run build env argv pref0 ParseArgs =
               ((prelude build env ++
                  [EvSetWebUiPort (webUiPort params);
                   EvPutenv "QBITTORRENT" (QBT_VERSION env)] ++
                  (if negb (qputenv env "QBITTORRENT" (QBT_VERSION env))
                   then [EvStderr "Couldn't set environment variable...
"] else []))%list,
                None)).
  { cbn [step_run]. fold params. rewrite Hu, Hv, Hh, Hp. reflexivity. }
  split.
  - apply trace_In. cbn [step_of]. split; [reflexivity|].
    unfold events. rewrite Hx. cbn [fst].
    apply in_or_app. right. left. reflexivity.
  - rewrite main_prefs. cbv zeta.
    assert (Hr : reached build env argv pref0 Consent = true).
    { unfold reached, reached_in, exit_of.
      cbn [code_order before_in Step_eqb forallb]. rewrite Hx. reflexivity. }
    rewrite Hr.
    destruct (reached build env argv pref0 CheckSingleton &&
              consent_given build env argv pref0); reflexivity.
Qed.

End FinalState.

Local Open Scope list_scope.

(** ** Unknown parameters *)

Lemma unknown_nonempty build tok :
  classify build tok = KUnknown -> QStr.isEmpty tok = false.
Proof. destruct tok; [discriminate|reflexivity]. Qed.

(** C8. The first token that looks like a flag and is none of the
    recognised ones becomes [unknownParameter] and ends the parse: the
    request is what the tokens before it gave, whatever follows.  [main]
    then prints the bad-argument message and returns [EXIT_FAILURE] having
    done nothing but its prelude: no help or version, no port written, no
    consent, no singleton check, no upgrade, no engine. *)
Theorem unknown_parameter_stops_startup
  (build : Build) (env : Env) (argv : list string) (pref0 : Preferences.t)
  (prog : string) (pre : list string) (tok : string) (post : list string) :
  arguments env argv = prog :: pre ++ tok :: post ->
  Forall (fun a => passes build a = true) pre ->
  classify build tok = KUnknown ->
  parseCommandLine build pref0 (fileSystem env) (arguments env argv) =
    set_unknownParameter
      (parseLoop build (fileSystem env) (QBtCommandLineParameters_init build pref0) pre) tok /\
  fst (main build env argv pref0) = EXIT_FAILURE /\
  trace (snd (main build env argv pref0)) =
    prelude build env ++ [EvDisplayBadArgMessage (MsgUnknownParameter tok)] /\
  prefs (snd (main build env argv pref0)) = pref0.
Proof.
  intros Hargs Hpre Htok.
  assert (Hparse : parseCommandLine build pref0 (fileSystem env) (arguments env argv) =
                   set_unknownParameter
                     (parseLoop build (fileSystem env)
                        (QBtCommandLineParameters_init build pref0) pre) tok).
  { unfold parseCommandLine. rewrite Hargs. cbn [List.tl].
    rewrite (parseLoop_app build (fileSystem env) _ _ _ Hpre).
    apply parseLoop_unknown. exact Htok. }
  split; [exact Hparse|].
  pose proof (main_unknownParameter build env argv pref0) as H.
  cbv zeta in H. rewrite Hparse in H. cbn [unknownParameter set_unknownParameter] in H.
  apply H. apply (unknown_nonempty build). exact Htok.
Qed.

Lemma unknown_parameter_stops_startup_witness :
  fst (main Sample.nox Sample.env ["qbittorrent-nox"; "a.torrent"; "--bogus"; "-d"]
            Sample.fresh) = EXIT_FAILURE /\
  trace (snd (main Sample.nox Sample.env ["qbittorrent-nox"; "a.torrent"; "--bogus"; "-d"]
                   Sample.fresh)) =
    [EvNewApplication 0 "qBittorrent-1000"; EvParseCommandLine;
     EvDisplayBadArgMessage (MsgUnknownParameter "--bogus")].
Proof.
  destruct (unknown_parameter_stops_startup Sample.nox Sample.env
              ["qbittorrent-nox"; "a.torrent"; "--bogus"; "-d"] Sample.fresh
              "qbittorrent-nox" ["a.torrent"] "--bogus" ["-d"])
    as (_ & Hs & Ht & _).
  - reflexivity.
  - repeat constructor.
  - reflexivity.
  - split; [exact Hs | exact Ht].
Defined.

(** ** The web UI port *)

Lemma port_range_true p : 1 <= p <= 65535 -> (p >? 0) && (p <=? 65535) = true.
Proof.
  intros H. apply andb_true_iff. split; [apply Z.gtb_lt | apply Z.leb_le]; lia.
Qed.

Lemma port_range_false p : ~ 1 <= p <= 65535 -> (p >? 0) && (p <=? 65535) = false.
Proof.
  intros H. apply not_true_is_false. intros Ht. apply H.
  apply andb_true_iff in Ht as [H1 H2].
  apply Z.gtb_lt in H1. apply Z.leb_le in H2. lia.
Qed.

Lemma toInt_number_out_of_range n :
  ~ 1 <= n <= 65535 -> ~ 1 <= QStr.toInt (QStr.number n) <= 65535.
Proof.
  intros H. rewrite QStrFacts.toInt_number.
  destruct ((QStr.INT_MIN <=? n) && (n <=? QStr.INT_MAX)); [exact H | lia].
Qed.

Section PortOption.

Variable build : Build.
Variable env : Env.
Variable argv : list string.
Variable pref0 : Preferences.t.
Variables (prog : string) (pre : list string) (v : string) (post : list string).

Hypothesis Hargs : arguments env argv = prog :: pre ++ portToken v :: post.
Hypothesis Hpre : Forall (fun a => ordinary build a = true) pre.
Hypothesis Hpost : Forall (fun a => neutral build a = true) post.
Hypothesis Hsuffix : QStr.endsWith v ".torrent" = false.

Let params := parseCommandLine build pref0 (fileSystem env) (arguments env argv).

(** The option decides the port; the run gets to the port check. *)
Lemma port_option_decides :
  QStr.contains "=" v = false ->
  webUiPort params = QStr.toInt v /\
  (1 <= QStr.toInt v <= 65535 ->
   In (EvSetWebUiPort (QStr.toInt v)) (trace (snd (main build env argv pref0))) /\
   Preferences.getWebUiPort (prefs (snd (main build env argv pref0))) = QStr.toInt v) /\
  (~ 1 <= QStr.toInt v <= 65535 -> bad_port_exit build env argv pref0).
Proof.
  intros Heq.
  destruct (parseCommandLine_port build pref0 (fileSystem env) prog pre v post
              Hpre Hpost Hsuffix Heq) as (Hp & Hh & Hv & Hu).
  rewrite <- Hargs in Hp, Hh, Hv, Hu. fold params in Hp, Hh, Hv, Hu.
  assert (Hu' : QStr.isEmpty (unknownParameter params) = true) by (rewrite Hu; reflexivity).
  assert (Hv' : negb (Q_OS_WIN build) && showVersion params = false)
    by (rewrite Hv; apply andb_false_r).
  split; [exact Hp|]. split; intros Hr.
  - rewrite <- Hp.
    apply (main_port_applied build env argv pref0 Hu' Hv' Hh).
    fold params. rewrite Hp. apply port_range_true. exact Hr.
  - apply (main_bad_port build env argv pref0 Hu' Hv' Hh).
    fold params. rewrite Hp. apply port_range_false. exact Hr.
Qed.

(** A further ['='] in the value makes the option a no-op. *)
Lemma port_option_skipped :
  QStr.contains "=" v = true ->
  params = parseCommandLine build pref0 (fileSystem env) (prog :: pre ++ post).
Proof.
  intros Heq. subst params. rewrite Hargs. unfold parseCommandLine. cbn [List.tl].
  assert (Hpre' : Forall (fun a => passes build a = true) pre).
  { eapply Forall_impl; [|exact Hpre]. apply ordinary_passes. }
  rewrite !(parseLoop_app build (fileSystem env) _ _ _ Hpre').
  apply parseLoop_port_skipped; assumption.
Qed.

End PortOption.

(** C4 (amended). Let [--webui-port=v] be the last port option of the
    command line, with no unknown flag and neither help nor version around
    it, and [v] free of ['='] and not ending in [.torrent].  Then the
    request's port is [v] read as an integer.  For [v] the decimal [N] with
    1 <= N <= 65535 the port is [N] and [setWebUiPort N] is called; for [N]
    outside that range, and for [v] not a number, [main] prints the bad-port
    message and returns [EXIT_FAILURE] with the preferences untouched: the
    value is not clamped. *)
Theorem webui_port_option
  (build : Build) (env : Env) (argv : list string) (pref0 : Preferences.t)
  (prog : string) (pre : list string) (v : string) (post : list string) :
  arguments env argv = prog :: pre ++ portToken v :: post ->
  Forall (fun a => ordinary build a = true) pre ->
  Forall (fun a => neutral build a = true) post ->
  QStr.endsWith v ".torrent" = false ->
  QStr.contains "=" v = false ->
  webUiPort (parseCommandLine build pref0 (fileSystem env) (arguments env argv)) =
    QStr.toInt v /\
  (forall N, v = QStr.number N -> 1 <= N <= 65535 ->
     webUiPort (parseCommandLine build pref0 (fileSystem env) (arguments env argv)) = N /\
     In (EvSetWebUiPort N) (trace (snd (main build env argv pref0))) /\
     Preferences.getWebUiPort (prefs (snd (main build env argv pref0))) = N) /\
  (forall N, v = QStr.number N -> ~ 1 <= N <= 65535 ->
     bad_port_exit build env argv pref0) /\
  (QStr.stringToLongLong v = None -> bad_port_exit build env argv pref0).
Proof.
  intros Hargs Hpre Hpost Hsuffix Heq.
  destruct (port_option_decides build env argv pref0 prog pre v post
              Hargs Hpre Hpost Hsuffix Heq) as (Hp & Hin & Hout).
  split; [exact Hp|]. split; [|split].
  - intros N HvN HN. rewrite HvN in Hp, Hin.
    rewrite (QStrFacts.toInt_port N HN) in Hp, Hin.
    split; [exact Hp | apply Hin; exact HN].
  - intros N -> HN. apply Hout. apply toInt_number_out_of_range. exact HN.
  - intros Hnone. apply Hout. rewrite (QStrFacts.toInt_unreadable v Hnone). lia.
Qed.

Lemma webui_port_option_witness :
  webUiPort (parseCommandLine Sample.nox Sample.fresh Sample.fs
               ["qbittorrent-nox"; "a.torrent"; "--webui-port=9090"; "-d"]) = 9090 /\
  In (EvSetWebUiPort 9090)
     (trace (snd (main Sample.nox Sample.env
                       ["qbittorrent-nox"; "a.torrent"; "--webui-port=9090"; "-d"]
                       Sample.fresh))).
Proof.
  destruct (webui_port_option Sample.nox Sample.env
              ["qbittorrent-nox"; "a.torrent"; "--webui-port=9090"; "-d"] Sample.fresh
              "qbittorrent-nox" ["a.torrent"] "9090" ["-d"])
    as (_ & H & _).
  - reflexivity.
  - repeat constructor.
  - repeat constructor.
  - reflexivity.
  - reflexivity.
  - destruct (H 9090) as (H1 & H2 & _); [reflexivity | lia | split; assumption].
Defined.

(** C4 as stated fails: of two port options the later one decides, so a
    command line can contain [--webui-port=8080] and yet give port 9090. *)
Lemma webui_port_option_counterexample :
  In (portToken (QStr.number 8080))
     ["qbittorrent"; "--webui-port=8080"; "--webui-port=9090"] /\
  1 <= 8080 <= 65535 /\
  webUiPort (parseCommandLine Sample.gui Sample.accepted Sample.fs
               ["qbittorrent"; "--webui-port=8080"; "--webui-port=9090"]) <> 8080 /\
  ~ In (EvSetWebUiPort 8080)
       (trace (snd (main Sample.gui Sample.env
                         ["qbittorrent"; "--webui-port=8080"; "--webui-port=9090"]
                         Sample.accepted))).
Proof.
  split; [right; left; reflexivity|].
  split; [lia|].
  split; [vm_compute; discriminate|].
  vm_compute. intuition discriminate.
Qed.

(** C3 (amended). Let [--webui-port=v] be the last port option of the
    command line, with no unknown flag and neither help nor version around
    it, and not ending in [.torrent].  A value [v] that is not a number, or
    is missing, and holds no further ['='] does not leave the port alone:
    the failed conversion sets the request's port to 0 and [main] ends at
    the port check with the bad-port message and [EXIT_FAILURE], the
    preferences untouched.  The port keeps its previous value only when [v]
    holds a further ['=']: then the option is skipped, the request is the
    one of the command line without it, and a previous value in 1..65535 is
    written back as usual. *)
Theorem malformed_port_value
  (build : Build) (env : Env) (argv : list string) (pref0 : Preferences.t)
  (prog : string) (pre : list string) (v : string) (post : list string) :
  arguments env argv = prog :: pre ++ portToken v :: post ->
  Forall (fun a => ordinary build a = true) pre ->
  Forall (fun a => neutral build a = true) post ->
  QStr.endsWith v ".torrent" = false ->
  (QStr.contains "=" v = false -> QStr.stringToLongLong v = None ->
     webUiPort (parseCommandLine build pref0 (fileSystem env) (arguments env argv)) = 0 /\
     bad_port_exit build env argv pref0) /\
  (QStr.contains "=" v = true ->
     parseCommandLine build pref0 (fileSystem env) (arguments env argv) =
       parseCommandLine build pref0 (fileSystem env) (prog :: pre ++ post) /\
     webUiPort (parseCommandLine build pref0 (fileSystem env) (arguments env argv)) =
       webUiPort (parseLoop build (fileSystem env)
                    (QBtCommandLineParameters_init build pref0) pre) /\
     (1 <= webUiPort (parseCommandLine build pref0 (fileSystem env) (arguments env argv))
        <= 65535 ->
      In (EvSetWebUiPort
            (webUiPort (parseCommandLine build pref0 (fileSystem env) (arguments env argv))))
         (trace (snd (main build env argv pref0))))).
Proof.
  intros Hargs Hpre Hpost Hsuffix.
  assert (Hpre' : Forall (fun a => passes build a = true) pre).
  { eapply Forall_impl; [|exact Hpre]. apply ordinary_passes. }
  assert (Hall : Forall (fun a => ordinary build a = true) (pre ++ post)).
  { apply Forall_app. split; [exact Hpre|].
    eapply Forall_impl; [|exact Hpost]. apply neutral_ordinary. }
  split.
  - intros Heq Hnone.
    destruct (port_option_decides build env argv pref0 prog pre v post
                Hargs Hpre Hpost Hsuffix Heq) as (Hp & _ & Hout).
    rewrite (QStrFacts.toInt_unreadable v Hnone) in Hp, Hout.
    split; [exact Hp | apply Hout; lia].
  - intros Heq.
    pose proof (port_option_skipped build env argv pref0 prog pre v post
                  Hargs Hpre Hsuffix Heq) as Hskip.
    split; [exact Hskip|]. split.
    + rewrite Hskip. unfold parseCommandLine. cbn [List.tl].
      rewrite (parseLoop_app build (fileSystem env) _ _ _ Hpre').
      apply parseLoop_neutral. exact Hpost.
    + intros Hr.
      destruct (parseLoop_ordinary build (fileSystem env)
                  (QBtCommandLineParameters_init build pref0) (pre ++ post) Hall)
        as (Hh & Hv & Hu).
      apply (main_port_applied build env argv pref0).
      * rewrite Hskip. unfold parseCommandLine. cbn [List.tl]. rewrite Hu. reflexivity.
      * rewrite Hskip. unfold parseCommandLine. cbn [List.tl]. rewrite Hv.
        apply andb_false_r.
      * rewrite Hskip. unfold parseCommandLine. cbn [List.tl]. rewrite Hh. reflexivity.
      * apply port_range_true. exact Hr.
Qed.

Lemma malformed_port_value_witness :
  (webUiPort (parseCommandLine Sample.gui Sample.accepted Sample.fs
                ["qbittorrent"; "--webui-port="; "a.torrent"]) = 0 /\
   fst (main Sample.gui Sample.env ["qbittorrent"; "--webui-port="; "a.torrent"]
             Sample.accepted) = EXIT_FAILURE).
Proof.
  destruct (malformed_port_value Sample.gui Sample.env
              ["qbittorrent"; "--webui-port="; "a.torrent"] Sample.accepted
              "qbittorrent" [] "" ["a.torrent"])
    as (H & _).
  - reflexivity.
  - constructor.
  - repeat constructor.
  - reflexivity.
  - destruct H as (H1 & H2 & _); [reflexivity | reflexivity | split; assumption].
Defined.

(** C3 as stated fails: [--webui-port=abc] replaces the stored port 8080
    by 0, and the run ends in failure. *)
Lemma malformed_port_value_counterexample :
  webUiPort (parseCommandLine Sample.gui Sample.accepted Sample.fs
               ["qbittorrent"; "--webui-port=abc"])
    <> Preferences.getWebUiPort Sample.accepted /\
  fst (main Sample.gui Sample.env ["qbittorrent"; "--webui-port=abc"] Sample.accepted)
    = EXIT_FAILURE.
Proof. split; [vm_compute; discriminate | reflexivity]. Qed.

(** C10. A run whose request passes the checks of [main] (no unknown
    parameter, neither help nor version, port in 1..65535) calls
    [setWebUiPort] with the request's port, option or no option; without a
    port option that port is the stored one.  So a launch with no argument
    at all and a stored port outside 1..65535 ends with the bad-port message
    and [EXIT_FAILURE]. *)
Theorem port_written_back
  (build : Build) (env : Env) (argv : list string) (pref0 : Preferences.t) :
  QStr.isEmpty (unknownParameter
     (parseCommandLine build pref0 (fileSystem env) (arguments env argv))) = true ->
  negb (Q_OS_WIN build) &&
    showVersion (parseCommandLine build pref0 (fileSystem env) (arguments env argv)) = false ->
  showHelp (parseCommandLine build pref0 (fileSystem env) (arguments env argv)) = false ->
  (1 <= webUiPort (parseCommandLine build pref0 (fileSystem env) (arguments env argv))
     <= 65535 ->
   In (EvSetWebUiPort
         (webUiPort (parseCommandLine build pref0 (fileSystem env) (arguments env argv))))
      (trace (snd (main build env argv pref0))) /\
   Preferences.getWebUiPort (prefs (snd (main build env argv pref0))) =
     webUiPort (parseCommandLine build pref0 (fileSystem env) (arguments env argv))) /\
  (Forall (fun a => neutral build a = true) (List.tl (arguments env argv)) ->
   webUiPort (parseCommandLine build pref0 (fileSystem env) (arguments env argv)) =
     Preferences.getWebUiPort pref0) /\
  (List.tl (arguments env argv) = [] ->
   ~ 1 <= Preferences.getWebUiPort pref0 <= 65535 ->
   bad_port_exit build env argv pref0).
Proof.
  intros Hu Hv Hh.
  assert (Hdef : Forall (fun a => neutral build a = true) (List.tl (arguments env argv)) ->
                 webUiPort (parseCommandLine build pref0 (fileSystem env) (arguments env argv)) =
                 Preferences.getWebUiPort pref0).
  { intros Hn. unfold parseCommandLine.
    rewrite (parseLoop_neutral build (fileSystem env) _ _ Hn). reflexivity. }
  split; [|split].
  - intros Hr. apply (main_port_applied build env argv pref0 Hu Hv Hh).
    apply port_range_true. exact Hr.
  - exact Hdef.
  - intros Hnil Hr. apply (main_bad_port build env argv pref0 Hu Hv Hh).
    apply port_range_false. rewrite Hdef; [exact Hr|]. rewrite Hnil. constructor.
Qed.

Lemma port_written_back_witness :
  In (EvSetWebUiPort 8080)
     (trace (snd (main Sample.gui Sample.env ["qbittorrent"] Sample.accepted))) /\
  bad_port_exit Sample.gui Sample.env ["qbittorrent"] Sample.badport.
Proof.
  split.
  - destruct (port_written_back Sample.gui Sample.env ["qbittorrent"] Sample.accepted
                eq_refl eq_refl eq_refl) as (H & _).
    destruct H as [H _]; [cbn; lia | exact H].
  - destruct (port_written_back Sample.gui Sample.env ["qbittorrent"] Sample.badport
                eq_refl eq_refl eq_refl) as (_ & _ & H).
    apply H; [reflexivity | cbn; lia].
Defined.

(** ** The order of the steps *)

(** C1 (amended). Every run goes through the steps in the order
    ParseArgs, Consent, CheckSingleton, RunMigrations, Daemonize,
    ReacquireSingleton, InstallSignalHandlers, StartEngine: no event of a
    later step precedes an event of an earlier one, so the consent step is
    over before the singleton check begins.  And once an event reports that
    a step failed or ended the run, only events of that same step follow:
    no later step begins. *)
Theorem lifecycle_order
  (build : Build) (env : Env) (argv : list string) (pref0 : Preferences.t) :
  in_order code_position (trace (snd (main build env argv pref0))) /\
  short_circuits (trace (snd (main build env argv pref0))).
Proof.
  split; [apply main_in_order | apply main_short_circuits].
Qed.

(** C1 as stated fails: in a first launch of the GUI build the legal notice
    is read, shown and answered before the singleton check is made. *)
Lemma lifecycle_order_counterexample :
  ~ in_order spec_position
      (trace (snd (main Sample.gui Sample.env ["qbittorrent"] Sample.fresh))).
Proof.
  unfold in_order. vm_compute. intros H.
  repeat match goal with
         | H : StronglySorted _ (_ :: _) |- _ =>
             apply StronglySorted_inv in H; destruct H
         | H : Forall _ (_ :: _) |- _ =>
             apply Forall_inv in H || (apply Forall_inv_tail in H)
         end.
  lia.
Qed.

Example first_launch_trace :
  trace (snd (main Sample.gui Sample.env ["qbittorrent"] Sample.fresh)) =
    [EvMigrateRSS; EvNewApplication 0 "qBittorrent-1000"; EvParseCommandLine;
     EvSetWebUiPort 8080; EvPutenv "QBITTORRENT" "v3.3.11";
     EvGetAcceptedLegal false; EvLegalNotice; EvClickedButton AgreeButton;
     EvSetAcceptedLegal true;
     EvIsRunning 0 false;
     EvUpgrade None true;
     EvShowSplashScreen;
     EvSignal SIGINT (Installed SigNormal); EvSignal SIGTERM (Installed SigNormal);
     EvSignal SIGABRT (Installed SigAbnormal); EvSignal SIGSEGV (Installed SigAbnormal);
     EvExec []].
Proof. reflexivity. Qed.

(** ** Runs that end at a given step *)

Section Endings.

Variable build : Build.
Variable env : Env.
Variable argv : list string.
Variable pref0 : Preferences.t.

Let params := parseCommandLine build pref0 (fileSystem env) (arguments env argv).
Let status := fst (main build env argv pref0).
Let final := snd (main build env argv pref0).

(** A reached step that ends the run: its status, its events last, and
    no event of a later step. *)
Lemma ends_at s c :
  reached build env argv pref0 s = true ->
  exit_of build env argv pref0 s = Some c ->
  status = c /\
  (exists l, trace final = l ++ events build env argv pref0 s) /\
  (forall e, In e (trace final) -> In (step_of e) (before s) \/ step_of e = s).
Proof.
  intros Hr Hc. destruct (stops_at build env argv pref0 s c Hr Hc) as [Hs Ht].
  fold status final in Hs, Ht.
  split; [exact Hs|]. split; [eexists; exact Ht|].
  intros e He. rewrite Ht in He. apply in_app_or in He as [He|He].
  - left. apply in_concat in He as (l & Hl & He).
    apply in_map_iff in Hl as (s' & <- & Hs').
    rewrite (events_step build env argv pref0 s' e He). exact Hs'.
  - right. apply (events_step build env argv pref0 s e He).
Qed.

(** Whatever is in the trace, the engine is not started once a step
    before it has ended the run. *)
Lemma no_engine s c :
  reached build env argv pref0 s = true ->
  exit_of build env argv pref0 s = Some c ->
  s <> StartEngine ->
  forall t, ~ In (EvExec t) (trace final).
Proof.
  intros Hr Hc Hne t Hin.
  destruct (ends_at s c Hr Hc) as (_ & _ & H).
  destruct (H _ Hin) as [Hb|Hb]; cbn [step_of] in Hb.
  - destruct s; cbn in Hb; intuition discriminate.
  - congruence.
Qed.

Lemma reached_of_In e :
  In e (trace final) -> reached build env argv pref0 (step_of e) = true.
Proof. intros H. apply (trace_In build env argv pref0) in H. apply H. Qed.

Lemma events_of_In e :
  In e (trace final) -> In e (events build env argv pref0 (step_of e)).
Proof. intros H. apply (trace_In build env argv pref0) in H. apply H. Qed.

(** *** The singleton check *)

Lemma check_events :
  events build env argv pref0 CheckSingleton =
    if isRunning env 0 then
      if daemonizing build env argv pref0
      then [EvIsRunning 0 true;
            EvDisplayBadArgMessage (MsgAlreadyRunning "-d (or --daemon)")]
      else [EvIsRunning 0 true;
            EvDebug "qBittorrent is already running for this user.";
            EvMsleep 300; EvSendParams (torrents params)]
    else [EvIsRunning 0 false].
Proof.
  unfold events. cbn [step_run]. fold params.
  destruct (isRunning env 0), (daemonizing build env argv pref0); reflexivity.
Qed.

Lemma check_exit :
  exit_of build env argv pref0 CheckSingleton =
    if isRunning env 0 then
      if daemonizing build env argv pref0 then Some EXIT_FAILURE else Some EXIT_SUCCESS
    else None.
Proof.
  unfold exit_of. cbn [step_run].
  destruct (isRunning env 0), (daemonizing build env argv pref0); reflexivity.
Qed.

(** *** The upgrade *)

Lemma migrate_events :
  exists l, events build env argv pref0 RunMigrations =
            l ++ [EvUpgrade (upgrade_ask build env argv pref0)
                            (upgrade env (upgrade_ask build env argv pref0))].
Proof.
  unfold events. cbn [step_run fst]. eexists. rewrite app_assoc. reflexivity.
Qed.

Lemma migrate_exit :
  exit_of build env argv pref0 RunMigrations =
    if upgrade env (upgrade_ask build env argv pref0) then None else Some EXIT_FAILURE.
Proof. reflexivity. Qed.

Lemma migrate_upgrade ask ok :
  In (EvUpgrade ask ok) (events build env argv pref0 RunMigrations) ->
  ask = upgrade_ask build env argv pref0 /\
  ok = upgrade env (upgrade_ask build env argv pref0).
Proof.
  unfold events. cbn [step_run fst]. intros H.
  apply in_app_or in H as [H|H]; [destruct (Q_OS_WIN build); simpl in H; intuition discriminate|].
  apply in_app_or in H as [H|H]; [destruct (Q_OS_MAC build); simpl in H; intuition discriminate|].
  destruct H as [[= <- <-]|[]]. auto.
Qed.

End Endings.

(** ** The upgrade *)

(** C6. If the upgrade reports failure, [main] returns [EXIT_FAILURE] at
    once: the failed upgrade is the last thing in the trace, and the engine
    is never started. *)
Theorem upgrade_failure_aborts
  (build : Build) (env : Env) (argv : list string) (pref0 : Preferences.t)
  (ask : option bool) :
  In (EvUpgrade ask false) (trace (snd (main build env argv pref0))) ->
  fst (main build env argv pref0) = EXIT_FAILURE /\
  (exists l, trace (snd (main build env argv pref0)) = l ++ [EvUpgrade ask false]) /\
  (forall t, ~ In (EvExec t) (trace (snd (main build env argv pref0)))).
Proof.
  intros H.
  pose proof (reached_of_In build env argv pref0 _ H) as Hr.
  pose proof (events_of_In build env argv pref0 _ H) as He.
  cbn [step_of] in Hr, He.
  destruct (migrate_upgrade build env argv pref0 _ _ He) as [-> Hok].
  assert (Hx : exit_of build env argv pref0 RunMigrations = Some EXIT_FAILURE).
  { rewrite migrate_exit, <- Hok. reflexivity. }
  destruct (ends_at build env argv pref0 _ _ Hr Hx) as (Hs & (l & Hl) & _).
  split; [exact Hs|]. split.
  - destruct (migrate_events build env argv pref0) as (l' & Hl').
    exists (l ++ l'). rewrite Hl, Hl', <- Hok, app_assoc. reflexivity.
  - apply (no_engine build env argv pref0 _ _ Hr Hx). discriminate.
Qed.

Lemma upgrade_failure_aborts_witness :
  fst (main Sample.gui (Sample.env_with None AgreeButton (fun _ => false) false 0)
            ["qbittorrent"; "a.torrent"] Sample.accepted) = EXIT_FAILURE.
Proof.
  apply (upgrade_failure_aborts Sample.gui
           (Sample.env_with None AgreeButton (fun _ => false) false 0)
           ["qbittorrent"; "a.torrent"] Sample.accepted None).
  vm_compute. tauto.
Defined.

(** ** Another instance is running *)

(** C2 (amended). When the run gets to the singleton check (arguments
    and port accepted, consent gate passed) and [isRunning] reports another
    owner: outside daemon mode the process notes it, sleeps, hands its
    torrent list to the owner through [sendParams] and returns
    [EXIT_SUCCESS]; in daemon mode it prints the already-running message and
    returns [EXIT_FAILURE] without handing anything over.  Either way the
    engine is not started.  A run that fails argument validation (it shows a
    bad-argument message other than the already-running one) or whose legal
    notice is not affirmed returns before the check: [isRunning] is not
    called, nothing is handed over and the engine is not started. *)
Theorem already_running
  (build : Build) (env : Env) (argv : list string) (pref0 : Preferences.t) :
  (In (EvIsRunning 0 true) (trace (snd (main build env argv pref0))) ->
   (daemonizing build env argv pref0 = false ->
      fst (main build env argv pref0) = EXIT_SUCCESS /\
      exists l, trace (snd (main build env argv pref0)) =
        l ++ [EvIsRunning 0 true;
              EvDebug "qBittorrent is already running for this user.";
              EvMsleep 300;
              EvSendParams
                (torrents (parseCommandLine build pref0 (fileSystem env)
                             (arguments env argv)))]) /\
   (daemonizing build env argv pref0 = true ->
      fst (main build env argv pref0) = EXIT_FAILURE /\
      (exists l, trace (snd (main build env argv pref0)) =
         l ++ [EvIsRunning 0 true;
               EvDisplayBadArgMessage (MsgAlreadyRunning "-d (or --daemon)")]) /\
      forall ts, ~ In (EvSendParams ts) (trace (snd (main build env argv pref0)))) /\
   (forall t, ~ In (EvExec t) (trace (snd (main build env argv pref0))))) /\
  ((exists m, In (EvDisplayBadArgMessage m) (trace (snd (main build env argv pref0))) /\
              forall flag, m <> MsgAlreadyRunning flag) \/
   (In EvLegalNotice (trace (snd (main build env argv pref0))) /\
    affirmed build env = false) ->
   (forall i r, ~ In (EvIsRunning i r) (trace (snd (main build env argv pref0)))) /\
   (forall ts, ~ In (EvSendParams ts) (trace (snd (main build env argv pref0)))) /\
   (forall t, ~ In (EvExec t) (trace (snd (main build env argv pref0))))).
Proof.
  split.
  - intros H.
    pose proof (reached_of_In build env argv pref0 _ H) as Hr.
    pose proof (events_of_In build env argv pref0 _ H) as He.
    cbn [step_of] in Hr, He.
    pose proof (check_events build env argv pref0) as Hev.
    pose proof (check_exit build env argv pref0) as Hex.
    destruct (isRunning env 0) eqn:Hrun.
    2:{ rewrite Hev in He. simpl in He. intuition discriminate. }
    destruct (daemonizing build env argv pref0) eqn:Hd.
    + destruct (ends_at build env argv pref0 _ _ Hr Hex) as (Hs & (l & Hl) & Hall).
      split; [discriminate|]. split.
      * intros _. split; [exact Hs|]. split.
        -- exists l. rewrite Hl, Hev. reflexivity.
        -- intros ts Hin.
           pose proof (events_of_In build env argv pref0 _ Hin) as Hin'.
           cbn [step_of] in Hin'. rewrite Hev in Hin'. simpl in Hin'.
           intuition discriminate.
      * apply (no_engine build env argv pref0 _ _ Hr Hex). discriminate.
    + destruct (ends_at build env argv pref0 _ _ Hr Hex) as (Hs & (l & Hl) & Hall).
      split.
      * intros _. split; [exact Hs|]. exists l. rewrite Hl, Hev. reflexivity.
      * split; [discriminate|].
        apply (no_engine build env argv pref0 _ _ Hr Hex). discriminate.
  - intros H.
    assert (Hend : exists s c,
               (s = ParseArgs \/ s = Consent) /\
               reached build env argv pref0 s = true /\
               exit_of build env argv pref0 s = Some c).
    { destruct H as [(m & Hin & Hm)|(Hin & Haff)].
      - pose proof (reached_of_In build env argv pref0 _ Hin) as Hr.
        pose proof (events_of_In build env argv pref0 _ Hin) as He.
        assert (Hs : step_of (EvDisplayBadArgMessage m) = ParseArgs).
        { destruct m; try reflexivity. contradiction (Hm flag). reflexivity. }
        rewrite Hs in Hr, He.
        pose proof (stops_exit build env argv pref0 ParseArgs _ He eq_refl) as Hx.
        destruct (exit_of build env argv pref0 ParseArgs) as [c|] eqn:Ec;
          [|contradiction Hx; reflexivity].
        exists ParseArgs, c. auto.
      - pose proof (reached_of_In build env argv pref0 _ Hin) as Hr.
        pose proof (events_of_In build env argv pref0 _ Hin) as He.
        cbn [step_of] in Hr, He.
        exists Consent, EXIT_SUCCESS. split; [right; reflexivity|].
        split; [exact Hr|].
        unfold events in He. unfold exit_of. cbn [step_run] in *.
        rewrite Haff in *.
        destruct (gate_consulted build env argv pref0);
          [|contradiction He].
        destruct (Preferences.getAcceptedLegal pref0); [|reflexivity].
        simpl in He. intuition discriminate. }
    destruct Hend as (s & c & Hs & Hr & Hc).
    destruct (ends_at build env argv pref0 s c Hr Hc) as (_ & _ & Hall).
    assert (Hno : forall e, step_of e <> ParseArgs -> step_of e <> Consent ->
                            ~ In e (trace (snd (main build env argv pref0)))).
    { intros e H1 H2 Hin. destruct (Hall e Hin) as [Hb|Hb].
      - destruct Hs as [-> | ->]; cbn in Hb; intuition congruence.
      - destruct Hs as [-> | ->]; congruence. }
    split; [|split].
    + intros i r. apply Hno; destruct i; discriminate.
    + intros ts. apply Hno; discriminate.
    + intros t. apply Hno; discriminate.
Qed.

Lemma already_running_witness :
  (fst (main Sample.gui (Sample.env_with None AgreeButton (fun _ => true) true 0)
             ["qbittorrent"; "magnet:?xt=abc"] Sample.accepted) = EXIT_SUCCESS /\
   In (EvSendParams ["magnet:?xt=abc"])
      (trace (snd (main Sample.gui (Sample.env_with None AgreeButton (fun _ => true) true 0)
                        ["qbittorrent"; "magnet:?xt=abc"] Sample.accepted)))) /\
  (forall i r,
     ~ In (EvIsRunning i r)
          (trace (snd (main Sample.gui
                         (Sample.env_with None CancelButton (fun _ => true) true 0)
                         ["qbittorrent"; "magnet:?xt=abc"] Sample.fresh)))).
Proof.
  split.
  - destruct (already_running Sample.gui
                (Sample.env_with None AgreeButton (fun _ => true) true 0)
                ["qbittorrent"; "magnet:?xt=abc"] Sample.accepted) as (H & _).
    destruct H as (H & _); [vm_compute; tauto|].
    destruct (H eq_refl) as (Hs & l & Hl). split; [exact Hs|].
    rewrite Hl. apply in_or_app. right. simpl. tauto.
  - destruct (already_running Sample.gui
                (Sample.env_with None CancelButton (fun _ => true) true 0)
                ["qbittorrent"; "magnet:?xt=abc"] Sample.fresh) as (_ & H).
    destruct H as (H & _); [|exact H].
    right. split; [vm_compute; tauto | reflexivity].
Defined.

(** C2 as stated fails: with another instance running, a first launch of
    the GUI build whose user declines the legal notice returns before the
    singleton check and hands nothing over. *)
Lemma already_running_counterexample :
  isRunning (Sample.env_with None CancelButton (fun _ => true) true 0) 0 = true /\
  daemonizing Sample.gui (Sample.env_with None CancelButton (fun _ => true) true 0)
              ["qbittorrent"; "magnet:?xt=abc"] Sample.fresh = false /\
  ~ In (EvSendParams ["magnet:?xt=abc"])
       (trace (snd (main Sample.gui (Sample.env_with None CancelButton (fun _ => true) true 0)
                         ["qbittorrent"; "magnet:?xt=abc"] Sample.fresh))).
Proof.
  split; [reflexivity|]. split; [reflexivity|].
  vm_compute. intuition discriminate.
Qed.

(** ** Daemon mode *)

Section Detach.

Variable build : Build.
Variable env : Env.
Variable argv : list string.
Variable pref0 : Preferences.t.

Let status := fst (main build env argv pref0).
Let final := snd (main build env argv pref0).

Hypothesis Hd : daemonizing build env argv pref0 = true.

Lemma detach_events :
  events build env argv pref0 Daemonize =
    if daemon env =? 0 then [EvAppReset; EvDaemon (daemon env)]
    else [EvAppReset; EvDaemon (daemon env);
          EvCritical "Something went wrong while daemonizing, exiting..."].
Proof.
  unfold daemonizing in Hd. apply andb_true_iff in Hd as [Hg Hs].
  unfold events. cbn [step_run]. rewrite Hg, Hs.
  destruct (daemon env =? 0); reflexivity.
Qed.

Lemma detach_exit :
  exit_of build env argv pref0 Daemonize =
    if daemon env =? 0 then None else Some EXIT_FAILURE.
Proof.
  unfold daemonizing in Hd. apply andb_true_iff in Hd as [Hg Hs].
  unfold exit_of. cbn [step_run]. rewrite Hg, Hs.
  destruct (daemon env =? 0); reflexivity.
Qed.

Lemma reacquire_events :
  events build env argv pref0 ReacquireSingleton =
    [EvNewApplication 1 ("qBittorrent-" ++ userIDString env)%string;
     EvIsRunning 1 (isRunning env 1)].
Proof. unfold events. cbn [step_run]. rewrite Hd. reflexivity. Qed.

Lemma reacquire_exit :
  exit_of build env argv pref0 ReacquireSingleton =
    if isRunning env 1 then Some EXIT_FAILURE else None.
Proof. unfold exit_of. cbn [step_run]. rewrite Hd. reflexivity. Qed.

(** After a successful detach the lock is tried again, directly. *)
Lemma reacquired :
  reached build env argv pref0 Daemonize = true ->
  daemon env = 0 ->
  exists l1 l2,
    trace final =
      l1 ++ [EvAppReset; EvDaemon 0;
             EvNewApplication 1 ("qBittorrent-" ++ userIDString env)%string;
             EvIsRunning 1 (isRunning env 1)] ++ l2.
Proof.
  intros Hr H0.
  pose proof detach_events as Hde. pose proof detach_exit as Hdx.
  rewrite H0 in Hde, Hdx. cbn in Hde, Hdx.
  pose proof reacquire_events as Hre.
  assert (Hr' : reached build env argv pref0 ReacquireSingleton = true).
  { unfold reached, reached_in in *.
    cbn [code_order before_in Step_eqb forallb] in *.
    rewrite Hdx. cbn [is_none]. rewrite !andb_true_r in *. exact Hr. }
  destruct (last_step build env argv pref0) as (s & c & Hs & Hc).
  destruct (stops_at build env argv pref0 s c Hs Hc) as [_ Ht]. fold final in Ht.
  assert (Hcases : s = ReacquireSingleton \/ s = InstallSignalHandlers \/ s = StartEngine).
  { destruct s; auto;
      rewrite (reached_passed build env argv pref0 _ ReacquireSingleton Hr') in Hc;
      try discriminate; cbn; tauto. }
  destruct Hcases as [-> | [-> | ->]];
    cbn [before before_in code_order Step_eqb List.map List.concat] in Ht;
    rewrite Hde, Hre in Ht; rewrite Ht.
  - exists (events build env argv pref0 ParseArgs ++ events build env argv pref0 Consent ++
            events build env argv pref0 CheckSingleton ++
            events build env argv pref0 RunMigrations), [].
    rewrite <- !app_assoc. reflexivity.
  - exists (events build env argv pref0 ParseArgs ++ events build env argv pref0 Consent ++
            events build env argv pref0 CheckSingleton ++
            events build env argv pref0 RunMigrations),
           (events build env argv pref0 InstallSignalHandlers).
    rewrite <- !app_assoc. reflexivity.
  - exists (events build env argv pref0 ParseArgs ++ events build env argv pref0 Consent ++
            events build env argv pref0 CheckSingleton ++
            events build env argv pref0 RunMigrations),
           (events build env argv pref0 InstallSignalHandlers ++
            events build env argv pref0 StartEngine).
    rewrite <- !app_assoc. reflexivity.
Qed.

End Detach.

(** C9. In daemon mode, a run that gets to the detach step calls
    [daemon].  When that succeeds a new application object is built and
    [isRunning] is asked again, directly after the detach; if it reports
    another owner, [main] returns [EXIT_FAILURE] on the spot.  When the
    detach itself fails, [main] reports it and returns [EXIT_FAILURE].  In
    both failures the engine is never started. *)
Theorem daemonize_reacquires
  (build : Build) (env : Env) (argv : list string) (pref0 : Preferences.t) :
  daemonizing build env argv pref0 = true ->
  reached build env argv pref0 Daemonize = true ->
  In (EvDaemon (daemon env)) (trace (snd (main build env argv pref0))) /\
  (daemon env = 0 ->
     (exists l1 l2,
        trace (snd (main build env argv pref0)) =
          l1 ++ [EvAppReset; EvDaemon 0;
                 EvNewApplication 1 ("qBittorrent-" ++ userIDString env)%string;
                 EvIsRunning 1 (isRunning env 1)] ++ l2) /\
     (isRunning env 1 = true ->
        fst (main build env argv pref0) = EXIT_FAILURE /\
        (exists l, trace (snd (main build env argv pref0)) = l ++ [EvIsRunning 1 true]) /\
        forall t, ~ In (EvExec t) (trace (snd (main build env argv pref0))))) /\
  (daemon env <> 0 ->
     fst (main build env argv pref0) = EXIT_FAILURE /\
     (exists l, trace (snd (main build env argv pref0)) =
        l ++ [EvAppReset; EvDaemon (daemon env);
              EvCritical "Something went wrong while daemonizing, exiting..."]) /\
     forall t, ~ In (EvExec t) (trace (snd (main build env argv pref0)))).
Proof.
  intros Hd Hr.
  pose proof (detach_events build env argv pref0 Hd) as Hde.
  pose proof (detach_exit build env argv pref0 Hd) as Hdx.
  split; [|split].
  - apply trace_In. cbn [step_of]. split; [exact Hr|].
    rewrite Hde. destruct (daemon env =? 0); simpl; tauto.
  - intros H0. split; [apply reacquired; assumption|].
    intros Hrun.
    assert (Hr' : reached build env argv pref0 ReacquireSingleton = true).
    { rewrite H0 in Hdx. cbn in Hdx. unfold reached, reached_in in *.
      cbn [code_order before_in Step_eqb forallb] in *.
      rewrite Hdx. cbn [is_none]. rewrite !andb_true_r in *. exact Hr. }
    pose proof (reacquire_exit build env argv pref0 Hd) as Hrx. rewrite Hrun in Hrx.
    destruct (ends_at build env argv pref0 _ _ Hr' Hrx) as (Hs & (l & Hl) & _).
    split; [exact Hs|]. split.
    + rewrite (reacquire_events build env argv pref0 Hd), Hrun in Hl.
      exists (l ++ [EvNewApplication 1 ("qBittorrent-" ++ userIDString env)%string]).
      rewrite Hl, <- app_assoc. reflexivity.
    + apply (no_engine build env argv pref0 _ _ Hr' Hrx). discriminate.
  - intros Hne. apply Z.eqb_neq in Hne. rewrite Hne in Hde, Hdx.
    destruct (ends_at build env argv pref0 _ _ Hr Hdx) as (Hs & (l & Hl) & _).
    split; [exact Hs|]. split.
    + exists l. rewrite Hl, Hde. reflexivity.
    + apply (no_engine build env argv pref0 _ _ Hr Hdx). discriminate.
Qed.

Lemma daemonize_reacquires_witness :
  fst (main Sample.nox
            (Sample.env_with None AgreeButton (fun i => Nat.eqb i 1) true 0)
            ["qbittorrent-nox"; "-d"] Sample.accepted) = EXIT_FAILURE.
Proof.
  destruct (daemonize_reacquires Sample.nox
              (Sample.env_with None AgreeButton (fun i => Nat.eqb i 1) true 0)
              ["qbittorrent-nox"; "-d"] Sample.accepted eq_refl eq_refl)
    as (_ & H & _).
  destruct (H eq_refl) as (_ & H').
  destruct (H' eq_refl) as (Hs & _). exact Hs.
Defined.

(** ** The legal notice *)


Section ConsentGate.

Variable build : Build.
Variable env : Env.
Variable argv : list string.
Variable pref0 : Preferences.t.

Let status := fst (main build env argv pref0).
Let final := snd (main build env argv pref0).

Lemma consent_events :
  events build env argv pref0 Consent =
    if gate_consulted build env argv pref0 then
      if Preferences.getAcceptedLegal pref0 then [EvGetAcceptedLegal true]
      else if affirmed build env
           then [EvGetAcceptedLegal false; EvLegalNotice; answer build env;
                 EvSetAcceptedLegal true]
           else [EvGetAcceptedLegal false; EvLegalNotice; answer build env]
    else [].
Proof.
  unfold events. cbn [step_run].
  destruct (gate_consulted build env argv pref0), (Preferences.getAcceptedLegal pref0),
    (affirmed build env); reflexivity.
Qed.

Lemma consent_exit_of :
  exit_of build env argv pref0 Consent =
    if gate_consulted build env argv pref0 && negb (Preferences.getAcceptedLegal pref0)
       && negb (affirmed build env)
    then Some EXIT_SUCCESS else None.
Proof.
  unfold exit_of. cbn [step_run].
  destruct (gate_consulted build env argv pref0), (Preferences.getAcceptedLegal pref0),
    (affirmed build env); reflexivity.
Qed.

Lemma reached_check :
  reached build env argv pref0 CheckSingleton =
    reached build env argv pref0 Consent &&
    is_none (exit_of build env argv pref0 Consent).
Proof.
  unfold reached, reached_in. cbn [code_order before_in Step_eqb forallb].
  rewrite !andb_true_r. reflexivity.
Qed.


(** The notice is shown only by a consulted gate that finds the record
    unset. *)
Lemma notice_shown :
  In EvLegalNotice (trace final) ->
  reached build env argv pref0 Consent = true /\
  gate_consulted build env argv pref0 = true /\
  Preferences.getAcceptedLegal pref0 = false.
Proof.
  intros H.
  pose proof (reached_of_In build env argv pref0 _ H) as Hr.
  pose proof (events_of_In build env argv pref0 _ H) as He.
  cbn [step_of] in Hr, He. rewrite consent_events in He.
  destruct (gate_consulted build env argv pref0), (Preferences.getAcceptedLegal pref0);
    auto; simpl in He; intuition discriminate.
Qed.


End ConsentGate.



(** ** Signals *)

Section Delivery.

Variable build : Build.
Variable env : Env.

Lemma normal_notice_diagnostic signum :
  forallb diagnostic (normal_notice build signum) = true.
Proof. unfold normal_notice. destruct (writes_notice build); reflexivity. Qed.

Lemma abnormal_notice_diagnostic signum :
  forallb diagnostic (abnormal_notice build env signum) = true.
Proof.
  unfold abnormal_notice.
  destruct (writes_notice build), (STACKTRACE_WIN build); reflexivity.
Qed.

Lemma deliver_S fuel signum w :
  deliver build env (S fuel) signum w =
    match disposition w signum with
    | SIG_DFL => Some (snd (emit (EvDefaultAction signum) w))
    | Installed SigNormal => Some (snd (sigNormalHandler build signum w))
    | Installed SigAbnormal =>
        match sigAbnormalHandler build env
                (fun s w0 =>
                   match deliver build env fuel s (snd (emit (EvRaise s) w0)) with
                   | Some w1 => (Next tt, w1)
                   | None => (Return EXIT_FAILURE, w0)
                   end) signum w with
        | (Next _, w1) => Some w1
        | (Return _, _) => None
        end
    end.
Proof. reflexivity. Qed.

Lemma deliver_default fuel signum w :
  disposition w signum = SIG_DFL ->
  deliver build env (S fuel) signum w =
    Some {| prefs := prefs w; disposition := disposition w;
            instances := instances w;
            trace := trace w ++ [EvDefaultAction signum] |}.
Proof. intros H. rewrite deliver_S, H. reflexivity. Qed.

Lemma sigNormalHandler_world signum w :
  snd (sigNormalHandler build signum w) =
    handled signum (normal_notice build signum ++ [EvSignal signum SIG_DFL; EvAppExit]) w.
Proof.
  unfold sigNormalHandler, normal_notice, handled, when, bind, emit, signal, ret.
  destruct (writes_notice build); cbn [snd fst trace prefs disposition instances];
    rewrite <- ?app_assoc; reflexivity.
Qed.

Lemma deliver_normal fuel signum w :
  disposition w signum = Installed SigNormal ->
  deliver build env (S fuel) signum w =
    Some (handled signum (normal_notice build signum ++ [EvSignal signum SIG_DFL; EvAppExit]) w).
Proof.
  intros H. rewrite deliver_S, H, sigNormalHandler_world. reflexivity.
Qed.

Lemma deliver_abnormal fuel signum w :
  disposition w signum = Installed SigAbnormal ->
  deliver build env (S (S fuel)) signum w =
    Some (handled signum
            (abnormal_notice build env signum ++
             [EvSignal signum SIG_DFL; EvRaise signum; EvDefaultAction signum]) w).
Proof.
  intros H. rewrite deliver_S, H.
  unfold sigAbnormalHandler, abnormal_notice, handled, when, bind, emit, signal, ret.
  destruct (writes_notice build), (STACKTRACE_WIN build);
    cbn [snd fst trace prefs disposition instances];
    rewrite deliver_S; cbn [disposition]; rewrite Z.eqb_refl;
    unfold emit; cbn [snd fst trace prefs disposition instances];
    rewrite <- ?app_assoc; reflexivity.
Qed.

End Delivery.

(** The handlers [main] leaves installed when it starts the engine. *)
Lemma installed_handlers build env argv pref0 t signum :
  have_signals build = true ->
  In (EvExec t) (trace (snd (main build env argv pref0))) ->
  In signum [SIGINT; SIGTERM; SIGABRT; SIGSEGV] ->
  disposition (snd (main build env argv pref0)) signum =
    Installed (if abnormal signum then SigAbnormal else SigNormal).
Proof.
  intros Hs Hin Hsig.
  pose proof (reached_of_In build env argv pref0 _ Hin) as Hr. cbn [step_of] in Hr.
  rewrite main_disposition, Hr, Hs. cbn [andb].
  simpl in Hsig. destruct Hsig as [<-|[<-|[<-|[<-|[]]]]]; reflexivity.
Qed.

(** C7. Once [main] has installed the handlers and started the engine, the
    first delivery of SIGINT, SIGTERM, SIGABRT or SIGSEGV runs the installed
    handler, which (after its notices) sets the disposition of that signal
    back to the default before it does anything else: the normal handler
    then asks the application to exit, the abnormal one raises the same
    signal again, and that raise already gets the default action.  When the
    handler is done the disposition is the default one, so a further
    delivery of the signal gets the default action and no handler. *)
Theorem signal_handled_once
  (build : Build) (env : Env) (argv : list string) (pref0 : Preferences.t)
  (t : list string) (signum : Z) :
  have_signals build = true ->
  In (EvExec t) (trace (snd (main build env argv pref0))) ->
  In signum [SIGINT; SIGTERM; SIGABRT; SIGSEGV] ->
  exists w1,
    (forall fuel, (2 <= fuel)%nat ->
       deliver build env fuel signum (snd (main build env argv pref0)) = Some w1) /\
    trace w1 =
      trace (snd (main build env argv pref0)) ++
      (if abnormal signum
       then abnormal_notice build env signum ++
            [EvSignal signum SIG_DFL; EvRaise signum; EvDefaultAction signum]
       else normal_notice build signum ++
            [EvSignal signum SIG_DFL; EvAppExit]) /\
    forallb diagnostic (abnormal_notice build env signum) = true /\
    forallb diagnostic (normal_notice build signum) = true /\
    disposition w1 signum = SIG_DFL /\
    (forall fuel, (1 <= fuel)%nat ->
       exists w2, deliver build env fuel signum w1 = Some w2 /\
                  trace w2 = trace w1 ++ [EvDefaultAction signum] /\
                  disposition w2 signum = SIG_DFL).
Proof.
  intros Hs Hin Hsig.
  pose proof (installed_handlers build env argv pref0 t signum Hs Hin Hsig) as Hd.
  set (w := snd (main build env argv pref0)) in *.
  assert (Hafter : forall evs,
             disposition (handled signum evs w) signum = SIG_DFL /\
             forall fuel, (1 <= fuel)%nat ->
               exists w2, deliver build env fuel signum (handled signum evs w) = Some w2 /\
                          trace w2 = trace (handled signum evs w) ++ [EvDefaultAction signum] /\
                          disposition w2 signum = SIG_DFL).
  { intros evs.
    assert (H0 : disposition (handled signum evs w) signum = SIG_DFL).
    { cbn [handled disposition]. rewrite Z.eqb_refl. reflexivity. }
    split; [exact H0|]. intros [|fuel] Hf; [lia|].
    eexists. split; [apply deliver_default; exact H0|]. split; [reflexivity|exact H0]. }
  destruct (abnormal signum) eqn:Ha.
  - eexists. split; [|split; [|split; [|split]]].
    + intros [|[|fuel]] Hf; try lia. apply deliver_abnormal. exact Hd.
    + reflexivity.
    + apply abnormal_notice_diagnostic.
    + apply normal_notice_diagnostic.
    + apply Hafter.
  - eexists. split; [|split; [|split; [|split]]].
    + intros [|fuel] Hf; try lia. apply deliver_normal. exact Hd.
    + reflexivity.
    + apply abnormal_notice_diagnostic.
    + apply normal_notice_diagnostic.
    + apply Hafter.
Qed.

Lemma signal_handled_once_witness :
  exists w1,
    deliver Sample.gui Sample.env 2 SIGSEGV
            (snd (main Sample.gui Sample.env ["qbittorrent"] Sample.accepted)) = Some w1 /\
    disposition w1 SIGSEGV = SIG_DFL.
Proof.
  destruct (signal_handled_once Sample.gui Sample.env ["qbittorrent"] Sample.accepted
              [] SIGSEGV eq_refl) as (w1 & H1 & _ & _ & _ & H2 & _).
  - vm_compute. tauto.
  - simpl. tauto.
  - exists w1. split; [apply H1; lia | exact H2].
Defined.

Example segfault_trace :
  option_map trace
    (deliver Sample.gui Sample.env 2 SIGSEGV
       (snd (main Sample.gui Sample.env ["qbittorrent"] Sample.accepted))) =
  Some (trace (snd (main Sample.gui Sample.env ["qbittorrent"] Sample.accepted)) ++
        [EvWrite (sigAbnormalHandler_str1); EvWrite "SIGSEGV";
         EvWrite (sigAbnormalHandler_str2 Sample.env); EvPrintStacktrace;
         EvSignal SIGSEGV SIG_DFL; EvRaise SIGSEGV; EvDefaultAction SIGSEGV]).
Proof. reflexivity. Qed.

(** * Further properties of the code *)
(** ** More of the command-line interpreter *)

Section RequestFacts.

Variable build : Build.
Variable fs : FileSystem.

Lemma isHelp_flag a : isHelp a = true -> a = "-h" \/ a = "--help".
Proof.
  unfold isHelp. intros H. apply orb_true_iff in H as [H|H];
    apply String.eqb_eq in H; auto.
Qed.

Lemma isVersion_flag a :
  isVersion build a = true -> Q_OS_WIN build = false /\ (a = "-v" \/ a = "--version").
Proof.
  unfold isVersion. intros H. apply andb_true_iff in H as [Hb H].
  split; [destruct (Q_OS_WIN build); [discriminate|reflexivity]|].
  apply orb_true_iff in H as [H|H]; apply String.eqb_eq in H; auto.
Qed.

Lemma isNoSplash_flag a :
  isNoSplash build a = true -> DISABLE_GUI build = false /\ a = "--no-splash".
Proof.
  unfold isNoSplash. intros H. apply andb_true_iff in H as [Hb H].
  split; [destruct (DISABLE_GUI build); [discriminate|reflexivity]|].
  apply String.eqb_eq in H; auto.
Qed.

Lemma isDaemon_flag a :
  isDaemon build a = true -> DISABLE_GUI build = true /\ (a = "-d" \/ a = "--daemon").
Proof.
  unfold isDaemon. intros H. apply andb_true_iff in H as [Hb H].
  split; [exact Hb|].
  apply orb_true_iff in H as [H|H]; apply String.eqb_eq in H; auto.
Qed.

(** The branch a token takes, by the tests of the loop body. *)
Lemma classify_cases a :
  match classify build a with
  | KHelp => isHelp a = true /\ isVersion build a = false /\
             isNoSplash build a = false /\ isDaemon build a = false
  | KVersion => isHelp a = false /\ isVersion build a = true /\
                isNoSplash build a = false /\ isDaemon build a = false
  | KWebUiPort => isHelp a = false /\ isVersion build a = false /\
                  isNoSplash build a = false /\ isDaemon build a = false
  | KNoSplash => isHelp a = false /\ isVersion build a = false /\
                 isNoSplash build a = true /\ isDaemon build a = false
  | KDaemon => isHelp a = false /\ isVersion build a = false /\
               isNoSplash build a = false /\ isDaemon build a = true
  | KUnknown | KTorrent =>
      isHelp a = false /\ isVersion build a = false /\
      isNoSplash build a = false /\ isDaemon build a = false
  end.
Proof.
  unfold classify.
  destruct (isHelp a) eqn:Hh.
  { apply isHelp_flag in Hh as [->| ->]; cbn;
      unfold isVersion, isNoSplash, isDaemon; cbn;
      rewrite ?andb_false_r; auto. }
  destruct (isVersion build a) eqn:Hv.
  { apply isVersion_flag in Hv as [Hw [->| ->]]; cbn;
      unfold isNoSplash, isDaemon; cbn; rewrite ?andb_false_r; auto. }
  destruct (isNoSplash build a) eqn:Hn.
  { apply isNoSplash_flag in Hn as [Hg ->]; cbn;
      unfold isDaemon; cbn; rewrite ?andb_false_r; auto. }
  destruct (isDaemon build a) eqn:Hd.
  { apply isDaemon_flag in Hd as [Hg [->| ->]]; cbn; auto. }
  destruct (looksLikeFlag a), (isWebUiPort a); auto.
Qed.

Lemma torrentPath_eq a :
  torrentPath fs a = if exists_ fs a then absoluteFilePath fs a else a.
Proof. reflexivity. Qed.

(** The loop, from any intermediate request [r] onwards. *)
Lemma parseLoop_closed r l :
  torrents (parseLoop build fs r l) =
    torrents r ++ List.map (torrentPath fs)
                    (List.filter (fun a => negb (looksLikeFlag a)) (parsed build l)) /\
  showHelp (parseLoop build fs r l) = showHelp r || existsb isHelp (parsed build l) /\
  showVersion (parseLoop build fs r l) =
    showVersion r || existsb (isVersion build) (parsed build l) /\
  noSplash (parseLoop build fs r l) =
    noSplash r || existsb (isNoSplash build) (parsed build l) /\
  shouldDaemonize (parseLoop build fs r l) =
    shouldDaemonize r || existsb (isDaemon build) (parsed build l) /\
  unknownParameter (parseLoop build fs r l) =
    match unparsed build l with [] => unknownParameter r | a :: _ => a end.
Proof.
  revert r. induction l as [|a l IH]; intros r.
  - cbn. rewrite app_nil_r, !orb_false_r. auto 6.
  - pose proof (classify_cases a) as Hc.
    pose proof (torrentPath_eq a) as Ht.
    cbn [parseLoop parsed unparsed]. unfold passes, classify in *.
    destruct (looksLikeFlag a) eqn:E0, (isHelp a) eqn:E1, (isVersion build a) eqn:E2,
             (isWebUiPort a) eqn:E3, (isNoSplash build a) eqn:E4,
             (isDaemon build a) eqn:E5;
      try (destruct Hc as (? & ? & ? & ?); discriminate); clear Hc;
      destruct (exists_ fs a);
      destruct (Z.of_nat (List.length (QStr.split "=" a)) =? 2);
      cbn [List.filter List.map existsb];
      rewrite ?E0, ?E1, ?E2, ?E4, ?E5, ?Ht;
      cbn [negb andb orb List.map];
      rewrite ?Ht;
      repeat match goal with
             | |- context [parseLoop build fs ?r' l] =>
                 destruct (IH r') as (-> & -> & -> & -> & -> & ->)
             end;
      cbn [torrents showHelp showVersion noSplash shouldDaemonize unknownParameter
           set_showHelp set_showVersion set_noSplash set_shouldDaemonize
           set_webUiPort add_torrent set_unknownParameter];
      rewrite <- ?app_assoc, ?orb_true_r, ?orb_false_r, ?app_nil_r; cbn [Datatypes.app];
      auto 6.
Qed.

Lemma unparsed_nil l : forallb (passes build) l = true <-> unparsed build l = [].
Proof.
  induction l as [|a l IH]; cbn [forallb unparsed]; [tauto|].
  destruct (passes build a); cbn [andb]; [exact IH|].
  split; discriminate.
Qed.

Lemma unparsed_head l a rest :
  unparsed build l = a :: rest -> classify build a = KUnknown.
Proof.
  induction l as [|b l IH]; cbn [unparsed]; [discriminate|].
  destruct (passes build b) eqn:Hb; [exact IH|].
  intros [= -> ->]. unfold passes in Hb.
  destruct (classify build a); try discriminate; reflexivity.
Qed.

End RequestFacts.

(** X1. The torrent list of the request holds, in the order of the command
    line, one entry for every token that is not an option, up to the first
    unknown parameter: the absolute path when the token names an existing
    file, the token itself otherwise.  Options between the names do not
    disturb the list, and nothing is dropped or merged. *)
Theorem request_torrents
  (build : Build) (pref : Preferences.t) (fs : FileSystem) (args : list string) :
  torrents (parseCommandLine build pref fs args) =
    List.map (torrentPath fs)
      (List.filter (fun a => negb (looksLikeFlag a)) (parsed build (List.tl args))).
Proof.
  unfold parseCommandLine.
  destruct (parseLoop_closed build fs (QBtCommandLineParameters_init build pref)
              (List.tl args)) as (H & _).
  exact H.
Qed.

(** X2. The switches of the request: each is on exactly when one of its
    spellings is among the tokens parsed, however often and in whatever
    order; the splash screen is off when the preferences or the command
    line turn it off, so the command line cannot turn it back on. *)
Theorem request_switches
  (build : Build) (pref : Preferences.t) (fs : FileSystem) (args : list string) :
  showHelp (parseCommandLine build pref fs args) =
    existsb isHelp (parsed build (List.tl args)) /\
  showVersion (parseCommandLine build pref fs args) =
    existsb (isVersion build) (parsed build (List.tl args)) /\
  noSplash (parseCommandLine build pref fs args) =
    negb (DISABLE_GUI build) && Preferences.isSplashScreenDisabled pref
    || existsb (isNoSplash build) (parsed build (List.tl args)) /\
  shouldDaemonize (parseCommandLine build pref fs args) =
    existsb (isDaemon build) (parsed build (List.tl args)).
Proof.
  unfold parseCommandLine.
  destruct (parseLoop_closed build fs (QBtCommandLineParameters_init build pref)
              (List.tl args)) as (_ & H1 & H2 & H3 & H4 & _).
  rewrite H1, H2, H3, H4. cbn [showHelp showVersion noSplash shouldDaemonize
                                QBtCommandLineParameters_init orb].
  destruct (DISABLE_GUI build); auto.
Qed.

(** X3. A command line is refused for an unknown parameter exactly when one
    of its tokens (after the program name) looks like an option and is none
    of the options of the build; the parameter reported is the first such
    token. *)
Theorem request_refused_iff
  (build : Build) (pref : Preferences.t) (fs : FileSystem) (args : list string) :
  QStr.isEmpty (unknownParameter (parseCommandLine build pref fs args)) =
    forallb (passes build) (List.tl args) /\
  unknownParameter (parseCommandLine build pref fs args) =
    List.hd "" (unparsed build (List.tl args)).
Proof.
  unfold parseCommandLine.
  destruct (parseLoop_closed build fs (QBtCommandLineParameters_init build pref)
              (List.tl args)) as (_ & _ & _ & _ & _ & H).
  rewrite H. cbn [unknownParameter QBtCommandLineParameters_init].
  pose proof (unparsed_nil build (List.tl args)) as Hn.
  pose proof (unparsed_head build (List.tl args)) as Hh.
  destruct (unparsed build (List.tl args)) as [|a rest].
  - split; [|reflexivity]. symmetry. apply Hn. reflexivity.
  - cbn [List.hd]. split; [|reflexivity].
    rewrite (unknown_nonempty build a (Hh a rest eq_refl)).
    destruct (forallb (passes build) (List.tl args)); [|reflexivity].
    destruct Hn as [Hn _]. discriminate (Hn eq_refl).
Qed.

(** *** Names are not options *)

Lemma endsWith_length s p :
  QStr.endsWith s p = true -> (String.length p <= String.length s)%nat.
Proof.
  induction s as [|c s IH]; cbn [QStr.endsWith].
  - destruct (String.eqb_spec "" p) as [<-|_]; [auto|discriminate].
  - destruct (String.eqb_spec (String c s) p) as [<-|_]; [auto|].
    intros H. specialize (IH H). cbn [String.length]. lia.
Qed.

Lemma startsWith_dashes a :
  QStr.startsWith a "-" = false -> QStr.startsWith a "--" = false.
Proof.
  destruct a as [|c a]; [reflexivity|].
  unfold QStr.startsWith. cbn [String.prefix].
  destruct (Ascii.ascii_dec "-" c) as [_|_]; [|reflexivity].
  destruct a; discriminate.
Qed.

(** A token that does not begin with a dash, or that ends in [.torrent],
    never opens the option branch of the loop. *)
Lemma name_not_flag a :
  QStr.startsWith a "-" = false \/ QStr.endsWith a ".torrent" = true ->
  looksLikeFlag a = false.
Proof.
  unfold looksLikeFlag. intros [H|H].
  - rewrite H, (startsWith_dashes a H). reflexivity.
  - rewrite H. cbn [negb]. rewrite andb_false_r. cbn [orb].
    apply endsWith_length in H. cbn [String.length] in H.
    destruct (Z.eqb_spec (QStr.size a) 2) as [E|E]; [|apply andb_false_r].
    unfold QStr.size in E. lia.
Qed.

Lemma parseLoop_names build fs r l :
  Forall (fun a => looksLikeFlag a = false) l ->
  parseLoop build fs r l =
    {| showHelp := showHelp r; showVersion := showVersion r; noSplash := noSplash r;
       shouldDaemonize := shouldDaemonize r; webUiPort := webUiPort r;
       torrents := torrents r ++ List.map (torrentPath fs) l;
       unknownParameter := unknownParameter r |}.
Proof.
  intros H. revert r. induction H as [|a l Ha _ IH]; intros r.
  - cbn. rewrite app_nil_r. destruct r; reflexivity.
  - cbn [parseLoop List.map]. rewrite Ha, torrentPath_eq.
    destruct (exists_ fs a); rewrite IH; cbn; rewrite <- app_assoc; reflexivity.
Qed.

(** X4. File names and URLs are never taken for options: when every token
    after the program name either does not begin with a dash or ends in
    [.torrent] (as [--my.torrent] does), the request is the default one
    with exactly these tokens as its torrents, resolved against the file
    system; no switch is set, the port is the stored one and no parameter is
    reported unknown. *)
Theorem names_are_not_options
  (build : Build) (pref : Preferences.t) (fs : FileSystem)
  (prog : string) (args : list string) :
  Forall (fun a => QStr.startsWith a "-" = false \/ QStr.endsWith a ".torrent" = true)
         args ->
  parseCommandLine build pref fs (prog :: args) =
    {| showHelp := false;
       showVersion := false;
       noSplash := negb (DISABLE_GUI build) && Preferences.isSplashScreenDisabled pref;
       shouldDaemonize := false;
       webUiPort := Preferences.getWebUiPort pref;
       torrents := List.map (torrentPath fs) args;
       unknownParameter := "" |}.
Proof.
  intros H. unfold parseCommandLine. cbn [List.tl].
  rewrite parseLoop_names.
  - cbn. destruct (DISABLE_GUI build); reflexivity.
  - eapply Forall_impl; [|exact H]. apply name_not_flag.
Qed.

Lemma names_are_not_options_witness :
  parseCommandLine Sample.gui Sample.fresh Sample.fs
    ["qbittorrent"; "--my.torrent"; "magnet:?xt=urn:btih:c12f"; "-a.torrent"] =
    {| showHelp := false; showVersion := false; noSplash := false;
       shouldDaemonize := false; webUiPort := 8080;
       torrents := ["--my.torrent"; "magnet:?xt=urn:btih:c12f"; "-a.torrent"];
       unknownParameter := "" |}.
Proof.
  apply (names_are_not_options Sample.gui Sample.fresh Sample.fs "qbittorrent"
           ["--my.torrent"; "magnet:?xt=urn:btih:c12f"; "-a.torrent"]).
  repeat (apply Forall_cons; [first [left; reflexivity | right; reflexivity]|]).
  apply Forall_nil.
Defined.

(** ** More of [main] *)

Section RunFacts.

Variable build : Build.
Variable env : Env.
Variable argv : list string.
Variable pref0 : Preferences.t.

Let params := parseCommandLine build pref0 (fileSystem env) (arguments env argv).
Let status := fst (main build env argv pref0).
Let final := snd (main build env argv pref0).

(** What the argument step does, by the tests of [main] in their order. *)
Lemma parse_step :
  step_run build env argv pref0 ParseArgs =
    if negb (QStr.isEmpty (unknownParameter params)) then
      (prelude build env ++
         [EvDisplayBadArgMessage (MsgUnknownParameter (unknownParameter params))],
       Some EXIT_FAILURE)
    else if negb (Q_OS_WIN build) && showVersion params then
      if isOneArg argv then (prelude build env ++ [EvDisplayVersion], Some EXIT_SUCCESS)
      else (prelude build env ++
              [EvDisplayBadArgMessage (MsgMustBeSingle "-v (or --version)")],
            Some EXIT_FAILURE)
    else if showHelp params then
      if isOneArg argv
      then (prelude build env ++ [EvDisplayUsage (List.hd "" argv)], Some EXIT_SUCCESS)
      else (prelude build env ++
              [EvDisplayBadArgMessage (MsgMustBeSingle "-h (or --help)")],
            Some EXIT_FAILURE)
    else if (webUiPort params >? 0) && (webUiPort params <=? 65535) then
      (prelude build env ++
         [EvSetWebUiPort (webUiPort params); EvPutenv "QBITTORRENT" (QBT_VERSION env)] ++
         (if negb (qputenv env "QBITTORRENT" (QBT_VERSION env))
          then [EvStderr "Couldn't set environment variable...
"] else []),
       None)
    else
      (prelude build env ++ [EvDisplayBadArgMessage (MsgBadPort "--webui-port")],
       Some EXIT_FAILURE).
Proof. reflexivity. Qed.

(** A run that ends in the argument step: its status, its whole trace, and
    the preferences untouched. *)
Lemma ends_in_parse evs c :
  step_run build env argv pref0 ParseArgs = (prelude build env ++ evs, Some c) ->
  Forall (fun e => silent e = true) evs ->
  status = c /\ trace final = prelude build env ++ evs /\ prefs final = pref0.
Proof.
  intros Hx Hsil.
  destruct (stops_at build env argv pref0 ParseArgs c (reached_ParseArgs build env argv pref0))
    as [Hs Ht].
  { unfold exit_of. rewrite Hx. reflexivity. }
  fold status final in Hs, Ht. unfold events in Ht. rewrite Hx in Ht.
  cbn [before before_in code_order Step_eqb List.map List.concat fst Datatypes.app] in Ht.
  split; [exact Hs|]. split; [exact Ht|].
  destruct (main_explained build env argv pref0) as [Hp _]. fold final in Hp.
  rewrite Hp, Ht, replay_prefs_app, replay_prefs_prelude.
  clear - Hsil. induction Hsil as [|e evs He _ IH]; [reflexivity|].
  destruct e; try discriminate He; exact IH.
Qed.

(** The steps before one that is reached are reached, and did not end the
    run. *)
Lemma reached_StartEngine s :
  reached build env argv pref0 StartEngine = true ->
  reached build env argv pref0 s = true /\
  (s <> StartEngine -> exit_of build env argv pref0 s = None).
Proof.
  unfold reached, reached_in. cbn [code_order before_in Step_eqb forallb].
  intros H.
  repeat match type of H with
         | _ && _ = true => let H1 := fresh "H" in apply andb_true_iff in H as [H1 H]
         end.
  repeat match goal with
         | H : is_none ?x = true |- _ => destruct x eqn:?; [discriminate H|]; clear H
         end.
  destruct s; cbn [code_order before_in Step_eqb forallb is_none andb];
    repeat match goal with H : _ = None |- _ => rewrite H end;
    cbn [is_none andb]; split; congruence.
Qed.

Lemma engine_reached t :
  In (EvExec t) (trace final) -> reached build env argv pref0 StartEngine = true.
Proof. intros H. apply (reached_of_In build env argv pref0 _ H). Qed.

Lemma engine_events t :
  In (EvExec t) (trace final) -> t = torrents params.
Proof.
  intros H. apply (events_of_In build env argv pref0) in H.
  cbn [step_of] in H. unfold events in H. cbn [step_run fst] in H.
  destruct H as [[= <-]|[]]. reflexivity.
Qed.

End RunFacts.

Lemma parsed_all build l : forallb (passes build) l = true -> parsed build l = l.
Proof.
  induction l as [|a l IH]; cbn [forallb parsed]; [reflexivity|].
  destruct (passes build a); cbn [andb]; [|discriminate].
  intros H. rewrite (IH H). reflexivity.
Qed.

(** The request of a command line all of whose tokens the loop gets
    through. *)
Lemma request_of_parsed build pref fs args :
  forallb (passes build) (List.tl args) = true ->
  QStr.isEmpty (unknownParameter (parseCommandLine build pref fs args)) = true /\
  showHelp (parseCommandLine build pref fs args) = existsb isHelp (List.tl args) /\
  showVersion (parseCommandLine build pref fs args) =
    existsb (isVersion build) (List.tl args).
Proof.
  intros H. unfold parseCommandLine.
  destruct (parseLoop_closed build fs (QBtCommandLineParameters_init build pref)
              (List.tl args)) as (_ & H1 & H2 & _ & _ & H3).
  rewrite H1, H2, H3, (parsed_all build _ H).
  destruct (unparsed_nil build (List.tl args)) as [Hn _]. rewrite (Hn H).
  auto.
Qed.

(** X5. Asking for the version (builds other than Windows).  When no token
    is an unknown parameter and [-v] or [--version] is among them, [main]
    does one of two things after its prelude and nothing else: with
    [argc == 2] it displays the version and returns [EXIT_SUCCESS];
    otherwise it reports that the option must be the single parameter and
    returns [EXIT_FAILURE], also when help was asked for as well.  The
    preferences are left as they were. *)
Theorem version_request
  (build : Build) (env : Env) (argv : list string) (pref0 : Preferences.t) :
  forallb (passes build) (List.tl (arguments env argv)) = true ->
  existsb (isVersion build) (List.tl (arguments env argv)) = true ->
  prefs (snd (main build env argv pref0)) = pref0 /\
  if Z.of_nat (List.length argv) =? 2
  then fst (main build env argv pref0) = EXIT_SUCCESS /\
       trace (snd (main build env argv pref0)) = prelude build env ++ [EvDisplayVersion]
  else fst (main build env argv pref0) = EXIT_FAILURE /\
       trace (snd (main build env argv pref0)) =
         prelude build env ++
         [EvDisplayBadArgMessage (MsgMustBeSingle "-v (or --version)")].
Proof.
  intros Hp Hv.
  destruct (request_of_parsed build pref0 (fileSystem env) _ Hp) as (Hu & _ & Hsv).
  rewrite Hv in Hsv.
  assert (Hw : Q_OS_WIN build = false).
  { apply existsb_exists in Hv as (a & _ & Ha).
    apply isVersion_flag in Ha. apply Ha. }
  pose proof (parse_step build env argv pref0) as Hx. cbv zeta in Hx.
  rewrite Hu, Hsv, Hw in Hx. cbn [negb andb] in Hx. unfold isOneArg in Hx.
  destruct (Z.of_nat (List.length argv) =? 2);
    destruct (ends_in_parse build env argv pref0 _ _ Hx) as (Hs & Ht & Hpr);
    try (repeat constructor); auto.
Qed.

Lemma version_request_witness :
  fst (main Sample.gui Sample.env ["qbittorrent"; "--version"] Sample.fresh) = EXIT_SUCCESS /\
  fst (main Sample.gui Sample.env ["qbittorrent"; "-v"; "-h"] Sample.fresh) = EXIT_FAILURE.
Proof.
  split.
  - destruct (version_request Sample.gui Sample.env ["qbittorrent"; "--version"]
                Sample.fresh eq_refl eq_refl) as (_ & H & _). exact H.
  - destruct (version_request Sample.gui Sample.env ["qbittorrent"; "-v"; "-h"]
                Sample.fresh eq_refl eq_refl) as (_ & H & _). exact H.
Defined.

(** X6. Asking for help.  When no token is an unknown parameter, [-h] or
    [--help] is among them and the version is not asked for, [main] does one
    of two things after its prelude and nothing else: with [argc == 2] it
    displays the usage for [argv[0]] and returns [EXIT_SUCCESS]; otherwise
    it reports that the option must be the single parameter and returns
    [EXIT_FAILURE].  The preferences are left as they were; in particular a
    port option given along with the help request is not applied. *)
Theorem help_request
  (build : Build) (env : Env) (argv : list string) (pref0 : Preferences.t) :
  forallb (passes build) (List.tl (arguments env argv)) = true ->
  existsb isHelp (List.tl (arguments env argv)) = true ->
  existsb (isVersion build) (List.tl (arguments env argv)) = false ->
  prefs (snd (main build env argv pref0)) = pref0 /\
  if Z.of_nat (List.length argv) =? 2
  then fst (main build env argv pref0) = EXIT_SUCCESS /\
       trace (snd (main build env argv pref0)) =
         prelude build env ++ [EvDisplayUsage (List.hd "" argv)]
  else fst (main build env argv pref0) = EXIT_FAILURE /\
       trace (snd (main build env argv pref0)) =
         prelude build env ++
         [EvDisplayBadArgMessage (MsgMustBeSingle "-h (or --help)")].
Proof.
  intros Hp Hh Hv.
  destruct (request_of_parsed build pref0 (fileSystem env) _ Hp) as (Hu & Hsh & Hsv).
  rewrite Hh in Hsh. rewrite Hv in Hsv.
  pose proof (parse_step build env argv pref0) as Hx. cbv zeta in Hx.
  rewrite Hu, Hsv, Hsh, andb_false_r in Hx. cbn [negb] in Hx. unfold isOneArg in Hx.
  destruct (Z.of_nat (List.length argv) =? 2);
    destruct (ends_in_parse build env argv pref0 _ _ Hx) as (Hs & Ht & Hpr);
    try (repeat constructor); auto.
Qed.

Lemma help_request_witness :
  fst (main Sample.nox Sample.env ["qbittorrent-nox"; "-h"] Sample.fresh) = EXIT_SUCCESS /\
  prefs (snd (main Sample.nox Sample.env
                   ["qbittorrent-nox"; "--help"; "--webui-port=9000"] Sample.fresh)) =
    Sample.fresh.
Proof.
  split.
  - destruct (help_request Sample.nox Sample.env ["qbittorrent-nox"; "-h"]
                Sample.fresh eq_refl eq_refl eq_refl) as (_ & H & _). exact H.
  - destruct (help_request Sample.nox Sample.env
                ["qbittorrent-nox"; "--help"; "--webui-port=9000"]
                Sample.fresh eq_refl eq_refl eq_refl) as (H & _). exact H.
Defined.

(** X7. The options are those of the build.  [-v] and [--version] on a
    Windows build, [--no-splash] on a build without GUI, [-d] and
    [--daemon] on a build with GUI are unknown parameters: when such a token
    is the first one the loop does not get through, [main] reports it and
    returns [EXIT_FAILURE] after its prelude, the preferences untouched. *)
Theorem foreign_option_refused
  (build : Build) (env : Env) (argv : list string) (pref0 : Preferences.t)
  (prog : string) (pre : list string) (tok : string) (post : list string) :
  arguments env argv = prog :: pre ++ tok :: post ->
  forallb (passes build) pre = true ->
  (Q_OS_WIN build = true /\ (tok = "-v" \/ tok = "--version")) \/
  (DISABLE_GUI build = true /\ tok = "--no-splash") \/
  (DISABLE_GUI build = false /\ (tok = "-d" \/ tok = "--daemon")) ->
  fst (main build env argv pref0) = EXIT_FAILURE /\
  trace (snd (main build env argv pref0)) =
    prelude build env ++ [EvDisplayBadArgMessage (MsgUnknownParameter tok)] /\
  prefs (snd (main build env argv pref0)) = pref0.
Proof.
  intros Hargs Hpre Htok.
  assert (Hk : classify build tok = KUnknown).
  { unfold classify, isVersion, isNoSplash, isDaemon.
    destruct Htok as [[Hb [->| ->]]|[[Hb ->]|[Hb [->| ->]]]]; rewrite Hb;
      destruct (DISABLE_GUI build), (Q_OS_WIN build); reflexivity. }
  assert (Hparse : unknownParameter
                     (parseCommandLine build pref0 (fileSystem env) (arguments env argv)) = tok).
  { unfold parseCommandLine. rewrite Hargs. cbn [List.tl].
    rewrite (parseLoop_app build (fileSystem env)).
    - rewrite (parseLoop_unknown build (fileSystem env) _ _ _ Hk). reflexivity.
    - apply Forall_forall. intros a Ha.
      rewrite forallb_forall in Hpre. apply Hpre. exact Ha. }
  pose proof (main_unknownParameter build env argv pref0) as H.
  cbv zeta in H. rewrite Hparse in H. apply H.
  apply (unknown_nonempty build). exact Hk.
Qed.

Lemma foreign_option_refused_witness :
  fst (main Sample.gui Sample.env ["qbittorrent"; "a.torrent"; "--daemon"] Sample.fresh) =
    EXIT_FAILURE.
Proof.
  destruct (foreign_option_refused Sample.gui Sample.env
              ["qbittorrent"; "a.torrent"; "--daemon"] Sample.fresh
              "qbittorrent" ["a.torrent"] "--daemon" [] eq_refl eq_refl) as (H & _).
  - right. right. split; [reflexivity|]. right. reflexivity.
  - exact H.
Defined.

Lemma port_in_range p : (p >? 0) && (p <=? 65535) = true -> 1 <= p <= 65535.
Proof. intros H. apply andb_true_iff in H as [H1 H2]. lia. Qed.

Section RunEndings.

Variable build : Build.
Variable env : Env.
Variable argv : list string.
Variable pref0 : Preferences.t.

Let params := parseCommandLine build pref0 (fileSystem env) (arguments env argv).
Let status := fst (main build env argv pref0).
Let final := snd (main build env argv pref0).

Ltac by_tests :=
  repeat (cbn [negb andb orb fst snd Datatypes.app] in *;
          match goal with
          | |- context [if ?c then _ else _] =>
              let a := atom_of c in
              lazymatch a with true => fail | false => fail | _ => destruct a eqn:? end
          end);
  cbn [negb andb orb fst snd Datatypes.app] in *.

(** The step that ends a run: either the engine, or a step whose last
    event says how the run ends. *)
Lemma step_ending s c :
  exit_of build env argv pref0 s = Some c ->
  (s = StartEngine /\ c = exec env (torrents params)) \/
  exists l e, events build env argv pref0 s = l ++ [e] /\ ending e c.
Proof.
  unfold exit_of, events.
  destruct s; cbn [step_run]; unfold prelude, gate_consulted, answer, affirmed,
    daemonizing, upgrade_ask; by_tests; intros [= <-];
    try (left; split; reflexivity);
    right;
    match goal with
    | |- exists l e, ?L = l ++ [e] /\ _ =>
        exists (removelast L), (last L EvAppExit);
        split; [apply app_removelast_last; discriminate|]
    end;
    cbn [last ending]; auto.
Qed.

Lemma parse_passed :
  exit_of build env argv pref0 ParseArgs = None ->
  QStr.isEmpty (unknownParameter params) = true /\
  negb (Q_OS_WIN build) && showVersion params = false /\
  showHelp params = false /\
  (webUiPort params >? 0) && (webUiPort params <=? 65535) = true.
Proof.
  unfold exit_of. rewrite parse_step. fold params.
  destruct (QStr.isEmpty (unknownParameter params)); cbn [negb snd]; [|discriminate].
  destruct (negb (Q_OS_WIN build) && showVersion params);
    [destruct (isOneArg argv); discriminate|].
  destruct (showHelp params); [destruct (isOneArg argv); discriminate|].
  destruct ((webUiPort params >? 0) && (webUiPort params <=? 65535)); [auto|discriminate].
Qed.

Lemma reached_Consent :
  reached build env argv pref0 Consent =
    is_none (exit_of build env argv pref0 ParseArgs).
Proof.
  unfold reached, reached_in. cbn [code_order before_in Step_eqb forallb].
  apply andb_true_r.
Qed.

(** A step that is reached: the steps before it did not end the run. *)
Lemma reached_before s s' :
  reached build env argv pref0 s' = true ->
  In s (before s') ->
  reached build env argv pref0 s = true /\ exit_of build env argv pref0 s = None.
Proof.
  intros Hr Hin. split; [|apply (reached_passed build env argv pref0 s s' Hr Hin)].
  revert Hr Hin. unfold reached, reached_in, before.
  destruct s'; cbn [code_order before_in Step_eqb forallb]; intros Hr Hin;
    repeat match type of Hr with
           | _ && _ = true => let H1 := fresh "H" in apply andb_true_iff in Hr as [H1 Hr]
           end;
    cbn [In] in Hin;
    repeat match type of Hin with
           | _ \/ _ => destruct Hin as [<-|Hin]
           | False => contradiction
           end;
    cbn [code_order before_in Step_eqb forallb];
    repeat match goal with H : is_none _ = true |- _ => rewrite H; clear H end;
    reflexivity.
Qed.

End RunEndings.

(** X8. How a run of [main] ends.  Either the engine is started last and
    [main] returns what it returns; or the run ends without the engine, its
    last event tells how, and the status is fixed by it: [EXIT_SUCCESS]
    after the version, the usage, a notice that was not affirmed, or the
    hand-over to the running instance; [EXIT_FAILURE] after a bad-argument
    message, a failed [daemon] call reported through [qCritical], a failed
    upgrade, or a second singleton check that finds another instance.
    There is no other way out of [main]. *)
Theorem run_endings
  (build : Build) (env : Env) (argv : list string) (pref0 : Preferences.t) :
  (exists l t, trace (snd (main build env argv pref0)) = l ++ [EvExec t] /\
               fst (main build env argv pref0) = exec env t) \/
  (exists l e, trace (snd (main build env argv pref0)) = l ++ [e] /\
               ending e (fst (main build env argv pref0)) /\
               forall t, ~ In (EvExec t) (trace (snd (main build env argv pref0)))).
Proof.
  destruct (last_step build env argv pref0) as (s & c & Hr & Hc).
  destruct (stops_at build env argv pref0 s c Hr Hc) as [Hs Ht].
  destruct (step_ending build env argv pref0 s c Hc) as [[-> ->]|(l & e & Hl & He)].
  - left. eexists _, _. split; [|exact Hs].
    rewrite Ht. unfold events at 2. cbn [step_run fst]. reflexivity.
  - right. exists (List.concat (List.map (events build env argv pref0) (before s)) ++ l), e.
    split; [rewrite Ht, Hl, app_assoc; reflexivity|].
    split; [rewrite Hs; exact He|].
    apply (no_engine build env argv pref0 s c Hr Hc).
    intros ->. unfold events in Hl. cbn [step_run fst] in Hl.
    destruct l as [|x [|y l]]; try discriminate Hl.
    injection Hl as <-. exact He.
Qed.

Section EngineFacts.

Variable build : Build.
Variable env : Env.
Variable argv : list string.
Variable pref0 : Preferences.t.

Let params := parseCommandLine build pref0 (fileSystem env) (arguments env argv).
Let status := fst (main build env argv pref0).
Let final := snd (main build env argv pref0).

Lemma port_written :
  reached build env argv pref0 Consent = true ->
  In (EvSetWebUiPort (webUiPort params)) (trace final) /\
  1 <= webUiPort params <= 65535 /\
  Preferences.getWebUiPort (prefs final) = webUiPort params.
Proof.
  intros Hr. rewrite reached_Consent in Hr.
  destruct (exit_of build env argv pref0 ParseArgs) eqn:Hx; [discriminate|].
  destruct (parse_passed build env argv pref0 Hx) as (Hu & Hv & Hh & Hp).
  destruct (main_port_applied build env argv pref0 Hu Hv Hh Hp) as [H1 H2].
  split; [exact H1|]. split; [apply port_in_range; exact Hp|exact H2].
Qed.

(** Past the consent step the record is true whenever the gate was
    consulted. *)
Lemma consent_passed :
  reached build env argv pref0 CheckSingleton = true ->
  gate_consulted build env argv pref0 = true ->
  Preferences.getAcceptedLegal (prefs final) = true.
Proof.
  intros Hr Hg.
  pose proof (main_prefs build env argv pref0) as Hp. cbv zeta in Hp.
  fold final in Hp. rewrite Hp, Hr. cbn [andb].
  pose proof (reached_check build env argv pref0) as Hrc. rewrite Hr in Hrc.
  symmetry in Hrc. apply andb_true_iff in Hrc as [Hc Hx].
  rewrite Hc. rewrite consent_exit_of, Hg in Hx. cbn [andb] in Hx.
  unfold consent_given. rewrite Hg. cbn [andb].
  destruct (Preferences.getAcceptedLegal pref0) eqn:Ha; cbn [negb andb] in *.
  - exact Ha.
  - destruct (affirmed build env); [reflexivity|discriminate].
Qed.

Lemma gate_consulted_eq :
  gate_consulted build env argv pref0 =
    negb (DISABLE_GUI build) ||
    negb (shouldDaemonize params) && isatty_stdin env && isatty_stdout env.
Proof. unfold gate_consulted. fold params. destruct (DISABLE_GUI build); reflexivity. Qed.

End EngineFacts.

(** X9. What has happened when the engine is started.  The engine gets the
    torrent list of the request and is the last thing [main] does; [main]
    returns its result.  By then the port of the request is within 1..65535
    and stored in the preferences, the singleton check has found no other
    instance, and the upgrade has succeeded; in daemon mode, moreover,
    [daemon] has returned 0 and the check on the new application object has
    found no other instance either. *)
Theorem engine_start
  (build : Build) (env : Env) (argv : list string) (pref0 : Preferences.t)
  (t : list string) :
  In (EvExec t) (trace (snd (main build env argv pref0))) ->
  t = torrents (parseCommandLine build pref0 (fileSystem env) (arguments env argv)) /\
  fst (main build env argv pref0) = exec env t /\
  (exists l, trace (snd (main build env argv pref0)) = l ++ [EvExec t]) /\
  1 <= Preferences.getWebUiPort (prefs (snd (main build env argv pref0))) <= 65535 /\
  Preferences.getWebUiPort (prefs (snd (main build env argv pref0))) =
    webUiPort (parseCommandLine build pref0 (fileSystem env) (arguments env argv)) /\
  In (EvIsRunning 0 false) (trace (snd (main build env argv pref0))) /\
  (exists ask, In (EvUpgrade ask true) (trace (snd (main build env argv pref0)))) /\
  (daemonizing build env argv pref0 = true ->
     In (EvDaemon 0) (trace (snd (main build env argv pref0))) /\
     In (EvIsRunning 1 false) (trace (snd (main build env argv pref0)))).
Proof.
  intros Hin.
  pose proof (engine_reached build env argv pref0 t Hin) as Hr.
  pose proof (engine_events build env argv pref0 t Hin) as Ht. cbv zeta in Ht.
  pose proof (fun s => proj1 (reached_StartEngine build env argv pref0 s Hr)) as Hall.
  pose proof (fun s => proj2 (reached_StartEngine build env argv pref0 s Hr)) as Hnone.
  split; [exact Ht|].
  destruct (stops_at build env argv pref0 StartEngine (exec env t) Hr) as [Hs Htr].
  { unfold exit_of. cbn [step_run snd]. rewrite Ht. reflexivity. }
  split; [exact Hs|].
  split.
  { eexists. rewrite Htr. unfold events at 2. cbn [step_run fst]. rewrite <- Ht.
    reflexivity. }
  destruct (port_written build env argv pref0 (Hall Consent)) as (_ & Hp1 & Hp2).
  cbv zeta in Hp1, Hp2.
  split; [rewrite Hp2; exact Hp1|]. split; [exact Hp2|].
  split.
  { pose proof (Hnone CheckSingleton ltac:(discriminate)) as Hx.
    rewrite check_exit in Hx.
    apply trace_In. cbn [step_of]. split; [apply Hall|].
    rewrite check_events.
    destruct (isRunning env 0); [destruct (daemonizing build env argv pref0); discriminate|].
    left. reflexivity. }
  split.
  { pose proof (Hnone RunMigrations ltac:(discriminate)) as Hx.
    rewrite migrate_exit in Hx.
    exists (upgrade_ask build env argv pref0).
    apply trace_In. cbn [step_of]. split; [apply Hall|].
    destruct (migrate_events build env argv pref0) as (l & ->).
    apply in_or_app. right.
    destruct (upgrade env (upgrade_ask build env argv pref0)); [|discriminate].
    left. reflexivity. }
  intros Hd.
  pose proof (Hnone Daemonize ltac:(discriminate)) as Hx1.
  pose proof (Hnone ReacquireSingleton ltac:(discriminate)) as Hx2.
  rewrite (detach_exit build env argv pref0 Hd) in Hx1.
  rewrite (reacquire_exit build env argv pref0 Hd) in Hx2.
  split; apply trace_In; cbn [step_of]; (split; [apply Hall|]).
  - rewrite (detach_events build env argv pref0 Hd).
    destruct (Z.eqb_spec (daemon env) 0) as [E|E]; [|discriminate].
    rewrite E. right. left. reflexivity.
  - rewrite (reacquire_events build env argv pref0 Hd).
    destruct (isRunning env 1); [discriminate|]. right. left. reflexivity.
Qed.

Lemma engine_start_witness :
  fst (main Sample.nox Sample.env ["qbittorrent-nox"; "-d"; "a.torrent"] Sample.fresh) =
    exec Sample.env ["a.torrent"] /\
  In (EvIsRunning 1 false)
     (trace (snd (main Sample.nox Sample.env ["qbittorrent-nox"; "-d"; "a.torrent"]
                       Sample.fresh))).
Proof.
  destruct (engine_start Sample.nox Sample.env ["qbittorrent-nox"; "-d"; "a.torrent"]
              Sample.fresh ["a.torrent"]) as (_ & Hs & _ & _ & _ & _ & _ & Hd).
  - vm_compute. tauto.
  - split; [exact Hs|]. apply Hd. reflexivity.
Defined.

(** X10. No engine without consent where consent is asked for.  In a build
    with GUI, and in a build without GUI when the process is not asked to
    daemonize and both standard input and standard output are terminals,
    the engine is started only with the legal notice accepted: the consent
    record is true when the engine starts. *)
Theorem engine_after_consent
  (build : Build) (env : Env) (argv : list string) (pref0 : Preferences.t)
  (t : list string) :
  In (EvExec t) (trace (snd (main build env argv pref0))) ->
  DISABLE_GUI build = false \/
  (shouldDaemonize (parseCommandLine build pref0 (fileSystem env) (arguments env argv)) = false /\
   isatty_stdin env = true /\ isatty_stdout env = true) ->
  Preferences.getAcceptedLegal (prefs (snd (main build env argv pref0))) = true.
Proof.
  intros Hin Hg.
  pose proof (engine_reached build env argv pref0 t Hin) as Hr.
  apply consent_passed.
  - apply (reached_StartEngine build env argv pref0 CheckSingleton Hr).
  - rewrite gate_consulted_eq.
    destruct Hg as [->|(-> & -> & ->)]; [reflexivity|apply orb_true_r].
Qed.

Lemma engine_after_consent_witness :
  Preferences.getAcceptedLegal
    (prefs (snd (main Sample.gui Sample.env ["qbittorrent"; "a.torrent"] Sample.fresh))) = true.
Proof.
  apply (engine_after_consent Sample.gui Sample.env ["qbittorrent"; "a.torrent"]
           Sample.fresh ["a.torrent"]).
  - vm_compute. tauto.
  - left. reflexivity.
Defined.

(** X11. A headless process never waits for an answer.  In a build without
    GUI, when the process is asked to daemonize or standard input or
    standard output is no terminal, the consent record is neither read nor
    written, the notice is not printed and no key is read; the record is
    left as it was. *)
Theorem headless_never_asks
  (build : Build) (env : Env) (argv : list string) (pref0 : Preferences.t) :
  DISABLE_GUI build = true ->
  shouldDaemonize (parseCommandLine build pref0 (fileSystem env) (arguments env argv)) = true \/
  isatty_stdin env = false \/ isatty_stdout env = false ->
  (forall b, ~ In (EvGetAcceptedLegal b) (trace (snd (main build env argv pref0)))) /\
  ~ In EvLegalNotice (trace (snd (main build env argv pref0))) /\
  (forall c, ~ In (EvGetchar c) (trace (snd (main build env argv pref0)))) /\
  (forall b, ~ In (EvSetAcceptedLegal b) (trace (snd (main build env argv pref0)))) /\
  Preferences.getAcceptedLegal (prefs (snd (main build env argv pref0))) =
    Preferences.getAcceptedLegal pref0.
Proof.
  intros Hb Hh.
  assert (Hg : gate_consulted build env argv pref0 = false).
  { rewrite gate_consulted_eq, Hb. cbn [negb orb].
    destruct Hh as [->|[->| ->]]; cbn [negb andb]; rewrite ?andb_false_r; reflexivity. }
  assert (Hev : events build env argv pref0 Consent = []).
  { rewrite consent_events, Hg. reflexivity. }
  assert (Hno : forall e, step_of e = Consent ->
                          ~ In e (trace (snd (main build env argv pref0)))).
  { intros e He Hin. apply (events_of_In build env argv pref0) in Hin.
    rewrite He, Hev in Hin. exact Hin. }
  split; [intros b; apply Hno; reflexivity|].
  split; [apply Hno; reflexivity|].
  split; [intros c; apply Hno; reflexivity|].
  split; [intros b; apply Hno; reflexivity|].
  rewrite main_prefs. cbv zeta. unfold consent_given. rewrite Hg. cbn [andb].
  rewrite andb_false_r.
  destruct (reached build env argv pref0 Consent); reflexivity.
Qed.

Lemma headless_never_asks_witness :
  ~ In EvLegalNotice
      (trace (snd (main Sample.nox Sample.env ["qbittorrent-nox"; "--daemon"] Sample.fresh))) /\
  Preferences.getAcceptedLegal
    (prefs (snd (main Sample.nox Sample.env ["qbittorrent-nox"; "--daemon"] Sample.fresh))) =
    false.
Proof.
  destruct (headless_never_asks Sample.nox Sample.env ["qbittorrent-nox"; "--daemon"]
              Sample.fresh eq_refl) as (_ & H1 & _ & _ & H2).
  - left. reflexivity.
  - split; [exact H1 | exact H2].
Defined.

Lemma request_unknown_empty build pref fs args :
  QStr.isEmpty (unknownParameter (parseCommandLine build pref fs args)) = true ->
  parsed build (List.tl args) = List.tl args.
Proof.
  unfold parseCommandLine. intros H.
  destruct (parseLoop_closed build fs (QBtCommandLineParameters_init build pref)
              (List.tl args)) as (_ & _ & _ & _ & _ & Hu).
  rewrite Hu in H. apply parsed_all. apply unparsed_nil.
  pose proof (unparsed_head build (List.tl args)) as Hh.
  destruct (unparsed build (List.tl args)) as [|a rest]; [reflexivity|].
  rewrite (unknown_nonempty build a (Hh a rest eq_refl)) in H. discriminate.
Qed.

(** X12. The splash screen.  It is shown only by a build with GUI, only
    when the preferences do not disable it and only when [--no-splash] is
    not on the command line; and a run of such a build that starts the
    engine with [noSplash] off has shown it. *)
Theorem splash_screen
  (build : Build) (env : Env) (argv : list string) (pref0 : Preferences.t) :
  (In EvShowSplashScreen (trace (snd (main build env argv pref0))) ->
     DISABLE_GUI build = false /\
     Preferences.isSplashScreenDisabled pref0 = false /\
     ~ In "--no-splash" (List.tl (arguments env argv))) /\
  (forall t, In (EvExec t) (trace (snd (main build env argv pref0))) ->
     DISABLE_GUI build = false ->
     noSplash (parseCommandLine build pref0 (fileSystem env) (arguments env argv)) = false ->
     In EvShowSplashScreen (trace (snd (main build env argv pref0)))).
Proof.
  split.
  - intros Hin.
    pose proof (reached_of_In build env argv pref0 _ Hin) as Hr.
    pose proof (events_of_In build env argv pref0 _ Hin) as He.
    cbn [step_of] in Hr, He. unfold events in He. cbn [step_run fst] in He.
    destruct (DISABLE_GUI build) eqn:Hg.
    { destruct (shouldDaemonize _); [destruct (daemon env =? 0)|];
        simpl in He; intuition discriminate. }
    destruct (noSplash (parseCommandLine build pref0 (fileSystem env) (arguments env argv)))
      eqn:Hn; [contradiction He|].
    destruct (reached_before build env argv pref0 ParseArgs Daemonize Hr) as [_ Hx];
      [simpl; tauto|].
    destruct (parse_passed build env argv pref0 Hx) as (Hu & _).
    unfold parseCommandLine in Hn.
    destruct (parseLoop_closed build (fileSystem env)
                (QBtCommandLineParameters_init build pref0)
                (List.tl (arguments env argv))) as (_ & _ & _ & Hns & _).
    rewrite Hns, (request_unknown_empty build pref0 (fileSystem env) _ Hu) in Hn.
    cbn [noSplash QBtCommandLineParameters_init] in Hn. rewrite Hg in Hn.
    apply orb_false_iff in Hn as [Hn1 Hn2].
    split; [reflexivity|]. split; [exact Hn1|].
    intros Hin'. 
    assert (Ht : existsb (isNoSplash build) (List.tl (arguments env argv)) = true).
    { apply existsb_exists. exists "--no-splash". split; [exact Hin'|].
      unfold isNoSplash. rewrite Hg. reflexivity. }
    congruence.
  - intros t Hin Hg Hn.
    pose proof (engine_reached build env argv pref0 t Hin) as Hr.
    apply trace_In. cbn [step_of].
    split; [apply (reached_StartEngine build env argv pref0 Daemonize Hr)|].
    unfold events. cbn [step_run fst]. rewrite Hg, Hn. left. reflexivity.
Qed.

Lemma splash_screen_witness :
  In EvShowSplashScreen
     (trace (snd (main Sample.gui Sample.env ["qbittorrent"] Sample.accepted))) /\
  ~ In "--no-splash" (List.tl (arguments Sample.env ["qbittorrent"])).
Proof.
  destruct (splash_screen Sample.gui Sample.env ["qbittorrent"] Sample.accepted)
    as (H1 & H2).
  assert (H : In EvShowSplashScreen
                 (trace (snd (main Sample.gui Sample.env ["qbittorrent"] Sample.accepted)))).
  { apply (H2 []); [vm_compute; tauto | reflexivity | reflexivity]. }
  split; [exact H|]. apply H1. exact H.
Defined.

(** X13. Handlers are installed for four signals and only for a process
    that runs the engine.  Whatever the run, a signal whose disposition
    [main] leaves different from the default one is SIGINT, SIGTERM, SIGABRT
    or SIGSEGV, the build has signal handling, and the engine was started;
    a run that ends earlier leaves every disposition at the default. *)
Theorem handlers_only_with_engine
  (build : Build) (env : Env) (argv : list string) (pref0 : Preferences.t)
  (signum : Z) :
  disposition (snd (main build env argv pref0)) signum <> SIG_DFL ->
  In signum [SIGINT; SIGTERM; SIGABRT; SIGSEGV] /\
  have_signals build = true /\
  exists t, In (EvExec t) (trace (snd (main build env argv pref0))).
Proof.
  rewrite main_disposition. intros H.
  destruct (reached build env argv pref0 StartEngine) eqn:Hr; [|contradiction H; reflexivity].
  destruct (have_signals build); [|contradiction H; reflexivity].
  cbn [andb] in H. split; [|split; [reflexivity|]].
  - cbn [installs replay_signals] in H. cbn [In].
    destruct (Z.eqb_spec signum SIGSEGV) as [->|_]; [tauto|].
    destruct (Z.eqb_spec signum SIGABRT) as [->|_]; [tauto|].
    destruct (Z.eqb_spec signum SIGTERM) as [->|_]; [tauto|].
    destruct (Z.eqb_spec signum SIGINT) as [->|_]; [tauto|].
    contradiction H. reflexivity.
  - eexists. apply trace_In. cbn [step_of]. split; [exact Hr|].
    unfold events. cbn [step_run fst]. left. reflexivity.
Qed.

Lemma handlers_only_with_engine_witness :
  In SIGTERM [SIGINT; SIGTERM; SIGABRT; SIGSEGV] /\
  exists t, In (EvExec t) (trace (snd (main Sample.gui Sample.env ["qbittorrent"]
                                            Sample.accepted))).
Proof.
  destruct (handlers_only_with_engine Sample.gui Sample.env ["qbittorrent"]
              Sample.accepted SIGTERM) as (H1 & _ & H2).
  - vm_compute. discriminate.
  - split; [exact H1 | exact H2].
Defined.

(** X14. What [main] does to the preferences.  It never touches the
    setting of the splash screen; it writes the port only with a value
    within 1..65535; so the stored port either is the one found at the
    start or lies within 1..65535 and is the port of the request. *)
Theorem stored_port_valid
  (build : Build) (env : Env) (argv : list string) (pref0 : Preferences.t) :
  Preferences.isSplashScreenDisabled (prefs (snd (main build env argv pref0))) =
    Preferences.isSplashScreenDisabled pref0 /\
  (forall n, In (EvSetWebUiPort n) (trace (snd (main build env argv pref0))) ->
             1 <= n <= 65535) /\
  (Preferences.getWebUiPort (prefs (snd (main build env argv pref0))) =
     Preferences.getWebUiPort pref0 \/
   1 <= Preferences.getWebUiPort (prefs (snd (main build env argv pref0))) <= 65535 /\
   Preferences.getWebUiPort (prefs (snd (main build env argv pref0))) =
     webUiPort (parseCommandLine build pref0 (fileSystem env) (arguments env argv))).
Proof.
  split; [|split].
  - rewrite main_prefs. cbv zeta.
    destruct (reached build env argv pref0 Consent),
      (reached build env argv pref0 CheckSingleton && consent_given build env argv pref0);
      reflexivity.
  - intros n Hin.
    pose proof (reached_of_In build env argv pref0 _ Hin) as Hr.
    pose proof (events_of_In build env argv pref0 _ Hin) as He.
    cbn [step_of] in Hr, He. unfold events in He. rewrite parse_step in He.
    destruct (negb (QStr.isEmpty _)); cbn [fst] in He.
    { apply in_app_or in He as [He|He]; [|simpl in He; intuition discriminate].
      unfold prelude in He. destruct (Q_OS_MAC build), (negb (DISABLE_GUI build));
        simpl in He; intuition discriminate. }
    assert (Hpre : ~ In (EvSetWebUiPort n) (prelude build env)).
    { unfold prelude. destruct (Q_OS_MAC build), (negb (DISABLE_GUI build));
        simpl; intuition discriminate. }
    destruct (negb (Q_OS_WIN build) && showVersion _).
    { destruct (isOneArg argv); cbn [fst] in He;
        apply in_app_or in He as [He|He]; try contradiction;
        simpl in He; intuition discriminate. }
    destruct (showHelp _).
    { destruct (isOneArg argv); cbn [fst] in He;
        apply in_app_or in He as [He|He]; try contradiction;
        simpl in He; intuition discriminate. }
    destruct ((webUiPort _ >? 0) && (webUiPort _ <=? 65535)) eqn:Hp; cbn [fst] in He;
      apply in_app_or in He as [He|He]; try contradiction.
    + apply in_app_or in He as [He|He].
      * destruct He as [[= <-]|[He|[]]]; [|discriminate].
        apply port_in_range. exact Hp.
      * destruct (negb (qputenv env "QBITTORRENT" (QBT_VERSION env)));
          simpl in He; intuition discriminate.
    + simpl in He; intuition discriminate.
  - destruct (reached build env argv pref0 Consent) eqn:Hr.
    + right. destruct (port_written build env argv pref0 Hr) as (_ & H1 & H2).
      cbv zeta in H1, H2. rewrite H2. auto.
    + left. rewrite main_prefs. cbv zeta. rewrite Hr.
      rewrite reached_check, Hr. reflexivity.
Qed.

(** X15. The environment variables [main] sets.  [QBITTORRENT] is set to
    the version; [QT_BEARER_POLL_TIMEOUT] is set, to -1, by a Windows build
    only, and [PATH] is set, to the old value with [/usr/local/bin:] put in
    front, by a macOS build only, both only once the singleton check has
    found no other instance.  No other variable is set. *)
Theorem environment_set
  (build : Build) (env : Env) (argv : list string) (pref0 : Preferences.t)
  (name value : string) :
  In (EvPutenv name value) (trace (snd (main build env argv pref0))) ->
  (name = "QBITTORRENT" /\ value = QBT_VERSION env) \/
  ((name = "QT_BEARER_POLL_TIMEOUT" /\ value = "-1" /\ Q_OS_WIN build = true \/
    name = "PATH" /\ value = ("/usr/local/bin:" ++ qgetenv env "PATH")%string /\
    Q_OS_MAC build = true) /\
   In (EvIsRunning 0 false) (trace (snd (main build env argv pref0)))).
Proof.
  intros Hin.
  pose proof (reached_of_In build env argv pref0 _ Hin) as Hr.
  pose proof (events_of_In build env argv pref0 _ Hin) as He.
  cbn [step_of] in Hr, He.
  destruct (String.eqb_spec name "QBITTORRENT") as [->|Hne].
  - left. split; [reflexivity|].
    unfold events in He. rewrite parse_step in He.
    assert (Hpre : ~ In (EvPutenv "QBITTORRENT" value) (prelude build env)).
    { unfold prelude. destruct (Q_OS_MAC build), (negb (DISABLE_GUI build));
        simpl; intuition discriminate. }
    repeat match type of He with
           | context [if ?c then _ else _] => destruct c
           end; cbn [fst] in He;
      apply in_app_or in He as [He|He]; try contradiction;
      simpl in He; intuition congruence.
  - right. split.
    + unfold events in He. cbn [step_run fst] in He.
      apply in_app_or in He as [He|He].
      { destruct (Q_OS_WIN build); simpl in He; [|contradiction].
        destruct He as [[= <- <-]|[]]. left. auto. }
      apply in_app_or in He as [He|He].
      { destruct (Q_OS_MAC build); simpl in He; [|contradiction].
        destruct He as [[= <- <-]|[]]. right. auto. }
      simpl in He. intuition discriminate.
    + destruct (reached_before build env argv pref0 CheckSingleton RunMigrations Hr)
        as [Hr' Hx]; [simpl; tauto|].
      rewrite check_exit in Hx.
      apply trace_In. cbn [step_of]. split; [exact Hr'|].
      rewrite check_events.
      destruct (isRunning env 0);
        [destruct (daemonizing build env argv pref0); discriminate|].
      left. reflexivity.
Qed.

Lemma environment_set_witness :
  In (EvIsRunning 0 false)
     (trace (snd (main MoreSamples.mac Sample.env ["qbittorrent"] Sample.accepted))).
Proof.
  destruct (environment_set MoreSamples.mac Sample.env ["qbittorrent"] Sample.accepted
              "PATH" "/usr/local/bin:/usr/bin") as [[H _] | [_ H]].
  - vm_compute. tauto.
  - discriminate H.
  - exact H.
Defined.

(** X16. When the upgrade may ask questions.  A build with GUI calls
    [upgrade()] without argument.  A build without GUI passes whether it may
    ask: only when the process is not asked to daemonize and standard input
    and output are terminals.  In a run where the upgrade is called and is
    not told to keep quiet, the legal notice has been accepted. *)
Theorem upgrade_may_ask
  (build : Build) (env : Env) (argv : list string) (pref0 : Preferences.t)
  (ask : option bool) (ok : bool) :
  In (EvUpgrade ask ok) (trace (snd (main build env argv pref0))) ->
  ask = (if DISABLE_GUI build
         then Some (negb (shouldDaemonize
                            (parseCommandLine build pref0 (fileSystem env)
                               (arguments env argv)))
                    && isatty_stdin env && isatty_stdout env)
         else None) /\
  ok = upgrade env ask /\
  (ask <> Some false ->
   Preferences.getAcceptedLegal (prefs (snd (main build env argv pref0))) = true).
Proof.
  intros Hin.
  pose proof (reached_of_In build env argv pref0 _ Hin) as Hr.
  pose proof (events_of_In build env argv pref0 _ Hin) as He.
  cbn [step_of] in Hr, He.
  destruct (migrate_upgrade build env argv pref0 _ _ He) as [-> ->].
  split; [reflexivity|]. split; [reflexivity|].
  intros Hask. apply consent_passed.
  - apply (reached_before build env argv pref0 CheckSingleton RunMigrations Hr).
    simpl. tauto.
  - unfold upgrade_ask in Hask. unfold gate_consulted.
    destruct (DISABLE_GUI build); [|reflexivity].
    destruct (negb (shouldDaemonize _) && isatty_stdin env && isatty_stdout env);
      [reflexivity|]. contradiction Hask. reflexivity.
Qed.

Lemma upgrade_may_ask_witness :
  Preferences.getAcceptedLegal
    (prefs (snd (main Sample.nox Sample.env ["qbittorrent-nox"] Sample.fresh))) = true.
Proof.
  destruct (upgrade_may_ask Sample.nox Sample.env ["qbittorrent-nox"] Sample.fresh
              (Some true) true) as (_ & _ & H).
  - vm_compute. tauto.
  - apply H. discriminate.
Defined.

(** ** More of the signal handlers *)

(** X17. Delivery of a signal, whatever the state of the process, for
    every signal that has its entry in [sysSigName] whenever a handler is
    installed for it (so that the handler's look-up stays in the table).
    It always comes to an end, with at most one delivery nested in another
    (the one the abnormal handler raises).  Afterwards the disposition of
    that signal is the default one and the dispositions of all other signals
    are as before; the handlers do not write the preferences and build no
    application object, and they only add to the trace. *)
Theorem delivery_frame
  (build : Build) (env : Env) (signum : Z) (w : World) (fuel : nat) :
  (2 <= fuel)%nat ->
  (disposition w signum <> SIG_DFL ->
   0 <= signum < Z.of_nat (List.length sysSigName)) ->
  exists w' evs,
    deliver build env fuel signum w = Some w' /\
    trace w' = trace w ++ evs /\
    prefs w' = prefs w /\
    instances w' = instances w /\
    forall s, disposition w' s = if s =? signum then SIG_DFL else disposition w s.
Proof.
  intros Hf _. destruct fuel as [|[|fuel]]; try lia.
  destruct (disposition w signum) as [|[|]] eqn:Hd.
  - rewrite (deliver_default build env _ _ _ Hd).
    eexists _, _. split; [reflexivity|]. cbn [trace prefs instances disposition].
    repeat split. intros s.
    destruct (Z.eqb_spec s signum) as [->|_]; [exact Hd|reflexivity].
  - rewrite (deliver_normal build env _ _ _ Hd).
    eexists _, _. split; [reflexivity|]. cbn [handled trace prefs instances disposition].
    repeat split.
  - rewrite (deliver_abnormal build env _ _ _ Hd).
    eexists _, _. split; [reflexivity|]. cbn [handled trace prefs instances disposition].
    repeat split.
Qed.

Lemma delivery_frame_witness :
  exists w',
    deliver Sample.nox Sample.env 2 SIGINT
      (snd (main Sample.nox Sample.env ["qbittorrent-nox"] Sample.accepted)) = Some w' /\
    disposition w' SIGINT = SIG_DFL /\
    disposition w' SIGSEGV = Installed SigAbnormal.
Proof.
  destruct (delivery_frame Sample.nox Sample.env SIGINT
              (snd (main Sample.nox Sample.env ["qbittorrent-nox"] Sample.accepted)) 2)
    as (w' & evs & H1 & _ & _ & _ & H2).
  - lia.
  - intros _. vm_compute. split; [discriminate|reflexivity].
  - exists w'. split; [exact H1|].
    split; rewrite H2; reflexivity.
Defined.

(** X18. The handlers read the table of signal names within its bounds.
    Every signal for which [main] leaves a handler installed has an entry in
    [sysSigName], at the index the handler uses, and the entry is a name,
    not the empty string at index 0. *)
Theorem signal_name_in_table
  (build : Build) (env : Env) (argv : list string) (pref0 : Preferences.t)
  (signum : Z) (h : Handler) :
  disposition (snd (main build env argv pref0)) signum = Installed h ->
  0 < signum < Z.of_nat (List.length sysSigName) /\
  List.nth_error sysSigName (Z.to_nat signum) = Some (sigName signum) /\
  sigName signum <> "".
Proof.
  rewrite main_disposition. intros H.
  destruct (reached build env argv pref0 StartEngine && have_signals build);
    [|discriminate H].
  cbn [installs replay_signals] in H.
  destruct (Z.eqb_spec signum SIGSEGV) as [->|_];
    [vm_compute; intuition discriminate|].
  destruct (Z.eqb_spec signum SIGABRT) as [->|_];
    [vm_compute; intuition discriminate|].
  destruct (Z.eqb_spec signum SIGTERM) as [->|_];
    [vm_compute; intuition discriminate|].
  destruct (Z.eqb_spec signum SIGINT) as [->|_];
    [vm_compute; intuition discriminate|].
  discriminate H.
Qed.

Lemma signal_name_in_table_witness :
  List.nth_error sysSigName (Z.to_nat SIGSEGV) = Some "SIGSEGV".
Proof.
  destruct (signal_name_in_table Sample.gui Sample.env ["qbittorrent"] Sample.accepted
              SIGSEGV SigAbnormal eq_refl) as (_ & H & _).
  exact H.
Defined.

(** ** The usage text *)

Section UsageFacts.

Import QStrText.
Local Open Scope string_scope.

Lemma prefix_app p a b : String.prefix p a = true -> String.prefix p (a ++ b) = true.
Proof.
  revert a. induction p as [|c p IH]; intros a; [intros _; destruct (a ++ b); reflexivity|].
  destruct a as [|c' a]; cbn [String.prefix String.append]; [discriminate|].
  destruct (Ascii.ascii_dec c c'); [apply IH|discriminate].
Qed.

Lemma containsStr_app_l a b p : containsStr a p = true -> containsStr (a ++ b) p = true.
Proof.
  induction a as [|c a IH]; cbn [containsStr String.append]; intros H.
  - rewrite orb_false_r in H. destruct p; [|discriminate H].
    destruct b; reflexivity.
  - apply orb_true_iff in H as [H|H]; apply orb_true_iff.
    + left. apply (prefix_app p (String c a) b H).
    + right. apply IH. exact H.
Qed.

Lemma containsStr_app_r a b p : containsStr b p = true -> containsStr (a ++ b) p = true.
Proof.
  intros H. induction a as [|c a IH]; cbn [containsStr String.append]; [exact H|].
  rewrite IH. apply orb_true_r.
Qed.

Lemma prefix_refl p : String.prefix p p = true.
Proof.
  induction p as [|c p IH]; cbn [String.prefix]; [reflexivity|].
  destruct (Ascii.ascii_dec c c); [exact IH|congruence].
Qed.

Lemma containsStr_refl p : containsStr p p = true.
Proof. destruct p; cbn [containsStr]; rewrite prefix_refl; reflexivity. Qed.

Lemma arg_port a :
  arg (tr "Changes the Web UI port (current: %1)") a =
    "Changes the Web UI port (current: " ++ a ++ ")".
Proof. reflexivity. Qed.

End UsageFacts.

Example arg_lowest : QStrText.arg "%2 of %1 and %1" "x" = "%2 of x and x".
Proof. reflexivity. Qed.

Example arg_none : QStrText.arg "100% sure" "x" = "100% sure".
Proof. reflexivity. Qed.

Ltac find_in :=
  first
    [ reflexivity
    | lazymatch goal with
      | |- QStrText.containsStr (_ ++ _)%string _ = true =>
          first [ apply containsStr_app_l; find_in
                | apply containsStr_app_r; find_in ]
      end ].

(** X19. The usage text documents the options of the build.  Every token
    that [parseCommandLine] takes for the help, version, no-splash or daemon
    switch in a build occurs in the usage text [makeUsage] makes for that
    build, and so does the prefix [--webui-port=] of the port option,
    whatever the program name and the stored port. *)
Theorem usage_documents_options
  (build : Build) (pref : Preferences.t) (prg_name : string) (arg : string) :
  isHelp arg || isVersion build arg || isNoSplash build arg || isDaemon build arg
  || String.eqb arg "--webui-port=" = true ->
  QStrText.containsStr (makeUsage build pref prg_name) arg = true.
Proof.
  intros H.
  assert (Hc : (arg = "-h" \/ arg = "--help" \/ arg = "--webui-port=") \/
               (Q_OS_WIN build = false /\ (arg = "-v" \/ arg = "--version")) \/
               (DISABLE_GUI build = false /\ arg = "--no-splash") \/
               (DISABLE_GUI build = true /\ (arg = "-d" \/ arg = "--daemon"))).
  { apply orb_true_iff in H as [H|H];
      [apply orb_true_iff in H as [H|H];
       [apply orb_true_iff in H as [H|H];
        [apply orb_true_iff in H as [H|H]|]|]|].
    - apply isHelp_flag in H. tauto.
    - apply isVersion_flag in H. tauto.
    - apply isNoSplash_flag in H. tauto.
    - apply isDaemon_flag in H. tauto.
    - apply String.eqb_eq in H. tauto. }
  clear H. unfold makeUsage. cbv zeta.
  destruct (Q_OS_WIN build), (DISABLE_GUI build);
    destruct Hc as [[->|[->| ->]]|[[Hb [->| ->]]|[[Hb ->]|[Hb [->| ->]]]]];
    try discriminate Hb; find_in.
Qed.

Lemma usage_documents_options_witness :
  QStrText.containsStr (makeUsage Sample.nox Sample.fresh "qbittorrent-nox") "--daemon" = true.
Proof.
  apply (usage_documents_options Sample.nox Sample.fresh "qbittorrent-nox" "--daemon").
  reflexivity.
Defined.

(** X20. The port in the usage text can be given back.  The usage text
    shows the stored port as [(current: N)]; the stored port being an
    [int], the option [--webui-port=N] with the number as shown gives a
    request with exactly that port, whatever the preferences and the file
    system at that time. *)
Theorem usage_port_round_trip
  (build : Build) (pref pref' : Preferences.t) (fs : FileSystem) (prg_name : string) :
  QStr.INT_MIN <= Preferences.getWebUiPort pref <= QStr.INT_MAX ->
  QStrText.containsStr (makeUsage build pref prg_name)
    ("(current: " ++ QStr.number (Preferences.getWebUiPort pref) ++ ")")%string = true /\
  webUiPort (parseCommandLine build pref' fs
               [prg_name; portToken (QStr.number (Preferences.getWebUiPort pref))]) =
    Preferences.getWebUiPort pref.
Proof.
  intros Hint. split.
  - unfold makeUsage. cbv zeta. rewrite arg_port.
    set (n := QStr.number (Preferences.getWebUiPort pref)).
    assert (Hhere : QStrText.containsStr
                      ("Changes the Web UI port (current: " ++ n ++ ")")%string
                      ("(current: " ++ n ++ ")")%string = true).
    { apply (containsStr_app_r "Changes the Web UI port " ("(current: " ++ n ++ ")")%string).
      apply containsStr_refl. }
    destruct (Q_OS_WIN build), (DISABLE_GUI build);
      do 2 apply containsStr_app_l; do 2 apply containsStr_app_r;
      apply containsStr_app_l; exact Hhere.
  - pose proof (QStrFacts.number_numChars (Preferences.getWebUiPort pref)) as Hn.
    destruct (parseCommandLine_port build pref' fs prg_name []
                (QStr.number (Preferences.getWebUiPort pref)) [])
      as (Hp & _); auto using QStrFacts.endsWith_numChars, QStrFacts.allChars_numChar_no_eq.
    cbn [Datatypes.app] in Hp. rewrite Hp, QStrFacts.toInt_number.
    destruct (Z.leb_spec QStr.INT_MIN (Preferences.getWebUiPort pref)),
      (Z.leb_spec (Preferences.getWebUiPort pref) QStr.INT_MAX); simpl; lia.
Qed.

Lemma usage_port_round_trip_witness :
  webUiPort (parseCommandLine Sample.gui Sample.badport Sample.fs
               ["qbittorrent"; portToken (QStr.number 8080)]) = 8080.
Proof.
  destruct (usage_port_round_trip Sample.gui Sample.fresh Sample.badport Sample.fs
              "qbittorrent") as (_ & H).
  - vm_compute. split; discriminate.
  - exact H.
Defined.

(** The texts of the bad-argument messages are what [arg] makes of the
    source texts. *)
Lemma Message_text_arg m :
  Message_text m =
    match m with
    | MsgUnknownParameter p =>
        QStrText.arg (tr "%1 is an unknown command line parameter.") p
    | MsgMustBeSingle flag =>
        QStrText.arg (tr "%1 must be the single command line parameter.") flag
    | MsgBadPort flag =>
        QStrText.arg (tr "%1 must specify the correct port (1 to 65535).") flag
    | MsgAlreadyRunning flag =>
        QStrText.arg (tr "You cannot use %1: qBittorrent is already running for this user.")
                     flag
    end.
Proof. destruct m; reflexivity. Qed.

(** ** The environment variable [QBITTORRENT] *)

Lemma replay_prefs_without_stderr tr p :
  replay_prefs (without_stderr tr) p = replay_prefs tr p.
Proof.
  revert p. induction tr as [|e tr IH]; intros p; [reflexivity|].
  destruct e; cbn [without_stderr List.filter replay_prefs]; apply IH.
Qed.

Lemma replay_signals_without_stderr tr d :
  replay_signals (without_stderr tr) d = replay_signals tr d.
Proof.
  revert d. induction tr as [|e tr IH]; intros d; [reflexivity|].
  destruct e; cbn [without_stderr List.filter replay_signals]; apply IH.
Qed.

Section Putenv.

Variable build : Build.
Variable env : Env.
Variable argv : list string.
Variable pref0 : Preferences.t.
Variable f : string -> string -> bool.

Lemma with_qputenv_step s :
  snd (step_run build (with_qputenv f env) argv pref0 s) =
    snd (step_run build env argv pref0 s) /\
  without_stderr (fst (step_run build (with_qputenv f env) argv pref0 s)) =
    without_stderr (fst (step_run build env argv pref0 s)).
Proof.
  destruct s; try (split; reflexivity).
  rewrite !parse_step.
  change (fileSystem (with_qputenv f env)) with (fileSystem env).
  change (arguments (with_qputenv f env) argv) with (arguments env argv).
  change (prelude build (with_qputenv f env)) with (prelude build env).
  change (QBT_VERSION (with_qputenv f env)) with (QBT_VERSION env).
  change (qputenv (with_qputenv f env)) with f.
  repeat match goal with
         | |- context [if ?c then _ else _] =>
             lazymatch c with
             | context [f] => fail
             | context [qputenv] => fail
             | _ => destruct c
             end
         end; cbn [fst snd]; try (split; reflexivity).
  split; [reflexivity|].
  unfold without_stderr. rewrite !filter_app.
  destruct (f "QBITTORRENT" (QBT_VERSION env)),
    (qputenv env "QBITTORRENT" (QBT_VERSION env)); reflexivity.
Qed.

Lemma with_qputenv_play ss :
  fst (play (List.map (step_run build (with_qputenv f env) argv pref0) ss)) =
    fst (play (List.map (step_run build env argv pref0) ss)) /\
  without_stderr (snd (play (List.map (step_run build (with_qputenv f env) argv pref0) ss))) =
    without_stderr (snd (play (List.map (step_run build env argv pref0) ss))).
Proof.
  induction ss as [|s ss [IH1 IH2]]; [split; reflexivity|].
  cbn [List.map play].
  destruct (with_qputenv_step s) as [H1 H2].
  destruct (step_run build (with_qputenv f env) argv pref0 s) as [evs' ex'].
  destruct (step_run build env argv pref0 s) as [evs ex].
  cbn [fst snd] in H1, H2. subst ex'.
  destruct ex as [c|]; [split; [reflexivity|exact H2]|].
  destruct (play (List.map (step_run build (with_qputenv f env) argv pref0) ss)) as [st' tr'].
  destruct (play (List.map (step_run build env argv pref0) ss)) as [st tr].
  cbn [fst snd] in *. split; [exact IH1|].
  unfold without_stderr in *. rewrite !filter_app, H2, IH2. reflexivity.
Qed.

End Putenv.

(** X21. Failing to set [QBITTORRENT] is not fatal.  What [qputenv]
    returns decides only whether the warning is written to [std::cerr]:
    with any other [qputenv] the run has the same exit status, the same
    events apart from that warning, and leaves the same preferences and
    signal dispositions. *)
Theorem qputenv_failure_not_fatal
  (build : Build) (env : Env) (argv : list string) (pref0 : Preferences.t)
  (f : string -> string -> bool) :
  fst (main build (with_qputenv f env) argv pref0) = fst (main build env argv pref0) /\
  without_stderr (trace (snd (main build (with_qputenv f env) argv pref0))) =
    without_stderr (trace (snd (main build env argv pref0))) /\
  prefs (snd (main build (with_qputenv f env) argv pref0)) =
    prefs (snd (main build env argv pref0)) /\
  (forall s, disposition (snd (main build (with_qputenv f env) argv pref0)) s =
             disposition (snd (main build env argv pref0)) s).
Proof.
  destruct (with_qputenv_play build env argv pref0 f code_order) as [H1 H2].
  rewrite !main_play in H1, H2. cbn [fst snd] in H1, H2.
  injection H1 as H1.
  destruct (main_explained build (with_qputenv f env) argv pref0) as [Hp' Hd'].
  destruct (main_explained build env argv pref0) as [Hp Hd].
  split; [exact H1|]. split; [exact H2|]. split.
  - rewrite Hp', Hp, <- replay_prefs_without_stderr, H2.
    apply replay_prefs_without_stderr.
  - intros s. rewrite Hd', Hd, <- replay_signals_without_stderr, H2.
    rewrite replay_signals_without_stderr. reflexivity.
Qed.

(** ** The application objects *)

Lemma prelude_application build env i appId :
  In (EvNewApplication i appId) (prelude build env) ->
  i = 0%nat /\ appId = ("qBittorrent-" ++ userIDString env)%string.
Proof.
  unfold prelude. destruct (Q_OS_MAC build), (negb (DISABLE_GUI build)); simpl;
    intros H;
    repeat match type of H with
           | _ \/ _ => destruct H as [H|H]
           | False => contradiction
           | _ = _ => first [discriminate H | injection H as <- <-; auto]
           end.
Qed.

(** X22. One identity for both application objects.  [main] builds at
    most two application objects, and both under the same identifier,
    [qBittorrent-] followed by the user id: the first at the start of every
    run, the second only in daemon mode, after the first has been destroyed
    and [daemon] has returned 0.  So the second singleton check asks for the
    same lock as the first. *)
Theorem application_identity
  (build : Build) (env : Env) (argv : list string) (pref0 : Preferences.t)
  (i : nat) (appId : string) :
  In (EvNewApplication i appId) (trace (snd (main build env argv pref0))) ->
  appId = ("qBittorrent-" ++ userIDString env)%string /\
  (i = 0%nat \/
   i = 1%nat /\ daemonizing build env argv pref0 = true /\ daemon env = 0 /\
   In EvAppReset (trace (snd (main build env argv pref0)))).
Proof.
  intros Hin.
  pose proof (reached_of_In build env argv pref0 _ Hin) as Hr.
  pose proof (events_of_In build env argv pref0 _ Hin) as He.
  destruct i as [|i]; cbn [step_of] in Hr, He.
  - split; [|left; reflexivity].
    unfold events in He. rewrite parse_step in He.
    repeat match type of He with
           | context [if ?c then _ else _] =>
               lazymatch c with
               | context [qputenv] => fail
               | _ => destruct c
               end
           end; cbn [fst] in He;
      apply in_app_or in He as [He|He];
      try (apply prelude_application in He; apply He);
      try (simpl in He; intuition discriminate).
    apply in_app_or in He as [He|He]; [simpl in He; intuition discriminate|].
    destruct (negb (qputenv env "QBITTORRENT" (QBT_VERSION env)));
      simpl in He; intuition discriminate.
  - unfold events in He. cbn [step_run fst] in He.
    destruct (daemonizing build env argv pref0) eqn:Hd; [|contradiction He].
    destruct He as [[= <- <-]|[He|[]]]; [|discriminate He].
    split; [reflexivity|]. right. split; [reflexivity|]. split; [reflexivity|].
    destruct (reached_before build env argv pref0 Daemonize ReacquireSingleton Hr)
      as [Hr' Hx]; [simpl; tauto|].
    rewrite (detach_exit build env argv pref0 Hd) in Hx.
    destruct (Z.eqb_spec (daemon env) 0) as [E|E]; [|discriminate Hx].
    split; [exact E|].
    apply trace_In. cbn [step_of]. split; [exact Hr'|].
    rewrite (detach_events build env argv pref0 Hd).
    destruct (daemon env =? 0); left; reflexivity.
Qed.

Lemma application_identity_witness :
  "qBittorrent-1000" = ("qBittorrent-" ++ userIDString Sample.env)%string /\
  In EvAppReset
     (trace (snd (main Sample.nox Sample.env ["qbittorrent-nox"; "-d"] Sample.accepted))).
Proof.
  destruct (application_identity Sample.nox Sample.env ["qbittorrent-nox"; "-d"]
              Sample.accepted 1 "qBittorrent-1000") as (H1 & [H2|(_ & _ & _ & H2)]).
  - vm_compute. tauto.
  - discriminate H2.
  - split; [exact H1 | exact H2].
Defined.

(** ** Before the arguments are looked at *)

Lemma parse_events build env argv pref0 :
  exists evs, events build env argv pref0 ParseArgs = prelude build env ++ evs /\ evs <> [].
Proof.
  unfold events. rewrite parse_step.
  repeat match goal with
         | |- context [if ?c then _ else _] =>
             lazymatch c with
             | context [qputenv] => fail
             | _ => destruct c
             end
         end; cbn [fst]; eexists; (split; [reflexivity|discriminate]).
Qed.

(** X23. What every run does first.  Whatever the command line, valid or
    not, [main] begins with the migration of the property lists (macOS
    builds only) and of the RSS settings (GUI builds only), then builds the
    application object and parses the command line; only then does it act
    on the request, and it always does something more. *)
Theorem prelude_first
  (build : Build) (env : Env) (argv : list string) (pref0 : Preferences.t) :
  exists rest,
    trace (snd (main build env argv pref0)) =
      (if Q_OS_MAC build then [EvMacMigratePlists] else []) ++
      (if DISABLE_GUI build then [] else [EvMigrateRSS]) ++
      [EvNewApplication 0 ("qBittorrent-" ++ userIDString env)%string; EvParseCommandLine] ++
      rest /\
    rest <> [].
Proof.
  destruct (last_step build env argv pref0) as (s & c & Hr & Hc).
  destruct (stops_at build env argv pref0 s c Hr Hc) as [_ Ht].
  destruct (parse_events build env argv pref0) as (evs & He & Hne).
  assert (H : exists rest, trace (snd (main build env argv pref0)) =
                           prelude build env ++ rest /\ rest <> []).
  { destruct evs as [|e evs]; [contradiction Hne; reflexivity|].
    rewrite Ht. destruct s;
      cbn [before before_in code_order Step_eqb List.map List.concat Datatypes.app];
      rewrite He, <- ?app_assoc; eexists; (split; [reflexivity|discriminate]). }
  destruct H as (rest & H & Hrest). exists rest. split; [|exact Hrest].
  rewrite H. unfold prelude. rewrite <- !app_assoc.
  destruct (DISABLE_GUI build); reflexivity.
Qed.

(** ** From one launch to the next *)

Lemma accepted_stays build env argv pref0 :
  Preferences.getAcceptedLegal pref0 = true ->
  ~ In EvLegalNotice (trace (snd (main build env argv pref0))) /\
  (forall b, ~ In (EvSetAcceptedLegal b) (trace (snd (main build env argv pref0)))) /\
  Preferences.getAcceptedLegal (prefs (snd (main build env argv pref0))) = true.
Proof.
  intros Ha. split; [|split].
  - intros H. apply notice_shown in H as (_ & _ & H). congruence.
  - intros b Hin.
    pose proof (events_of_In build env argv pref0 _ Hin) as He.
    cbn [step_of] in He. rewrite consent_events, Ha in He.
    destruct (gate_consulted build env argv pref0); simpl in He; intuition discriminate.
  - rewrite main_prefs. cbv zeta. unfold consent_given. rewrite Ha.
    cbn [negb]. rewrite andb_false_r. cbn [andb]. rewrite andb_false_r.
    destruct (reached build env argv pref0 Consent); exact Ha.
Qed.

(** X24. Consent lasts.  [main] never resets the consent record: true at
    the start, it is true at the end.  So once a run has left the record
    true, a later launch from the preferences it left, of whatever build,
    with whatever command line and user, does not show the legal notice,
    does not write the record and leaves it true. *)
Theorem consent_lasts
  (build : Build) (env : Env) (argv : list string) (pref0 : Preferences.t)
  (build' : Build) (env' : Env) (argv' : list string) :
  Preferences.getAcceptedLegal (prefs (snd (main build env argv pref0))) = true ->
  ~ In EvLegalNotice
      (trace (snd (main build' env' argv' (prefs (snd (main build env argv pref0)))))) /\
  (forall b, ~ In (EvSetAcceptedLegal b)
      (trace (snd (main build' env' argv' (prefs (snd (main build env argv pref0))))))) /\
  Preferences.getAcceptedLegal
    (prefs (snd (main build' env' argv' (prefs (snd (main build env argv pref0)))))) = true.
Proof. apply accepted_stays. Qed.

Lemma consent_lasts_witness :
  ~ In EvLegalNotice
      (trace (snd (main Sample.gui Sample.env ["qbittorrent"]
                     (prefs (snd (main Sample.nox Sample.env ["qbittorrent-nox"]
                                       Sample.fresh)))))).
Proof.
  destruct (consent_lasts Sample.nox Sample.env ["qbittorrent-nox"] Sample.fresh
              Sample.gui Sample.env ["qbittorrent"] eq_refl) as (H & _).
  exact H.
Defined.

(** The port is written by the argument step only, when it lets the run go
    on, and with the port of the request. *)
Lemma port_event build env argv pref0 n :
  In (EvSetWebUiPort n) (events build env argv pref0 ParseArgs) ->
  n = webUiPort (parseCommandLine build pref0 (fileSystem env) (arguments env argv)) /\
  exit_of build env argv pref0 ParseArgs = None.
Proof.
  unfold events, exit_of. rewrite parse_step. intros He.
  assert (Hpre : ~ In (EvSetWebUiPort n) (prelude build env)).
  { unfold prelude. destruct (Q_OS_MAC build), (negb (DISABLE_GUI build));
      simpl; intuition discriminate. }
  repeat match type of He with
         | context [if ?c then _ else _] =>
             lazymatch c with
             | context [qputenv] => fail
             | _ => destruct c
             end
         end; cbn [fst snd] in *;
    apply in_app_or in He as [He|He]; try contradiction;
    try (simpl in He; intuition discriminate).
  apply in_app_or in He as [He|He].
  - destruct He as [[= <-]|[He|[]]]; [auto|discriminate].
  - destruct (negb (qputenv env "QBITTORRENT" (QBT_VERSION env)));
      simpl in He; intuition discriminate.
Qed.

(** X25. A port given once is kept.  When a run has written a port to the
    preferences, a later launch from the preferences it left whose command
    line has no port option (and no unknown parameter, help or version
    request) finds that port as the port of its request, within 1..65535,
    and so gets past the port check and stores the same port again. *)
Theorem port_is_kept
  (build : Build) (env : Env) (argv : list string) (pref0 : Preferences.t) (n : Z)
  (build' : Build) (env' : Env) (argv' : list string) :
  In (EvSetWebUiPort n) (trace (snd (main build env argv pref0))) ->
  Forall (fun a => neutral build' a = true) (List.tl (arguments env' argv')) ->
  1 <= n <= 65535 /\
  webUiPort (parseCommandLine build' (prefs (snd (main build env argv pref0)))
               (fileSystem env') (arguments env' argv')) = n /\
  In (EvSetWebUiPort n)
     (trace (snd (main build' env' argv' (prefs (snd (main build env argv pref0)))))) /\
  Preferences.getWebUiPort
    (prefs (snd (main build' env' argv' (prefs (snd (main build env argv pref0)))))) = n.
Proof.
  intros Hin Hargs.
  pose proof (events_of_In build env argv pref0 _ Hin) as He. cbn [step_of] in He.
  destruct (port_event build env argv pref0 n He) as (Hn & Hx).
  assert (Hc : reached build env argv pref0 Consent = true).
  { rewrite reached_Consent, Hx. reflexivity. }
  destruct (port_written build env argv pref0 Hc) as (Hw & Hrange & Hport).
  cbv zeta in Hw, Hrange, Hport.
  rewrite <- Hn in Hrange, Hport.
  split; [exact Hrange|].
  set (pref1 := prefs (snd (main build env argv pref0))) in *.
  assert (Hq : webUiPort (parseCommandLine build' pref1 (fileSystem env')
                            (arguments env' argv')) = n /\
               showHelp (parseCommandLine build' pref1 (fileSystem env')
                           (arguments env' argv')) = false /\
               showVersion (parseCommandLine build' pref1 (fileSystem env')
                              (arguments env' argv')) = false /\
               unknownParameter (parseCommandLine build' pref1 (fileSystem env')
                                   (arguments env' argv')) = "").
  { destruct (arguments env' argv') as [|p l] eqn:Ea.
    - cbn. rewrite Hport. auto.
    - cbn [List.tl] in Hargs.
      destruct (parseCommandLine_default build' pref1 (fileSystem env') p l Hargs)
        as (H1 & H2 & H3 & H4).
      rewrite H1, Hport. auto. }
  destruct Hq as (Hq1 & Hq2 & Hq3 & Hq4).
  split; [exact Hq1|].
  rewrite <- Hq1.
  apply main_port_applied.
  - rewrite Hq4. reflexivity.
  - rewrite Hq3. apply andb_false_r.
  - exact Hq2.
  - rewrite Hq1. apply port_range_true. exact Hrange.
Qed.

Lemma port_is_kept_witness :
  Preferences.getWebUiPort
    (prefs (snd (main Sample.gui Sample.env ["qbittorrent"; "a.torrent"]
                   (prefs (snd (main Sample.gui Sample.env
                                     ["qbittorrent"; "--webui-port=9000"]
                                     Sample.fresh)))))) = 9000.
Proof.
  destruct (port_is_kept Sample.gui Sample.env ["qbittorrent"; "--webui-port=9000"]
              Sample.fresh 9000 Sample.gui Sample.env ["qbittorrent"; "a.torrent"])
    as (_ & _ & _ & H).
  - vm_compute. tauto.
  - repeat constructor.
  - exact H.
Defined.

(** ** The legal notice, as a function *)

(** X26. What [userAgreesWithLegalNotice] returns is the consent record.
    Called in any state, the function comes back with a result (it never
    leaves [main] itself), and the result is the value of the consent record
    after the call: the record as it was, or true when the notice was shown
    and affirmed.  The port, the splash setting, the signal dispositions and
    the application objects are as before, and with the record already true
    the only thing done is to read it. *)
Theorem notice_result_is_record
  (build : Build) (env : Env) (w : World) :
  exists (b : bool) (w' : World),
    userAgreesWithLegalNotice build env w = (Next b, w') /\
    b = Preferences.getAcceptedLegal (prefs w') /\
    b = Preferences.getAcceptedLegal (prefs w) || affirmed build env /\
    Preferences.getWebUiPort (prefs w') = Preferences.getWebUiPort (prefs w) /\
    Preferences.isSplashScreenDisabled (prefs w') =
      Preferences.isSplashScreenDisabled (prefs w) /\
    disposition w' = disposition w /\
    instances w' = instances w /\
    (Preferences.getAcceptedLegal (prefs w) = true ->
     w' = {| prefs := prefs w; disposition := disposition w; instances := instances w;
             trace := trace w ++ [EvGetAcceptedLegal true] |}).
Proof.
  unfold userAgreesWithLegalNotice, affirmed, bind, pref_getAcceptedLegal,
    pref_setAcceptedLegal, emit, ret.
  cbn [fst snd prefs disposition instances trace].
  destruct (Preferences.getAcceptedLegal (prefs w)) eqn:Ha.
  - eexists _, _. split; [reflexivity|].
    cbn [prefs disposition instances trace orb]. rewrite Ha. repeat split.
  - destruct (DISABLE_GUI build).
    + destruct (isAffirmative (getchar env));
        eexists _, _; (split; [reflexivity|]);
        cbn [prefs disposition instances trace orb]; rewrite ?Ha;
        repeat split; discriminate.
    + destruct (isAgree (clickedButton env));
        eexists _, _; (split; [reflexivity|]);
        cbn [prefs disposition instances trace orb]; rewrite ?Ha;
        repeat split; discriminate.
Qed.
